(** * RimWorld Access installer: a shallow embedding of
      [install_rimworld_access.py] and the properties of its specification.

    The installer is sequential glue around a file system, an HTTP client, a
    zip reader, an XML reader/writer and a console.  The embedding keeps the
    program text (one Rocq definition per Python function, written in a small
    state-and-exception monad) and makes the outside world explicit:

    - the mutable world ([World]): the file system, the pending console
      input and the console output;
    - the fixed environment ([Env]): what the network answers, how an archive
      decodes, how an XML document parses and prints, where the home and the
      working directory are.

    Abstractions made by the model (they are the same for every theorem):
    - Python [str] is a Rocq [string], a sequence of characters with code
      points below 256; [lower()] folds the letters A-Z only; [strip()]
      drops every character of that range that Python counts as white
      space (code points 9-13, 28-32, 133 and 160);
    - a path is the list of its components and names compare exactly;
    - file system calls fail only for structural reasons (missing parent,
      file where a directory is expected, ...), not for permissions or space;
    - library errors are ordinary exceptions ([Exception]); the only
      [KeyboardInterrupt] is the one [input()] raises when the user presses
      Ctrl-C at a prompt;
    - console input is a finite list of events; reading past its end raises
      [EOFError] as Python does. *)

From Stdlib Require Import String Ascii List ZArith Bool Arith Lia.
From Stdlib Require Import Strings.Byte.
Import ListNotations.

Set Warnings "-register-all".

Local Open Scope string_scope.
Local Open Scope list_scope.
Local Open Scope Z_scope.

Notation "a +++ b" := (String.append a b) (at level 60, right associativity).

(* ================================================================== *)
(** * Python strings *)
(* ================================================================== *)

Module PyStr.

Definition dquote : ascii := ascii_of_nat 34.
Definition squote : ascii := ascii_of_nat 39.
Definition nl : string := String (ascii_of_nat 10) EmptyString.

(** [c.lower()] on one character: A-Z go to a-z. *)
Definition lower_ascii (c : ascii) : ascii :=
  let n := nat_of_ascii c in
  if (Nat.leb 65 n && Nat.leb n 90)%bool then ascii_of_nat (n + 32) else c.

(** [s.lower()] *)
Fixpoint lower (s : string) : string :=
  match s with
  | EmptyString => EmptyString
  | String c s' => String (lower_ascii c) (lower s')
  end.

(** [s.startswith(p)] *)
Fixpoint startswith (p s : string) : bool :=
  match p, s with
  | EmptyString, _ => true
  | String _ _, EmptyString => false
  | String a p', String b s' => (Ascii.eqb a b && startswith p' s')%bool
  end.

(** [sub in s] *)
Fixpoint contains (sub s : string) : bool :=
  match s with
  | EmptyString => startswith sub EmptyString
  | String _ s' => (startswith sub s || contains sub s')%bool
  end.

Fixpoint rev_onto (s acc : string) : string :=
  match s with
  | EmptyString => acc
  | String c s' => rev_onto s' (String c acc)
  end.

Definition rev (s : string) : string := rev_onto s EmptyString.

(** [s.endswith(suffix)] *)
Definition endswith (suffix s : string) : bool :=
  startswith (rev suffix) (rev s).

(** [s.lstrip(c)] for a one-character set *)
Fixpoint lstrip_if (drop : ascii -> bool) (s : string) : string :=
  match s with
  | EmptyString => EmptyString
  | String a s' => if drop a then lstrip_if drop s' else s
  end.

(** [s.strip(chars)], the set of characters given as a predicate *)
Definition strip_if (drop : ascii -> bool) (s : string) : string :=
  rev (lstrip_if drop (rev (lstrip_if drop s))).

(** [s.strip(c)] *)
Definition strip_char (c : ascii) : string -> string :=
  strip_if (Ascii.eqb c).

(** The characters [str.isspace()] accepts, among the code points below
    256: tab to carriage return (9-13), the four separators and the space
    (28-32), next line (133, U+0085) and the no-break space (160,
    U+00A0). *)
Definition is_space (c : ascii) : bool :=
  let n := nat_of_ascii c in
  ((Nat.leb 9 n && Nat.leb n 13) || (Nat.leb 28 n && Nat.leb n 32)
   || Nat.eqb n 133 || Nat.eqb n 160)%bool.

(** [s.strip()] *)
Definition strip : string -> string := strip_if is_space.

(** [sep.join(parts)] *)
Fixpoint join (sep : string) (parts : list string) : string :=
  match parts with
  | [] => EmptyString
  | [p] => p
  | p :: rest => p +++ sep +++ join sep rest
  end.

End PyStr.

(* ================================================================== *)
(** * Exceptions and results *)
(* ================================================================== *)

(** [Exception msg] stands for any exception deriving from Python's
    [Exception], [msg] being [str(e)].  [KeyboardInterrupt] derives from
    [BaseException] only, so [except Exception] does not catch it. *)
Inductive exn : Type :=
| Exception (msg : string)
| KeyboardInterrupt.

Inductive result (A : Type) : Type :=
| Ok (a : A)
| Raise (e : exn).
Arguments Ok {A} a.
Arguments Raise {A} e.

(** What a library call computes: a value, or an error deriving from
    [Exception]. *)
Inductive outcome (A : Type) : Type :=
| Done (a : A)
| Failed (msg : string).
Arguments Done {A} a.
Arguments Failed {A} msg.

(* ================================================================== *)
(** * The file system *)
(* ================================================================== *)

Definition bytes := list byte.
Definition path := list string.

(** A directory lists its entries in listing order. *)
Inductive Node : Type :=
| File (data : bytes)
| Dir (entries : list (string * Node)).

Module FS.

Fixpoint entry (name : string) (es : list (string * Node)) : option Node :=
  match es with
  | [] => None
  | (k, n) :: es' => if String.eqb name k then Some n else entry name es'
  end.

(** Replace the entry called [name], or add it at the end of the listing. *)
Fixpoint set_entry (name : string) (new : Node) (es : list (string * Node))
  : list (string * Node) :=
  match es with
  | [] => [(name, new)]
  | (k, n) :: es' =>
      if String.eqb name k then (k, new) :: es'
      else (k, n) :: set_entry name new es'
  end.

Definition del_entry (name : string) (es : list (string * Node))
  : list (string * Node) :=
  filter (fun kn => negb (String.eqb name (fst kn))) es.

Fixpoint lookup (p : path) (fs : Node) : option Node :=
  match p with
  | [] => Some fs
  | c :: p' =>
      match fs with
      | File _ => None
      | Dir es =>
          match entry c es with
          | Some sub => lookup p' sub
          | None => None
          end
      end
  end.

(** Put [new] at [p]; the parent of [p] must be an existing directory. *)
Fixpoint put (p : path) (new : Node) (fs : Node) : option Node :=
  match p with
  | [] => Some new
  | c :: p' =>
      match fs with
      | File _ => None
      | Dir es =>
          match p' with
          | [] => Some (Dir (set_entry c new es))
          | _ :: _ =>
              match entry c es with
              | Some sub =>
                  match put p' new sub with
                  | Some sub' => Some (Dir (set_entry c sub' es))
                  | None => None
                  end
              | None => None
              end
          end
      end
  end.

(** Delete whatever is at [p] (nothing happens when [p] is absent). *)
Fixpoint remove (p : path) (fs : Node) : Node :=
  match p with
  | [] => fs
  | c :: p' =>
      match fs with
      | File _ => fs
      | Dir es =>
          match p' with
          | [] => Dir (del_entry c es)
          | _ :: _ =>
              match entry c es with
              | Some sub => Dir (set_entry c (remove p' sub) es)
              | None => fs
              end
          end
      end
  end.

(** [os.makedirs(p, exist_ok=True)] *)
Fixpoint makedirs (p : path) (fs : Node) : option Node :=
  match fs with
  | File _ => None
  | Dir es =>
      match p with
      | [] => Some fs
      | c :: p' =>
          let sub := match entry c es with Some s => s | None => Dir [] end in
          match makedirs p' sub with
          | Some sub' => Some (Dir (set_entry c sub' es))
          | None => None
          end
      end
  end.

Definition exists_ (p : path) (fs : Node) : bool :=
  match lookup p fs with Some _ => true | None => false end.

Definition is_dir (p : path) (fs : Node) : bool :=
  match lookup p fs with Some (Dir _) => true | _ => false end.

(** [p.parent] and [p.name] *)
Definition parent (p : path) : path := removelast p.
Definition name (p : path) : string := last p EmptyString.

Fixpoint is_prefix (p q : path) : bool :=
  match p, q with
  | [], _ => true
  | _ :: _, [] => false
  | a :: p', b :: q' => (String.eqb a b && is_prefix p' q')%bool
  end.

(** The two paths part ways at some component: neither lies at or below
    the other. *)
Fixpoint apart (p q : path) : bool :=
  match p, q with
  | a :: p', b :: q' => if String.eqb a b then apart p' q' else true
  | _, _ => false
  end.

End FS.

(* ================================================================== *)
(** * JSON values, with Python's operations on them *)
(* ================================================================== *)

(** What [response.json()] can return.  Python's [float] behaves like
    [int] under every operation the installer applies. *)
Inductive json : Type :=
| JNull
| JBool (b : bool)
| JNum (n : Z)
| JStr (s : string)
| JList (items : list json)
| JDict (fields : list (string * json)).

Module Py.

Fixpoint dict_get (key : string) (fields : list (string * json))
  : option json :=
  match fields with
  | [] => None
  | (k, v) :: rest => if String.eqb key k then Some v else dict_get key rest
  end.

(** [bool(v)] *)
Definition truthy (v : json) : bool :=
  match v with
  | JNull => false
  | JBool b => b
  | JNum n => negb (Z.eqb n 0)
  | JStr s => negb (String.eqb s EmptyString)
  | JList l => match l with [] => false | _ => true end
  | JDict d => match d with [] => false | _ => true end
  end.

Fixpoint chars (s : string) : list json :=
  match s with
  | EmptyString => []
  | String c s' => JStr (String c EmptyString) :: chars s'
  end.

(** [for x in v]: the items of a list, the keys of a dict, the characters
    of a string; anything else is not iterable. *)
Definition iter (v : json) : outcome (list json) :=
  match v with
  | JList l => Done l
  | JDict d => Done (map (fun kv => JStr (fst kv)) d)
  | JStr s => Done (chars s)
  | _ => Failed "object is not iterable"
  end.

(** [v.get(key, default)] *)
Definition get (v : json) (key : string) (default : json) : outcome json :=
  match v with
  | JDict d =>
      Done (match dict_get key d with Some x => x | None => default end)
  | _ => Failed "object has no attribute 'get'"
  end.

(** [v[key]] with a string key *)
Definition getitem (v : json) (key : string) : outcome json :=
  match v with
  | JDict d =>
      match dict_get key d with
      | Some x => Done x
      | None => Failed ("'" +++ key +++ "'")
      end
  | JList _ => Failed "list indices must be integers or slices, not str"
  | JStr _ => Failed "string indices must be integers, not 'str'"
  | _ => Failed "object is not subscriptable"
  end.

(** [v.lower()] *)
Definition lower (v : json) : outcome string :=
  match v with
  | JStr s => Done (PyStr.lower s)
  | _ => Failed "object has no attribute 'lower'"
  end.

(** [v.endswith(suffix)] *)
Definition endswith (v : json) (suffix : string) : outcome bool :=
  match v with
  | JStr s => Done (PyStr.endswith suffix s)
  | _ => Failed "object has no attribute 'endswith'"
  end.

(** [[r for r in items if test(r)]]: the test runs on every item, and the
    first test that raises ends the comprehension. *)
Fixpoint comprehension (test : json -> outcome bool) (items : list json)
  : outcome (list json) :=
  match items with
  | [] => Done []
  | r :: rest =>
      match test r with
      | Failed e => Failed e
      | Done keep =>
          match comprehension test rest with
          | Failed e => Failed e
          | Done kept => Done (if keep then r :: kept else kept)
          end
      end
  end.

End Py.

(* ================================================================== *)
(** * XML elements ([xml.etree.ElementTree.Element]) *)
(* ================================================================== *)

Inductive Element : Type :=
| Elem (tag : string) (attrib : list (string * string))
       (text tail : option string) (children : list Element).

Module ET.

Definition tag (e : Element) : string :=
  match e with Elem t _ _ _ _ => t end.
Definition text (e : Element) : option string :=
  match e with Elem _ _ x _ _ => x end.
Definition children (e : Element) : list Element :=
  match e with Elem _ _ _ _ cs => cs end.

(** [Element(tag)]: no attribute, no text, no child *)
Definition new (t : string) : Element := Elem t [] None None [].

(** The position of the element [e.find(t)] returns: the first child
    with that tag. *)
Fixpoint find_index (t : string) (cs : list Element) : option nat :=
  match cs with
  | [] => None
  | c :: cs' =>
      if String.eqb (tag c) t then Some O
      else option_map S (find_index t cs')
  end.

(** [e.findall(t)]: the children with that tag, in document order *)
Definition findall (t : string) (e : Element) : list Element :=
  filter (fun c => String.eqb (tag c) t) (children e).

(** [e.clear()] keeps the tag and drops attributes, text, tail and
    children. *)
Definition clear (e : Element) : Element := new (tag e).

(** [SubElement(parent, t)] followed by [.text = s] on the new child *)
Definition append_child (c : Element) (parent : Element) : Element :=
  match parent with Elem t a x tl cs => Elem t a x tl (cs ++ [c]) end.

Definition li (s : string) : Element := Elem "li" [] (Some s) None [].

Fixpoint set_nth (i : nat) (c : Element) (cs : list Element)
  : list Element :=
  match i, cs with
  | _, [] => []
  | O, _ :: cs' => c :: cs'
  | S i', x :: cs' => x :: set_nth i' c cs'
  end.

(** The element [e] with its [i]-th child replaced: what the document
    looks like after the child was mutated in place. *)
Definition with_child (i : nat) (c : Element) (e : Element) : Element :=
  match e with Elem t a x tl cs => Elem t a x tl (set_nth i c cs) end.

End ET.

(* ================================================================== *)
(** * The outside world *)
(* ================================================================== *)

(** One member of a zip archive as [extractall] meets it: where it goes
    below the extraction directory, whether it is a directory, the bytes
    that reach its file, and the error (bad CRC, truncated data) that
    decompression raises after them, if any. *)
Record ZipMember : Type := {
  m_path : path;
  m_is_dir : bool;
  m_data : bytes;
  m_error : option string
}.

(** The answer to one [requests.get]. *)
Record Response : Type := {
  status_error : option string;        (** what [raise_for_status()] raises *)
  json_body : outcome json;            (** [response.json()] *)
  content_length : option (outcome Z); (** [int(...)] of the header, if sent *)
  chunks : list bytes;                 (** what [iter_content] yields *)
  stream_error : option string         (** raised after the last chunk *)
}.

Record Env : Type := {
  home : path;                               (** [Path.home()] *)
  cwd : path;                                (** relative paths start here *)
  user_path : string -> path;                (** [Path(text)], resolved *)
  requests_get : string -> outcome Response; (** the network *)
  read_zip : bytes -> outcome (list ZipMember);  (** [zipfile.ZipFile] *)
  xml_parse : bytes -> outcome Element;      (** [ET.parse] *)
  xml_tostring : Element -> bytes;           (** [tree.write], the bytes *)
  py_str : json -> string                    (** [str(v)] in an f-string *)
}.

Inductive InputEvent : Type :=
| Line (s : string)     (** the user types a line and presses Enter *)
| CtrlC.                (** the user interrupts the prompt *)

Inductive Output : Type :=
| Out (s : string)                      (** [print(s)] or a prompt *)
| OutProgress (downloaded total : Z).   (** the progress line *)

Record World : Type := {
  fs : Node;
  stdin : list InputEvent;
  console : list Output
}.

Definition set_fs (f : Node) (w : World) : World :=
  {| fs := f; stdin := stdin w; console := console w |}.
Definition set_stdin (i : list InputEvent) (w : World) : World :=
  {| fs := fs w; stdin := i; console := console w |}.
Definition emit (o : Output) (w : World) : World :=
  {| fs := fs w; stdin := stdin w; console := console w ++ [o] |}.

(* ================================================================== *)
(** * The monad of the program: state and exceptions *)
(* ================================================================== *)

Definition M (A : Type) : Type := World -> result A * World.

Definition ret {A} (a : A) : M A := fun w => (Ok a, w).

Definition bind {A B} (m : M A) (k : A -> M B) : M B :=
  fun w =>
    match m w with
    | (Ok a, w') => k a w'
    | (Raise e, w') => (Raise e, w')
    end.

Definition raise {A} (e : exn) : M A := fun w => (Raise e, w).

(** [try: body / except Exception as e: handler(str(e))] *)
Definition try_except {A} (body : M A) (handler : string -> M A) : M A :=
  fun w =>
    match body w with
    | (Raise (Exception msg), w') => handler msg w'
    | other => other
    end.

Declare Scope prog_scope.
Delimit Scope prog_scope with prog.
Notation "x <- m ;; k" := (bind m (fun x => k))
  (at level 100, m at next level, right associativity) : prog_scope.
Notation "m ;; k" := (bind m (fun _ => k))
  (at level 100, right associativity) : prog_scope.
Local Open Scope prog_scope.

(** A library call inside the program. *)
Definition lift {A} (o : outcome A) : M A :=
  match o with
  | Done a => ret a
  | Failed msg => raise (Exception msg)
  end.

Definition print (s : string) : M unit := fun w => (Ok tt, emit (Out s) w).

Definition print_progress (downloaded total : Z) : M unit :=
  fun w => (Ok tt, emit (OutProgress downloaded total) w).

(** [input(prompt)] *)
Definition input (prompt : string) : M string :=
  fun w =>
    let w' := emit (Out prompt) w in
    match stdin w with
    | [] => (Raise (Exception "EOF when reading a line"), w')
    | Line s :: rest => (Ok s, set_stdin rest w')
    | CtrlC :: rest => (Raise KeyboardInterrupt, set_stdin rest w')
    end.

(* ================================================================== *)
(** * File system calls of the program *)
(* ================================================================== *)

Module Os.

Definition fail {A} (msg : string) : M A := raise (Exception msg).

(** [p.exists()] *)
Definition exists_ (p : path) : M bool :=
  fun w => (Ok (FS.exists_ p (fs w)), w).

(** [p.is_dir()] *)
Definition is_dir (p : path) : M bool :=
  fun w => (Ok (FS.is_dir p (fs w)), w).

(** Install the file system an operation computed, or raise. *)
Definition commit (o : option Node) (err : string) : M unit :=
  fun w =>
    match o with
    | Some f => (Ok tt, set_fs f w)
    | None => (Raise (Exception err), w)
    end.

(** [os.mkdir(p)] *)
Definition mkdir (p : path) : M unit :=
  fun w =>
    match FS.lookup p (fs w) with
    | Some _ => fail "File exists" w
    | None => commit (FS.put p (Dir []) (fs w)) "No such file or directory" w
    end.

(** [p.mkdir(exist_ok=True)] *)
Definition mkdir_exist_ok (p : path) : M unit :=
  fun w =>
    match FS.lookup p (fs w) with
    | Some (Dir _) => (Ok tt, w)
    | _ => mkdir p w
    end.

(** [os.makedirs(p)] unless [p] exists *)
Definition makedirs (p : path) : M unit :=
  fun w => commit (FS.makedirs p (fs w)) "Not a directory" w.

(** [open(p, 'wb')]: the file is created, or emptied. *)
Definition open_wb (p : path) : M unit :=
  fun w =>
    match FS.lookup p (fs w) with
    | Some (Dir _) => fail "Is a directory" w
    | _ => commit (FS.put p (File []) (fs w)) "No such file or directory" w
    end.

(** [f.write(data)] on the file opened at [p] *)
Definition append (p : path) (data : bytes) : M unit :=
  fun w =>
    match FS.lookup p (fs w) with
    | Some (File old) =>
        commit (FS.put p (File (old ++ data)) (fs w)) "I/O error" w
    | _ => fail "I/O error" w
    end.

(** [open(p, 'rb').read()] *)
Definition read (p : path) : M bytes :=
  fun w =>
    match FS.lookup p (fs w) with
    | Some (File data) => (Ok data, w)
    | Some (Dir _) => fail "Is a directory" w
    | None => fail "No such file or directory" w
    end.

(** [p.unlink(missing_ok=True)] *)
Definition unlink_missing_ok (p : path) : M unit :=
  fun w =>
    match FS.lookup p (fs w) with
    | None => (Ok tt, w)
    | Some (File _) => (Ok tt, set_fs (FS.remove p (fs w)) w)
    | Some (Dir _) => fail "Is a directory" w
    end.

(** [shutil.rmtree(p)] *)
Definition rmtree (p : path) : M unit :=
  fun w =>
    match FS.lookup p (fs w) with
    | Some (Dir _) => (Ok tt, set_fs (FS.remove p (fs w)) w)
    | Some (File _) => fail "Not a directory" w
    | None => fail "No such file or directory" w
    end.

(** [shutil.rmtree(p, ignore_errors=True)] *)
Definition rmtree_ignore_errors (p : path) : M unit :=
  fun w =>
    match FS.lookup p (fs w) with
    | Some (Dir _) => (Ok tt, set_fs (FS.remove p (fs w)) w)
    | _ => (Ok tt, w)
    end.

(** [list(p.iterdir())] *)
Definition iterdir (p : path) : M (list path) :=
  fun w =>
    match FS.lookup p (fs w) with
    | Some (Dir es) => (Ok (map (fun kn => p ++ [fst kn]) es), w)
    | Some (File _) => fail "Not a directory" w
    | None => fail "No such file or directory" w
    end.

(** Where [shutil.move] and [shutil.copy2] really put things: inside
    [dst] when [dst] is an existing directory. *)
Definition real_dst (src dst : path) (f : Node) : path :=
  if FS.is_dir dst f then dst ++ [FS.name src] else dst.

(** [shutil.move(src, dst)] *)
Definition move (src dst : path) : M unit :=
  fun w =>
    match FS.lookup src (fs w) with
    | None => fail "No such file or directory" w
    | Some n =>
        let target := real_dst src dst (fs w) in
        if FS.exists_ target (fs w) then fail "Destination path already exists" w
        else commit (FS.put target n (FS.remove src (fs w)))
                    "Cannot move" w
    end.

(** [shutil.copy2(src, dst)] *)
Definition copy2 (src dst : path) : M unit :=
  fun w =>
    match FS.lookup src (fs w) with
    | Some (File data) =>
        let target := real_dst src dst (fs w) in
        match FS.lookup target (fs w) with
        | Some (Dir _) => fail "Is a directory" w
        | _ => commit (FS.put target (File data) (fs w))
                      "No such file or directory" w
        end
    | Some (Dir _) => fail "Is a directory" w
    | None => fail "No such file or directory" w
    end.

(** One member of [ZipFile.extractall(extract_to)]. *)
Definition extract_member (extract_to : path) (m : ZipMember) : M unit :=
  let target := extract_to ++ m_path m in
  makedirs (FS.parent target);;
  if m_is_dir m then
    (d <- is_dir target;; if d then ret tt else mkdir target)
  else
    (open_wb target;;
     append target (m_data m);;
     match m_error m with
     | Some e => fail e
     | None => ret tt
     end).

(** [ZipFile.extractall(extract_to)] *)
Fixpoint extractall (extract_to : path) (members : list ZipMember)
  : M unit :=
  match members with
  | [] => ret tt
  | m :: rest => extract_member extract_to m;; extractall extract_to rest
  end.

End Os.

(* ================================================================== *)
(** * The installer *)
(* ================================================================== *)

(** [while True: line = input(prompt); body(line)], where [body] answers
    [Some r] when it leaves the loop with [r] and [None] to go round again.
    Each round consumes one input event, so as many rounds as there are
    pending events (plus the one that meets the end of input) are enough;
    [fuel] is that bound and [while_input] sets it. *)
Fixpoint input_loop {A} (prompt : string) (body : string -> M (option A))
  (fuel : nat) : M A :=
  line <- input prompt;;
  r <- body line;;
  match r with
  | Some a => ret a
  | None =>
      match fuel with
      | O => raise (Exception "input_loop: fuel exhausted")
      | S fuel' => input_loop prompt body fuel'
      end
  end.

Definition while_input {A} (prompt : string) (body : string -> M (option A))
  : M A :=
  fun w => input_loop prompt body (length (stdin w)) w.

Fixpoint in_list (x : string) (l : list string) : bool :=
  match l with
  | [] => false
  | y :: l' => (String.eqb x y || in_list x l')%bool
  end.

Fixpoint list_eqb (a b : list string) : bool :=
  match a, b with
  | [], [] => true
  | x :: a', y :: b' => (String.eqb x y && list_eqb a' b')%bool
  | _, _ => false
  end.

Definition default_path : path :=
  ["C:"; "Program Files (x86)"; "Steam"; "steamapps"; "common"; "RimWorld"].

(** [str(p)] *)
Definition path_str (p : path) : string := PyStr.join "\" p.

Definition required_mods : list string :=
  ["brrainz.harmony"; "ludeon.rimworld"; "shane12300.rimworldaccess"].

Section Installer.

Variable env : Env.

(* ---------------------------------------------------------------- *)
(** ** [find_rimworld_directory] (lines 16-40) *)

Definition path_prompt : string :=
  "Please enter the path to your RimWorld installation: ".

(** The body of the prompt loop (lines 29-40). *)
Definition check_user_path (line : string) : M (option path) :=
  let user_path_text :=
    PyStr.strip_char PyStr.squote (PyStr.strip_char PyStr.dquote line) in
  let path := user_path env user_path_text in
  e <- Os.exists_ path;;
  d <- Os.is_dir path;;
  if (e && d)%bool then
    (a <- Os.exists_ (path ++ ["RimWorldWin64.exe"]);;
     b <- Os.exists_ (path ++ ["RimWorldWin.exe"]);;
     if (a || b)%bool then
       (print ("RimWorld installation verified at: " +++ path_str path);;
        ret (Some path))
     else
       (print "This doesn't appear to be a valid RimWorld installation directory.";;
        ret None))
  else
    (print "Directory not found. Please try again.";;
     ret None).

Definition prompt_for_path : M path :=
  while_input path_prompt check_user_path.

Definition find_rimworld_directory : M path :=
  e <- Os.exists_ default_path;;
  d <- Os.is_dir default_path;;
  if (e && d)%bool then
    (print ("Found RimWorld at: " +++ path_str default_path);;
     ret default_path)
  else
    (print ("RimWorld not found at default location: "
            +++ path_str default_path);;
     prompt_for_path).

(* ---------------------------------------------------------------- *)
(** ** [download_file] (lines 43-69) *)

(** [requests.get(url)]: a URL that is not a string has no scheme. *)
Definition http_get (url : json) : M Response :=
  match url with
  | JStr u => lift (requests_get env u)
  | _ => Os.fail "Invalid URL: No scheme supplied"
  end.

Definition raise_for_status (response : Response) : M unit :=
  match status_error response with
  | Some e => Os.fail e
  | None => ret tt
  end.

(** [int(response.headers.get('content-length', 0))] *)
Definition total_size_of (response : Response) : M Z :=
  match content_length response with
  | None => ret 0
  | Some o => lift o
  end.

(** The [for chunk in response.iter_content(...)] loop (lines 57-63). *)
Fixpoint write_chunks (destination : path) (total_size : Z)
  (pending : list bytes) (downloaded : Z) : M unit :=
  match pending with
  | [] => ret tt
  | chunk :: rest =>
      match chunk with
      | [] => write_chunks destination total_size rest downloaded
      | _ :: _ =>
          Os.append destination chunk;;
          let downloaded := downloaded + Z.of_nat (length chunk) in
          (if 0 <? total_size then print_progress downloaded total_size
           else ret tt);;
          write_chunks destination total_size rest downloaded
      end
  end.

Definition download_file (url : json) (destination : path) : M bool :=
  try_except
    (print ("Downloading from " +++ py_str env url +++ "...");;
     response <- http_get url;;
     raise_for_status response;;
     total_size <- total_size_of response;;
     Os.open_wb destination;;
     write_chunks destination total_size (chunks response) 0;;
     match stream_error response with
     | Some e => Os.fail e
     | None =>
         print (PyStr.nl +++ "Download complete!");;
         ret true
     end)
    (fun e =>
       print (PyStr.nl +++ "Error downloading file: " +++ e);;
       ret false).

(* ---------------------------------------------------------------- *)
(** ** [get_latest_github_release] (lines 72-138) *)

Definition api (repo suffix : string) : json :=
  JStr ("https://api.github.com/repos/" +++ repo +++ suffix).

(** The test of the beta filter (line 108). *)
Definition is_beta (r : json) : outcome bool :=
  match Py.get r "tag_name" (JStr EmptyString) with
  | Failed e => Failed e
  | Done t =>
      match Py.lower t with
      | Failed e => Failed e
      | Done l => Done (PyStr.contains "-beta" l)
      end
  end.

(** The test of the dev filter (line 118). *)
Definition is_dev (r : json) : outcome bool :=
  match Py.get r "tag_name" (JStr EmptyString) with
  | Failed e => Failed e
  | Done t =>
      match Py.lower t with
      | Failed e => Failed e
      | Done l => Done (String.eqb l "dev")
      end
  end.

(** Lines 87-126: the release to look into, or [None] where the source
    has reported the cause and returned [None]. *)
Definition select_release (repo release_type : string)
  : M (option json) :=
  if String.eqb release_type "stable" then
    (response <- http_get (api repo "/releases/latest");;
     raise_for_status response;;
     latest_release <- lift (json_body response);;
     ret (Some latest_release))
  else
    (response <- http_get (api repo "/releases");;
     raise_for_status response;;
     releases <- lift (json_body response);;
     if negb (Py.truthy releases) then
       (print ("No releases found for " +++ repo);;
        ret None)
     else if String.eqb release_type "beta" then
       (items <- lift (Py.iter releases);;
        beta_releases <- lift (Py.comprehension is_beta items);;
        match beta_releases with
        | [] => print ("No beta releases found for " +++ repo);; ret None
        | latest_release :: _ => ret (Some latest_release)
        end)
     else if String.eqb release_type "dev" then
       (items <- lift (Py.iter releases);;
        dev_releases <- lift (Py.comprehension is_dev items);;
        match dev_releases with
        | [] => print ("No 'dev' tag found for " +++ repo);; ret None
        | latest_release :: _ => ret (Some latest_release)
        end)
     else
       (print ("Invalid release_type: " +++ release_type);;
        ret None)).

(** The asset loop (lines 129-132); [None] when it runs to its end. *)
Fixpoint first_zip (latest_release : json) (assets : list json)
  : M (option json) :=
  match assets with
  | [] => ret None
  | asset :: rest =>
      name <- lift (Py.getitem asset "name");;
      zip <- lift (Py.endswith name ".zip");;
      if zip then
        (tag <- lift (Py.get latest_release "tag_name" (JStr "unknown"));;
         title <- lift (Py.get latest_release "name" (JStr EmptyString));;
         print ("Found release: " +++ py_str env tag +++ " - "
                +++ py_str env title);;
         url <- lift (Py.getitem asset "browser_download_url");;
         ret (Some url))
      else first_zip latest_release rest
  end.

(** Lines 128-135.  Python's [None] is JSON's [null]. *)
Definition find_zip_asset (repo : string) (latest_release : json)
  : M json :=
  assets_value <- lift (Py.get latest_release "assets" (JList []));;
  assets <- lift (Py.iter assets_value);;
  found <- first_zip latest_release assets;;
  match found with
  | Some url => ret url
  | None =>
      print ("No zip file found in latest release for " +++ repo);;
      ret JNull
  end.

Definition get_latest_github_release (repo release_type : string)
  : M json :=
  try_except
    (selected <- select_release repo release_type;;
     match selected with
     | None => ret JNull
     | Some latest_release => find_zip_asset repo latest_release
     end)
    (fun e =>
       print ("Error fetching release info from GitHub: " +++ e);;
       ret JNull).

(* ---------------------------------------------------------------- *)
(** ** [extract_zip] (lines 141-153) *)

Definition extract_zip (zip_path extract_to : path) : M bool :=
  try_except
    (print ("Extracting " +++ FS.name zip_path +++ "...");;
     data <- Os.read zip_path;;
     members <- lift (read_zip env data);;
     Os.extractall extract_to members;;
     print "Extraction complete!";;
     ret true)
    (fun e =>
       print ("Error extracting zip file: " +++ e);;
       ret false).

(* ---------------------------------------------------------------- *)
(** ** [install_harmony_mod] (lines 156-204) *)

(** [[f for f in entries if f.is_dir()]] *)
Fixpoint keep_dirs (entries : list path) : M (list path) :=
  match entries with
  | [] => ret []
  | f :: rest =>
      d <- Os.is_dir f;;
      kept <- keep_dirs rest;;
      ret (if d then f :: kept else kept)
  end.

Definition install_harmony_mod (rimworld_path : path) : M bool :=
  print (PyStr.nl +++ " Installing Harmony Mod");;
  let mods_dir := rimworld_path ++ ["Mods"] in
  Os.mkdir_exist_ok mods_dir;;
  harmony_url <- get_latest_github_release "pardeike/HarmonyRimWorld" "stable";;
  if negb (Py.truthy harmony_url) then
    (print "Failed to get Harmony download URL";;
     ret false)
  else
    let temp_zip := cwd env ++ ["HarmonyMod.zip"] in
    downloaded <- download_file harmony_url temp_zip;;
    if negb downloaded then ret false
    else
      let temp_extract := cwd env ++ ["temp_harmony"] in
      extracted <- extract_zip temp_zip temp_extract;;
      if negb extracted then
        (Os.unlink_missing_ok temp_zip;;
         ret false)
      else
        (entries <- Os.iterdir temp_extract;;
         extracted_folders <- keep_dirs entries;;
         match extracted_folders with
         | [] =>
             print "Error: No folder found in extracted Harmony zip";;
             Os.rmtree_ignore_errors temp_extract;;
             Os.unlink_missing_ok temp_zip;;
             ret false
         | harmony_folder :: _ =>
             let destination := mods_dir ++ [FS.name harmony_folder] in
             present <- Os.exists_ destination;;
             (if present then
                (print ("Removing existing Harmony installation at "
                        +++ path_str destination);;
                 Os.rmtree destination)
              else ret tt);;
             Os.move harmony_folder destination;;
             print ("Harmony mod installed to: " +++ path_str destination);;
             Os.rmtree_ignore_errors temp_extract;;
             Os.unlink_missing_ok temp_zip;;
             ret true
         end).

(* ---------------------------------------------------------------- *)
(** ** [install_rimworld_access_mod] (lines 207-258) *)

Definition install_rimworld_access_mod (rimworld_path : path)
  (release_type : string) : M bool :=
  print (PyStr.nl +++ " Installing RimWorld Access ");;
  let mods_dir := rimworld_path ++ ["Mods"] in
  Os.mkdir_exist_ok mods_dir;;
  access_url <- get_latest_github_release "shane12300/rimworld_access" release_type;;
  if negb (Py.truthy access_url) then
    (print "Failed to get RimWorld Access download URL";;
     ret false)
  else
    let temp_zip := cwd env ++ ["RimWorldAccess.zip"] in
    downloaded <- download_file access_url temp_zip;;
    if negb downloaded then ret false
    else
      let temp_extract := cwd env ++ ["temp_access"] in
      extracted <- extract_zip temp_zip temp_extract;;
      if negb extracted then
        (Os.unlink_missing_ok temp_zip;;
         ret false)
      else
        (entries <- Os.iterdir temp_extract;;
         extracted_folders <- keep_dirs entries;;
         match extracted_folders with
         | [] =>
             print "Error: No folder found in extracted RimWorld Access zip";;
             Os.rmtree_ignore_errors temp_extract;;
             Os.unlink_missing_ok temp_zip;;
             ret false
         | access_folder :: _ =>
             let destination := mods_dir ++ [FS.name access_folder] in
             present <- Os.exists_ destination;;
             (if present then
                (print ("Removing existing RimWorld Access installation at "
                        +++ path_str destination);;
                 Os.rmtree destination)
              else ret tt);;
             Os.move access_folder destination;;
             print ("RimWorld Access mod installed to: "
                    +++ path_str destination);;
             Os.rmtree_ignore_errors temp_extract;;
             Os.unlink_missing_ok temp_zip;;
             ret true
         end).

(* ---------------------------------------------------------------- *)
(** ** [update_mods_config] (lines 261-328) *)

Definition config_dir : path :=
  home env ++ ["AppData"; "LocalLow"; "Ludeon Studios";
               "RimWorld by Ludeon Studios"; "Config"].
Definition config_file : path := config_dir ++ ["ModsConfig.xml"].
(** [config_file.with_suffix('.xml.backup')] *)
Definition backup_file : path := config_dir ++ ["ModsConfig.xml.backup"].

(** Lines 284-286: where [active_mods] sits among the children of the
    root, and the root, which has gained an empty [activeMods] child when
    it had none. *)
Definition locate_active_mods (root : Element) : nat * Element :=
  match ET.find_index "activeMods" (ET.children root) with
  | Some i => (i, root)
  | None =>
      (length (ET.children root),
       ET.append_child (ET.new "activeMods") root)
  end.

Definition active_mods_of (root : Element) : Element :=
  let (i, root') := locate_active_mods root in
  nth i (ET.children root') (ET.new "activeMods").

(** Line 289: [[li.text for li in active_mods.findall('li') if li.text]] *)
Fixpoint texts (items : list Element) : list string :=
  match items with
  | [] => []
  | li :: rest =>
      match ET.text li with
      | Some s => if String.eqb s EmptyString then texts rest
                  else s :: texts rest
      | None => texts rest
      end
  end.

Definition current_mods_of (root : Element) : list string :=
  texts (ET.findall "li" (active_mods_of root)).

(** Lines 308-319 on the [activeMods] element. *)
Definition rebuild (required current_mods : list string)
  (active_mods : Element) : Element :=
  let cleared := ET.clear active_mods in
  let with_required :=
    fold_left (fun am mod_id => ET.append_child (ET.li mod_id) am)
              required cleared in
  fold_left
    (fun am mod_id =>
       if in_list mod_id required then am
       else ET.append_child (ET.li mod_id) am)
    current_mods with_required.

(** The document [tree.write] prints: the root after lines 284-319. *)
Definition patched (required : list string) (root : Element) : Element :=
  let (i, root') := locate_active_mods root in
  ET.with_child i
    (rebuild required (current_mods_of root) (active_mods_of root)) root'.

(** [update_mods_config] with the list of line 291 as a parameter. *)
Definition update_mods_config_with (required : list string)
  (rimworld_path : path) : M bool :=
  print (PyStr.nl +++ " Updating ModsConfig.xml ");;
  present <- Os.exists_ config_file;;
  if negb present then
    (print ("Warning: ModsConfig.xml not found at " +++ path_str config_file);;
     print "The file will be created when you first run RimWorld.";;
     print "Please run the game, and try again.";;
     ret true)
  else
    try_except
      (data <- Os.read config_file;;
       root <- lift (xml_parse env data);;
       let current_mods := current_mods_of root in
       if list_eqb (firstn 3 current_mods) required then
         (print "ModsConfig.xml already has the correct configuration. No changes needed.";;
          ret true)
       else
         (Os.copy2 config_file backup_file;;
          print ("Backup created at: " +++ path_str backup_file);;
          Os.open_wb config_file;;
          Os.append config_file (xml_tostring env (patched required root));;
          print "ModsConfig.xml updated successfully!";;
          ret true))
      (fun e =>
         print ("Error updating ModsConfig.xml: " +++ e);;
         ret false).

Definition update_mods_config (rimworld_path : path) : M bool :=
  update_mods_config_with required_mods rimworld_path.

(* ---------------------------------------------------------------- *)
(** ** [main] (lines 331-387) *)

(** The body of the version prompt loop (lines 353-367). *)
Definition check_version_choice (line : string) : M (option string) :=
  let version_choice := PyStr.strip line in
  if String.eqb version_choice "1" then
    (print "Will download the latest stable release.";;
     ret (Some "stable"))
  else if String.eqb version_choice "2" then
    (print "Will download the latest beta release.";;
     ret (Some "beta"))
  else if String.eqb version_choice "3" then
    (print "Will download the development build.";;
     ret (Some "dev"))
  else
    (print "Please enter 1, 2, or 3.";;
     ret None).

Definition choose_release_type : M string :=
  print (PyStr.nl +++ "Which version of RimWorld Access do you want to install?");;
  print "1. Stable - Latest stable release (recommended)";;
  print "2. Beta - Latest beta/pre-release version";;
  print "3. Dev - Development build (bleeding edge, may be unstable)";;
  while_input (PyStr.nl +++ "Enter your choice (1/2/3): ")
              check_version_choice.

(** The [try] block of [main] (lines 338-378). *)
Definition main_body : M Z :=
  rimworld_path <- find_rimworld_directory;;
  harmony <- install_harmony_mod rimworld_path;;
  if negb harmony then
    (print (PyStr.nl +++ "Failed to install Harmony mod. Installation aborted.");;
     ret 1)
  else
    (release_type <- choose_release_type;;
     access <- install_rimworld_access_mod rimworld_path release_type;;
     if negb access then
       (print (PyStr.nl +++ "Failed to install RimWorld Access mod. Installation aborted.");;
        ret 1)
     else
       (update_mods_config rimworld_path;;
        print "Installation complete!";;
        ret 0)).

(** [main]: the two handlers of lines 380-387 around the body.  The
    traceback goes to the error stream, which the model leaves out. *)
Definition main : M Z :=
  print "RimWorld Access Mod Installer";;
  fun w =>
    match main_body w with
    | (Raise KeyboardInterrupt, w') =>
        (print (PyStr.nl +++ PyStr.nl +++ "Installation cancelled by user.");;
         ret 1) w'
    | (Raise (Exception e), w') =>
        (print (PyStr.nl +++ PyStr.nl +++ "Unexpected error: " +++ e);;
         ret 1) w'
    | done => done
    end.

End Installer.

(* ================================================================== *)
(** * Notions the specification uses *)
(* ================================================================== *)

Definition is_none {A} (o : option A) : bool :=
  match o with None => true | Some _ => false end.

Definition is_some {A} (o : option A) : bool := negb (is_none o).

(** What goes wrong first in a download, if anything: on the network (the
    URL is not one, the request fails, the status is an error, the size
    header is unreadable, the stream breaks) or in the file system (the
    destination cannot be opened for writing). *)
Definition download_error (env : Env) (url : json) (destination : path)
  (f : Node) : option string :=
  match url with
  | JStr u =>
      match requests_get env u with
      | Failed e => Some e
      | Done response =>
          match status_error response with
          | Some e => Some e
          | None =>
              match content_length response with
              | Some (Failed e) => Some e
              | _ =>
                  if FS.is_dir destination f then Some "Is a directory"
                  else if is_none (FS.put destination (File []) f)
                  then Some "No such file or directory"
                  else stream_error response
              end
          end
      end
  | _ => Some "Invalid URL: No scheme supplied"
  end.

(** A download completes when nothing goes wrong. *)
Definition download_completes (env : Env) (url : json) (destination : path)
  (f : Node) : bool :=
  is_none (download_error env url destination f).

(** What the downloaded file holds when the download completes. *)
Definition body_of (env : Env) (url : json) : bytes :=
  match url with
  | JStr u =>
      match requests_get env u with
      | Done response => concat (chunks response)
      | Failed _ => []
      end
  | _ => []
  end.

(** The console ends with this line. *)
Definition last_line (w : World) (s : string) : Prop :=
  exists before, console w = before ++ [Out s].

(** What one call to the release API yields, once the status is checked
    and the body decoded. *)
Definition api_call (env : Env) (url : string) : outcome json :=
  match requests_get env url with
  | Failed e => Failed e
  | Done response =>
      match status_error response with
      | Some e => Failed e
      | None => json_body response
      end
  end.

Definition list_url (repo : string) : string :=
  "https://api.github.com/repos/" +++ repo +++ "/releases".
Definition latest_url (repo : string) : string :=
  "https://api.github.com/repos/" +++ repo +++ "/releases/latest".

(** The tag of a release as the API documents it: a dictionary whose
    [tag_name], when present, is a string. *)
Definition tag_of (r : json) : option string :=
  match r with
  | JDict d =>
      match Py.dict_get "tag_name" d with
      | Some (JStr t) => Some t
      | Some _ => None
      | None => Some EmptyString
      end
  | _ => None
  end.

Definition has_tag (test : string -> bool) (r : json) : bool :=
  match tag_of r with Some t => test t | None => false end.

(** The tag contains the beta marker, whatever the case of its letters. *)
Definition beta_tag (t : string) : bool :=
  PyStr.contains "-beta" (PyStr.lower t).

(** The tag is [dev], whatever the case of its letters. *)
Definition dev_tag (t : string) : bool :=
  String.eqb (PyStr.lower t) "dev".

(** The assets of a release: a dictionary whose [assets], when present, is
    a list. *)
Definition assets_of (r : json) : option (list json) :=
  match r with
  | JDict d =>
      match Py.dict_get "assets" d with
      | Some (JList l) => Some l
      | Some _ => None
      | None => Some []
      end
  | _ => None
  end.

Definition asset_name (a : json) : option string :=
  match a with
  | JDict d =>
      match Py.dict_get "name" d with Some (JStr n) => Some n | _ => None end
  | _ => None
  end.

Definition asset_url (a : json) : option json :=
  match a with
  | JDict d => Py.dict_get "browser_download_url" d
  | _ => None
  end.

(** An asset as the API documents it: a file name and a download URL. *)
Definition asset_ok (a : json) : bool :=
  (is_some (asset_name a) && is_some (asset_url a))%bool.

Definition is_zip (a : json) : bool :=
  match asset_name a with
  | Some n => PyStr.endswith ".zip" n
  | None => false
  end.

(** The download URL of the first asset whose file name ends in [.zip];
    [JNull] is Python's [None]. *)
Definition first_zip_url (assets : list json) : json :=
  match find is_zip assets with
  | Some a => match asset_url a with Some u => u | None => JNull end
  | None => JNull
  end.

(** Append a line to the console. *)
Definition say (s : string) (w : World) : World := emit (Out s) w.

(** The line printed when the asset is found (line 131). *)
Definition found_line (env : Env) (r : json) : string :=
  match r with
  | JDict d =>
      "Found release: "
      +++ py_str env (match Py.dict_get "tag_name" d with
                      | Some t => t
                      | None => JStr "unknown"
                      end)
      +++ " - "
      +++ py_str env (match Py.dict_get "name" d with
                      | Some n => n
                      | None => JStr EmptyString
                      end)
  | _ => EmptyString
  end.

(** The handler of line 136. *)
Definition fetch_failed (e : string) : M json :=
  print ("Error fetching release info from GitHub: " +++ e);;
  ret JNull.

(** The URL whose failure ends a call for the given channel. *)
Definition channel_url (repo release_type : string) : string :=
  if String.eqb release_type "stable" then latest_url repo else list_url repo.

(** A path is acceptable to the prompt loop (lines 32-34). *)
Definition valid_install (p : path) (f : Node) : bool :=
  (FS.exists_ p f && FS.is_dir p f
   && (FS.exists_ (p ++ ["RimWorldWin64.exe"]) f
       || FS.exists_ (p ++ ["RimWorldWin.exe"]) f))%bool.

(** The path a typed line stands for (lines 29-30). *)
Definition entered (env : Env) (line : string) : path :=
  user_path env
    (PyStr.strip_char PyStr.squote (PyStr.strip_char PyStr.dquote line)).

(** What the loop answers to a line. *)
Definition answer (env : Env) (line : string) (f : Node) : string :=
  if valid_install (entered env line) f then
    "RimWorld installation verified at: " +++ path_str (entered env line)
  else if (FS.exists_ (entered env line) f
           && FS.is_dir (entered env line) f)%bool then
    "This doesn't appear to be a valid RimWorld installation directory."
  else "Directory not found. Please try again.".

(** The world after the user has typed a line at the path prompt and the
    loop has answered it. *)
Definition after_line (env : Env) (line : string)
  (rest : list InputEvent) (w : World) : World :=
  say (answer env line (fs w)) (set_stdin rest (say path_prompt w)).

(** The parser reads back what [tree.write] printed, with the same list
    of enabled mods. *)
Definition reads_back (env : Env) (t : Element) : Prop :=
  exists t', xml_parse env (xml_tostring env t) = Done t' /\
             current_mods_of t' = current_mods_of t.

(** Both install functions are one text with different constants. *)
Record Package : Type := {
  pk_title : string;
  pk_repo : string;
  pk_no_url : string;
  pk_zip : string;
  pk_temp : string;
  pk_no_folder : string;
  pk_removing : string;
  pk_installed : string
}.

Definition harmony_package : Package := {|
  pk_title := PyStr.nl +++ " Installing Harmony Mod";
  pk_repo := "pardeike/HarmonyRimWorld";
  pk_no_url := "Failed to get Harmony download URL";
  pk_zip := "HarmonyMod.zip";
  pk_temp := "temp_harmony";
  pk_no_folder := "Error: No folder found in extracted Harmony zip";
  pk_removing := "Removing existing Harmony installation at ";
  pk_installed := "Harmony mod installed to: "
|}.

Definition access_package : Package := {|
  pk_title := PyStr.nl +++ " Installing RimWorld Access ";
  pk_repo := "shane12300/rimworld_access";
  pk_no_url := "Failed to get RimWorld Access download URL";
  pk_zip := "RimWorldAccess.zip";
  pk_temp := "temp_access";
  pk_no_folder := "Error: No folder found in extracted RimWorld Access zip";
  pk_removing := "Removing existing RimWorld Access installation at ";
  pk_installed := "RimWorld Access mod installed to: "
|}.

(** Lines 180-204 (and 235-258): from the extracted tree to the installed
    folder. *)
Definition place_package (env : Env) (pk : Package) (rimworld_path : path)
  : M bool :=
  let mods_dir := rimworld_path ++ ["Mods"] in
  let temp_zip := cwd env ++ [pk_zip pk] in
  let temp_extract := cwd env ++ [pk_temp pk] in
  entries <- Os.iterdir temp_extract;;
  extracted_folders <- keep_dirs entries;;
  match extracted_folders with
  | [] =>
      print (pk_no_folder pk);;
      Os.rmtree_ignore_errors temp_extract;;
      Os.unlink_missing_ok temp_zip;;
      ret false
  | folder :: _ =>
      let destination := mods_dir ++ [FS.name folder] in
      present <- Os.exists_ destination;;
      (if present then
         (print (pk_removing pk +++ path_str destination);;
          Os.rmtree destination)
       else ret tt);;
      Os.move folder destination;;
      print (pk_installed pk +++ path_str destination);;
      Os.rmtree_ignore_errors temp_extract;;
      Os.unlink_missing_ok temp_zip;;
      ret true
  end.

(** The whole install, lines 160-204 (and 215-258). *)
Definition install_package (env : Env) (pk : Package) (rimworld_path : path)
  (release_type : string) : M bool :=
  print (pk_title pk);;
  Os.mkdir_exist_ok (rimworld_path ++ ["Mods"]);;
  url <- get_latest_github_release env (pk_repo pk) release_type;;
  if negb (Py.truthy url) then
    (print (pk_no_url pk);;
     ret false)
  else
    (downloaded <- download_file env url (cwd env ++ [pk_zip pk]);;
     if negb downloaded then ret false
     else
       (extracted <- extract_zip env (cwd env ++ [pk_zip pk])
                                 (cwd env ++ [pk_temp pk]);;
        if negb extracted then
          (Os.unlink_missing_ok (cwd env ++ [pk_zip pk]);;
           ret false)
        else place_package env pk rimworld_path)).

(* ================================================================== *)
(** * A sample world *)
(* ================================================================== *)

(** A small concrete environment on which the theorems are instantiated:
    a game installed in [C:\Games\RimWorld] with an older Harmony, a
    release API with the two packages, and a configuration file. *)
Module Sample.

Definition b (s : string) : bytes := list_byte_of_string s.

Definition same_bytes (x y : bytes) : bool :=
  String.eqb (string_of_list_byte x) (string_of_list_byte y).

Definition backslash : ascii := ascii_of_nat 92.

Fixpoint split_path (s current : string) : list string :=
  match s with
  | EmptyString =>
      if String.eqb current EmptyString then [] else [current]
  | String c s' =>
      if Ascii.eqb c backslash then
        (if String.eqb current EmptyString then split_path s' EmptyString
         else current :: split_path s' EmptyString)
      else split_path s' (current +++ String c EmptyString)
  end.

(** *** The network *)

Definition asset (name url : string) : json :=
  JDict [("name", JStr name); ("browser_download_url", JStr url)].

Definition release (tag : string) (assets : list json) : json :=
  JDict [("tag_name", JStr tag); ("name", JStr ("Release " +++ tag));
         ("assets", JList assets)].

Definition answer_json (j : json) : Response :=
  {| status_error := None; json_body := Done j; content_length := None;
     chunks := []; stream_error := None |}.

Definition answer_file (parts : list bytes) (broken : option string)
  : Response :=
  {| status_error := None; json_body := Failed "Expecting value";
     content_length := Some (Done 9); chunks := parts;
     stream_error := broken |}.

Definition harmony_release : json :=
  release "v2.3.3" [asset "HarmonyMod.zip" "https://dl.example/HarmonyMod.zip"].

Definition access_beta : json :=
  release "v2.0-beta"
    [asset "RimWorldAccess-beta.zip"
           "https://dl.example/RimWorldAccess-beta.zip"].

Definition access_stable : json :=
  release "v1.0"
    [asset "notes.txt" "https://dl.example/notes.txt";
     asset "RimWorldAccess.zip" "https://dl.example/RimWorldAccess.zip"].

Definition network (harmony_zip : Response) (u : string)
  : outcome Response :=
  if String.eqb u (latest_url "pardeike/HarmonyRimWorld") then
    Done (answer_json harmony_release)
  else if String.eqb u (latest_url "shane12300/rimworld_access") then
    Done (answer_json access_stable)
  else if String.eqb u (list_url "shane12300/rimworld_access") then
    Done (answer_json (JList [access_beta; access_stable]))
  else if String.eqb u (list_url "nobody/empty") then
    Done (answer_json (JList []))
  else if String.eqb u "https://dl.example/HarmonyMod.zip" then
    Done harmony_zip
  else if String.eqb u "https://dl.example/RimWorldAccess.zip" then
    Done (answer_file [b "PK"; b "access"] None)
  else Failed "404 Client Error: Not Found".

(** *** Archives *)

Definition member (p : path) (data : string) (broken : option string)
  : ZipMember :=
  {| m_path := p; m_is_dir := false; m_data := b data; m_error := broken |}.

Definition archive (dll_error : option string) (data : bytes)
  : outcome (list ZipMember) :=
  if same_bytes data (b "PKharmony") then
    Done [member ["HarmonyMod"; "About"; "About.xml"] "<ModMetaData/>" None;
          member ["HarmonyMod"; "Assemblies"; "0Harmony.dll"]
                 (match dll_error with Some _ => EmptyString | None => "MZ" end)
                 dll_error]
  else if same_bytes data (b "PKaccess") then
    Done [member ["RimWorldAccess"; "About"; "About.xml"] "<ModMetaData/>"
                 None]
  else Failed "File is not a zip file".

(** *** The configuration file *)

Definition opt (x : option string) : string :=
  match x with Some s => s | None => EmptyString end.

Fixpoint render (e : Element) : string :=
  match e with
  | Elem t _ x tl cs =>
      "<" +++ t +++ ">" +++ opt x
      +++ (fix all (l : list Element) : string :=
             match l with
             | [] => EmptyString
             | c :: l' => render c +++ all l'
             end) cs
      +++ "</" +++ t +++ ">" +++ opt tl
  end.

Definition tostring (e : Element) : bytes :=
  b ("<?xml version='1.0' encoding='utf-8'?>" +++ PyStr.nl +++ render e).

(** The document of the specification's example: [x.mod] and
    [harmony.id] are enabled. *)
Definition document : Element :=
  Elem "ModsConfigData" [] None None
    [Elem "version" [] (Some "1.5.4104 rev435") None [];
     Elem "activeMods" [] None None [ET.li "x.mod"; ET.li "harmony.id"]].

Definition example_required : list string :=
  ["harmony.id"; "base.id"; "access.id"].

Definition known_documents : list Element :=
  [document; patched required_mods document;
   patched example_required document].

Definition parse (data : bytes) : outcome Element :=
  match find (fun d => same_bytes data (tostring d)) known_documents with
  | Some d => Done d
  | None => Failed "syntax error: line 1, column 0"
  end.

(** *** The environment and the files *)

Definition home_dir : path := ["C:"; "Users"; "player"].

Definition environment (harmony_zip : Response)
  (dll_error : option string) : Env :=
  {| home := home_dir;
     cwd := home_dir ++ ["Downloads"];
     user_path := fun s => split_path s EmptyString;
     requests_get := network harmony_zip;
     read_zip := archive dll_error;
     xml_parse := parse;
     xml_tostring := tostring;
     py_str := fun v => match v with JStr s => s | _ => "?" end |}.

(** Everything works. *)
Definition env : Env :=
  environment (answer_file [b "PK"; b "harmony"] None) None.

(** The second member of the Harmony archive fails its CRC check. *)
Definition env_corrupt : Env :=
  environment (answer_file [b "PK"; b "harmony"] None)
              (Some "Bad CRC-32 for file '0Harmony.dll'").

(** The connection breaks while the Harmony archive is downloading. *)
Definition env_dropped : Env :=
  environment (answer_file [b "PK"] (Some "Connection broken")) None.

Definition game : path := ["C:"; "Games"; "RimWorld"].

Definition files (config : bytes) : Node :=
  Dir [("C:",
    Dir [("Games",
           Dir [("RimWorld",
                  Dir [("RimWorldWin64.exe", File (b "MZ"));
                       ("Mods",
                         Dir [("HarmonyMod",
                                Dir [("old.txt", File (b "old"))])])]);
                ("Empty", Dir [])]);
         ("Users",
           Dir [("player",
                  Dir [("Downloads", Dir []);
                       ("AppData",
                         Dir [("LocalLow",
                           Dir [("Ludeon Studios",
                             Dir [("RimWorld by Ludeon Studios",
                               Dir [("Config",
                                 Dir [("ModsConfig.xml",
                                        File config)])])])])])])])])].

Definition world (config : bytes) (typed : list InputEvent) : World :=
  {| fs := files config; stdin := typed; console := [] |}.

End Sample.

(** The fetcher returns [None] after reporting an invalid release type. *)
Definition reports_invalid_type (env : Env) (repo release_type : string)
  (w : World) : Prop :=
  exists w',
    get_latest_github_release env repo release_type w = (Ok JNull, w') /\
    In (Out ("Invalid release_type: " +++ release_type)) (console w').

(** The folder the installer picks below [p]: the first directory in
    listing order (lines 182 and 189). *)
Definition first_folder (p : path) (f : Node) : option string :=
  match FS.lookup p f with
  | Some (Dir es) =>
      match filter (fun kn => FS.is_dir (p ++ [fst kn]) f) es with
      | kn :: _ => Some (fst kn)
      | [] => None
      end
  | _ => None
  end.

(** The package was installed from the tree that the extraction left in
    the world [wx]: the folder picked there is, entry for entry, what the
    [Mods] directory holds under the same name in [w']. *)
Definition installed_from (env : Env) (pk : Package) (rimworld_path : path)
  (wx w' : World) : Prop :=
  exists name content,
    first_folder (cwd env ++ [pk_temp pk]) (fs wx) = Some name /\
    FS.lookup ((cwd env ++ [pk_temp pk]) ++ [name]) (fs wx)
    = Some (Dir content) /\
    FS.lookup ((rimworld_path ++ ["Mods"]) ++ [name]) (fs w')
    = Some (Dir content) /\
    forall rel,
      FS.lookup (((rimworld_path ++ ["Mods"]) ++ [name]) ++ rel) (fs w')
      = FS.lookup (((cwd env ++ [pk_temp pk]) ++ [name]) ++ rel) (fs wx).

(** The [Mods] directory and the scratch paths of a package lie apart:
    the installer is not run from inside [Mods], and the game is not
    installed inside the scratch directory. *)
Definition scratch_apart (env : Env) (pk : Package) (rimworld_path : path)
  : bool :=
  (FS.apart (rimworld_path ++ ["Mods"]) (cwd env ++ [pk_temp pk])
   && FS.apart (rimworld_path ++ ["Mods"]) (cwd env ++ [pk_zip pk]))%bool.

(** A computation that is never interrupted: it returns, or raises an
    ordinary exception. *)
Definition uninterrupted {A} (m : M A) : Prop :=
  forall w, fst (m w) <> Raise KeyboardInterrupt.

(** An install started in [w] began its extraction in [wz] and ended it
    in [wx]: the [Mods] directory was made sure of, a URL was found, the
    archive was downloaded and extracted (lines 160-176). *)
Definition extracted_in (env : Env) (pk : Package) (rimworld_path : path)
  (release_type : string) (w wz wx : World) : Prop :=
  exists w2 url w3,
    Os.mkdir_exist_ok (rimworld_path ++ ["Mods"]) (say (pk_title pk) w)
    = (Ok tt, w2) /\
    get_latest_github_release env (pk_repo pk) release_type w2
    = (Ok url, w3) /\
    Py.truthy url = true /\
    download_file env url (cwd env ++ [pk_zip pk]) w3 = (Ok true, wz) /\
    extract_zip env (cwd env ++ [pk_zip pk]) (cwd env ++ [pk_temp pk]) wz
    = (Ok true, wx).

(** What a directory holds, an absent directory holding nothing. *)
Definition view (p : path) (f : Node) : Node :=
  match FS.lookup p f with Some sub => sub | None => Dir [] end.

(** The world seen from inside the directory [p]. *)
Definition focus (p : path) (w : World) : World := set_fs (view p (fs w)) w.

Definition blank (f : Node) : World :=
  {| fs := f; stdin := []; console := [] |}.


(** A computation that only reads and writes files: its result and the
    files it leaves depend on the files alone, and it leaves the console
    and the input as they are. *)
Definition files_only {A} (m : M A) : Prop :=
  forall w,
    m w = (fst (m (blank (fs w))), set_fs (fs (snd (m (blank (fs w))))) w).


(* ================================================================== *)
(** * Notions for what a computation leaves alone *)
(* ================================================================== *)

(** Whatever is found at [q] is the same before and after [m], whether
    [m] returns or raises. *)
Definition keeps (q : path) {A} (m : M A) : Prop :=
  forall w, FS.lookup q (fs (snd (m w))) = FS.lookup q (fs w).

(** [m] changes no file and reads no input. *)
Definition read_only {A} (m : M A) : Prop :=
  forall w, fs (snd (m w)) = fs w /\ stdin (snd (m w)) = stdin w.

(** What goes wrong first in an extraction, if anything: the archive
    cannot be read, it does not decode, or a member cannot be extracted. *)
Definition extraction_error (env : Env) (zip_path extract_to : path)
  (f : Node) : option string :=
  match FS.lookup zip_path f with
  | Some (File data) =>
      match read_zip env data with
      | Failed e => Some e
      | Done members =>
          match fst (Os.extractall extract_to members (blank f)) with
          | Raise (Exception e) => Some e
          | _ => None
          end
      end
  | Some (Dir _) => Some "Is a directory"
  | None => Some "No such file or directory"
  end.

(** The files an extraction leaves. *)
Definition extracted_files (env : Env) (zip_path extract_to : path)
  (f : Node) : Node :=
  match FS.lookup zip_path f with
  | Some (File data) =>
      match read_zip env data with
      | Done members => fs (snd (Os.extractall extract_to members (blank f)))
      | Failed _ => f
      end
  | _ => f
  end.

(** The channel a line typed at the version prompt selects, if any
    (lines 354-367). *)
Definition release_choice (line : string) : option string :=
  let version_choice := PyStr.strip line in
  if String.eqb version_choice "1" then Some "stable"
  else if String.eqb version_choice "2" then Some "beta"
  else if String.eqb version_choice "3" then Some "dev"
  else None.

(** How often [m] occurs in [l]. *)
Definition occurrences (m : string) (l : list string) : nat :=
  count_occ string_dec l m.

(** A release API whose list holds a beta release followed by an entry
    without a usable tag. *)
Definition env_null_tag : Env :=
  {| home := Sample.home_dir;
     cwd := Sample.home_dir ++ ["Downloads"];
     user_path := fun s => Sample.split_path s EmptyString;
     requests_get := fun _ =>
       Done (Sample.answer_json
               (JList [Sample.access_beta; JDict [("tag_name", JNull)]]));
     read_zip := Sample.archive None;
     xml_parse := Sample.parse;
     xml_tostring := Sample.tostring;
     py_str := fun v => match v with JStr s => s | _ => "?" end |}.

(** [s] between two quote characters [c]. *)
Definition quoted (c : ascii) (s : string) : string :=
  String c (s +++ String c EmptyString).

(** [s] neither starts nor ends with [c]. *)
Definition bare (c : ascii) (s : string) : bool :=
  (negb (PyStr.startswith (String c EmptyString) s)
   && negb (PyStr.endswith (String c EmptyString) s))%bool.

(** [s] has no quote character, double or single, at either end. *)
Definition unquoted (s : string) : bool :=
  (bare PyStr.dquote s && bare PyStr.squote s)%bool.

(** The byte counts the progress line goes through: one per non-empty
    chunk, each the number of bytes received so far (lines 59-61). *)
Fixpoint running_totals (pending : list bytes) (downloaded : Z) : list Z :=
  match pending with
  | [] => []
  | chunk :: rest =>
      match chunk with
      | [] => running_totals rest downloaded
      | _ :: _ =>
          (downloaded + Z.of_nat (length chunk))
          :: running_totals rest (downloaded + Z.of_nat (length chunk))
      end
  end.

(** The size the server declares: [content-length], or 0 without it. *)
Definition declared_size (response : Response) : Z :=
  match content_length response with
  | Some (Done n) => n
  | _ => 0
  end.

(** The progress lines of a download. *)
Definition progress_lines (total : Z) (pending : list bytes) : list Output :=
  if 0 <? total
  then map (fun d => OutProgress d total) (running_totals pending 0)
  else [].


(* ================================================================== *)
(** * Reasoning about the monad *)
(* ================================================================== *)

Lemma bind_ok {A B} (m : M A) (k : A -> M B) w a w1 :
  m w = (Ok a, w1) -> bind m k w = k a w1.
Proof. intros H. unfold bind. rewrite H. reflexivity. Qed.

Lemma bind_raise {A B} (m : M A) (k : A -> M B) w e w1 :
  m w = (Raise e, w1) -> bind m k w = (Raise e, w1).
Proof. intros H. unfold bind. rewrite H. reflexivity. Qed.

Lemma bind_inv {A B} (m : M A) (k : A -> M B) w r w' :
  bind m k w = (r, w') ->
  (exists e, m w = (Raise e, w') /\ r = Raise e) \/
  (exists a w1, m w = (Ok a, w1) /\ k a w1 = (r, w')).
Proof.
  unfold bind. destruct (m w) as [[a | e] w1]; intros H.
  - right. exists a, w1. split; [reflexivity | exact H].
  - left. exists e. inversion H; subst. split; reflexivity.
Qed.

Lemma bind_inv_ok {A B} (m : M A) (k : A -> M B) w b w' :
  bind m k w = (Ok b, w') ->
  exists a w1, m w = (Ok a, w1) /\ k a w1 = (Ok b, w').
Proof.
  intros H. apply bind_inv in H. destruct H as [[e [_ H]] | H].
  - discriminate H.
  - exact H.
Qed.

Create HintDb calm.

Lemma calm_ret {A} (a : A) : uninterrupted (ret a).
Proof. intros w. discriminate. Qed.

Lemma calm_fail {A} msg : uninterrupted (@Os.fail A msg).
Proof. intros w. discriminate. Qed.

Lemma calm_lift {A} (o : outcome A) : uninterrupted (lift o).
Proof. destruct o; intros w; discriminate. Qed.

Lemma calm_print s : uninterrupted (print s).
Proof. intros w. discriminate. Qed.

Lemma calm_print_progress a b : uninterrupted (print_progress a b).
Proof. intros w. discriminate. Qed.

Lemma calm_bind {A B} (m : M A) (k : A -> M B) :
  uninterrupted m -> (forall a, uninterrupted (k a)) ->
  uninterrupted (bind m k).
Proof.
  intros Hm Hk w. unfold bind. specialize (Hm w).
  destruct (m w) as [[a | e] w1]; simpl in *.
  - apply Hk.
  - intros E. apply Hm. inversion E. reflexivity.
Qed.

Lemma calm_try {A} (body : M A) (handler : string -> M A) :
  uninterrupted body -> (forall e, uninterrupted (handler e)) ->
  uninterrupted (try_except body handler).
Proof.
  intros Hb Hh w. unfold try_except. specialize (Hb w).
  destruct (body w) as [[a | [msg |]] w1]; simpl in *.
  - discriminate.
  - apply Hh.
  - exact Hb.
Qed.

Lemma calm_if {A} (b : bool) (m1 m2 : M A) :
  uninterrupted m1 -> uninterrupted m2 ->
  uninterrupted (if b then m1 else m2).
Proof. destruct b; auto. Qed.

Lemma calm_commit o err : uninterrupted (Os.commit o err).
Proof. intros w. unfold Os.commit. destruct o; discriminate. Qed.

#[export] Hint Resolve calm_ret calm_fail calm_lift calm_print
  calm_print_progress calm_commit : calm.
#[export] Hint Extern 2 (uninterrupted (bind _ _)) =>
  apply calm_bind; [ | intros ? ] : calm.
#[export] Hint Extern 2 (uninterrupted (try_except _ _)) =>
  apply calm_try; [ | intros ? ] : calm.
#[export] Hint Extern 3 (uninterrupted (if _ then _ else _)) =>
  apply calm_if : calm.
#[export] Hint Extern 3 (uninterrupted (match ?x with _ => _ end)) =>
  destruct x : calm.

(** The file system calls: each looks the path up and then returns, fails
    or commits. *)
Ltac calm_os :=
  let w := fresh "w" in
  intros w; cbv beta zeta delta [Os.exists_ Os.is_dir Os.mkdir Os.mkdir_exist_ok
    Os.makedirs Os.open_wb Os.append Os.read Os.unlink_missing_ok Os.rmtree
    Os.rmtree_ignore_errors Os.iterdir Os.move Os.copy2 Os.commit Os.fail
    raise];
  repeat match goal with
         | |- context [match ?x with _ => _ end] => destruct x
         | |- context [if ?x then _ else _] => destruct x
         end; simpl; discriminate.

Lemma calm_exists p : uninterrupted (Os.exists_ p).
Proof. calm_os. Qed.
Lemma calm_is_dir p : uninterrupted (Os.is_dir p).
Proof. calm_os. Qed.
Lemma calm_mkdir p : uninterrupted (Os.mkdir p).
Proof. calm_os. Qed.
Lemma calm_mkdir_exist_ok p : uninterrupted (Os.mkdir_exist_ok p).
Proof. calm_os. Qed.
Lemma calm_makedirs p : uninterrupted (Os.makedirs p).
Proof. calm_os. Qed.
Lemma calm_open_wb p : uninterrupted (Os.open_wb p).
Proof. calm_os. Qed.
Lemma calm_append p d : uninterrupted (Os.append p d).
Proof. calm_os. Qed.
Lemma calm_read p : uninterrupted (Os.read p).
Proof. calm_os. Qed.
Lemma calm_unlink p : uninterrupted (Os.unlink_missing_ok p).
Proof. calm_os. Qed.
Lemma calm_rmtree p : uninterrupted (Os.rmtree p).
Proof. calm_os. Qed.
Lemma calm_rmtree_ignore p : uninterrupted (Os.rmtree_ignore_errors p).
Proof. calm_os. Qed.
Lemma calm_iterdir p : uninterrupted (Os.iterdir p).
Proof. calm_os. Qed.
Lemma calm_move p q : uninterrupted (Os.move p q).
Proof. calm_os. Qed.
Lemma calm_copy2 p q : uninterrupted (Os.copy2 p q).
Proof. calm_os. Qed.

#[export] Hint Resolve calm_exists calm_is_dir calm_mkdir calm_mkdir_exist_ok
  calm_makedirs calm_open_wb calm_append calm_read calm_unlink calm_rmtree
  calm_rmtree_ignore calm_iterdir calm_move calm_copy2 : calm.

Lemma calm_extract_member p m : uninterrupted (Os.extract_member p m).
Proof. unfold Os.extract_member. auto 10 with calm. Qed.
#[export] Hint Resolve calm_extract_member : calm.

Lemma calm_extractall p ms : uninterrupted (Os.extractall p ms).
Proof. induction ms; simpl; auto with calm. Qed.
#[export] Hint Resolve calm_extractall : calm.

(** An uninterrupted computation under [except Exception] always returns. *)
Lemma try_except_returns {A} (body : M A) (handler : string -> M A) :
  uninterrupted body ->
  (forall e w, exists a w', handler e w = (Ok a, w')) ->
  forall w, exists a w', try_except body handler w = (Ok a, w').
Proof.
  intros Hb Hh w. unfold try_except. specialize (Hb w).
  destruct (body w) as [[a | [msg |]] w1]; simpl in *.
  - eauto.
  - apply Hh.
  - congruence.
Qed.

(* ================================================================== *)
(** * Facts about the file system *)
(* ================================================================== *)

Module FSFacts.
Import FS.

Lemma eqb_sym_false a b : a <> b -> String.eqb b a = false.
Proof. intros H. apply String.eqb_neq. congruence. Qed.

Lemma entry_set_same name n es : entry name (set_entry name n es) = Some n.
Proof.
  induction es as [| [k m] es IH]; simpl.
  - rewrite String.eqb_refl. reflexivity.
  - destruct (String.eqb name k) eqn:E; simpl; rewrite E; auto.
Qed.

Lemma entry_set_other a b n es :
  a <> b -> entry b (set_entry a n es) = entry b es.
Proof.
  intros Hab. induction es as [| [k m] es IH]; simpl.
  - rewrite (eqb_sym_false a b Hab). reflexivity.
  - destruct (String.eqb a k) eqn:E; simpl.
    + apply String.eqb_eq in E. subst k.
      rewrite (eqb_sym_false a b Hab). reflexivity.
    + rewrite IH. reflexivity.
Qed.

Lemma entry_del_same name es : entry name (del_entry name es) = None.
Proof.
  unfold del_entry. induction es as [| [k m] es IH]; simpl; auto.
  destruct (String.eqb name k) eqn:E; simpl; auto. rewrite E. exact IH.
Qed.

Lemma entry_del_other a b es :
  a <> b -> entry b (del_entry a es) = entry b es.
Proof.
  intros Hab. unfold del_entry.
  induction es as [| [k m] es IH]; simpl; auto.
  destruct (String.eqb a k) eqn:E; simpl.
  - apply String.eqb_eq in E. subst k.
    rewrite (eqb_sym_false a b Hab). exact IH.
  - rewrite IH. reflexivity.
Qed.

Lemma lookup_app p q fs :
  lookup (p ++ q) fs =
  match lookup p fs with Some n => lookup q n | None => None end.
Proof.
  revert fs. induction p as [| c p IH]; intros fs; simpl; auto.
  destruct fs as [d | es]; auto.
  destruct (entry c es); auto.
Qed.

Lemma lookup_put_same p n fs fs' :
  put p n fs = Some fs' -> lookup p fs' = Some n.
Proof.
  revert fs fs'. induction p as [| c p IH]; intros fs fs' H; simpl in *.
  - congruence.
  - destruct fs as [d | es]; [discriminate |].
    destruct p as [| c' p'].
    + inversion H; subst. simpl. rewrite entry_set_same. reflexivity.
    + destruct (entry c es) as [sub |]; [| discriminate].
      destruct (put (c' :: p') n sub) as [sub' |] eqn:E; [| discriminate].
      inversion H; subst. cbn [lookup]. rewrite entry_set_same.
      exact (IH _ _ E).
Qed.

Lemma lookup_put_below p q n fs fs' :
  put p n fs = Some fs' -> lookup (p ++ q) fs' = lookup q n.
Proof.
  intros H. rewrite lookup_app, (lookup_put_same _ _ _ _ H). reflexivity.
Qed.

Lemma lookup_put_apart p q n fs fs' :
  apart p q = true -> put p n fs = Some fs' -> lookup q fs' = lookup q fs.
Proof.
  revert q fs fs'. induction p as [| c p IH]; intros q fs fs' Ha H.
  - discriminate Ha.
  - destruct q as [| b q]; [discriminate Ha |].
    simpl in Ha. simpl in H.
    destruct fs as [d | es]; [discriminate |].
    destruct (String.eqb c b) eqn:Ecb.
    + apply String.eqb_eq in Ecb. subst b.
      destruct p as [| c' p']; [discriminate Ha |].
      destruct (entry c es) as [sub |] eqn:Ee; [| discriminate].
      destruct (put (c' :: p') n sub) as [sub' |] eqn:E; [| discriminate].
      inversion H; subst. cbn [lookup].
      rewrite entry_set_same, Ee. exact (IH _ _ _ Ha E).
    + apply String.eqb_neq in Ecb.
      assert (Hent : forall x, entry b (set_entry c x es) = entry b es)
        by (intros x; apply entry_set_other; exact Ecb).
      destruct p as [| c' p'].
      * inversion H; subst. cbn [lookup]. rewrite Hent. reflexivity.
      * destruct (entry c es) as [sub |]; [| discriminate].
        destruct (put (c' :: p') n sub) as [sub' |]; [| discriminate].
        inversion H; subst. cbn [lookup]. rewrite Hent. reflexivity.
Qed.

Lemma lookup_remove_apart p q fs :
  apart p q = true -> lookup q (remove p fs) = lookup q fs.
Proof.
  revert q fs. induction p as [| c p IH]; intros q fs Ha.
  - discriminate Ha.
  - destruct q as [| b q]; [discriminate Ha |].
    simpl in Ha. simpl.
    destruct fs as [d | es]; [reflexivity |].
    destruct (String.eqb c b) eqn:Ecb.
    + apply String.eqb_eq in Ecb. subst b.
      destruct p as [| c' p']; [discriminate Ha |].
      destruct (entry c es) as [sub |] eqn:Ee;
        [| cbn [lookup]; rewrite ?Ee; reflexivity].
      cbn [lookup]. rewrite entry_set_same. apply IH. exact Ha.
    + apply String.eqb_neq in Ecb.
      destruct p as [| c' p'].
      * cbn [lookup]. rewrite entry_del_other by exact Ecb. reflexivity.
      * destruct (entry c es) as [sub |]; [| reflexivity].
        cbn [lookup]. rewrite entry_set_other by exact Ecb. reflexivity.
Qed.

Lemma lookup_remove_cons c p fs :
  lookup (c :: p) (remove (c :: p) fs) = None.
Proof.
  revert c fs. induction p as [| c' p IH]; intros c fs.
  - simpl. destruct fs as [d | es]; [reflexivity |].
    cbn [lookup]. rewrite entry_del_same. reflexivity.
  - cbn [remove]. destruct fs as [d | es]; [reflexivity |].
    destruct (entry c es) as [sub |] eqn:Ee.
    + cbn [lookup]. rewrite entry_set_same. apply IH.
    + cbn [lookup]. rewrite Ee. reflexivity.
Qed.

Lemma lookup_remove_same p fs : p <> [] -> lookup p (remove p fs) = None.
Proof.
  destruct p as [| c p]; [congruence |]. intros _. apply lookup_remove_cons.
Qed.

(** Below a removed path nothing is left. *)
Lemma lookup_remove_below p q fs :
  p <> [] -> lookup (p ++ q) (remove p fs) = None.
Proof. intros H. rewrite lookup_app, lookup_remove_same; auto. Qed.

(** Writing where something exists, or next to something that exists,
    succeeds. *)
Lemma put_sibling d a b n m fs :
  lookup (d ++ [a]) fs = Some m -> exists fs', put (d ++ [b]) n fs = Some fs'.
Proof.
  revert fs. induction d as [| c d IH]; intros fs H; simpl in *.
  - destruct fs as [x | es]; [discriminate |]. eauto.
  - destruct fs as [x | es]; [discriminate |].
    destruct (entry c es) as [sub |]; [| discriminate].
    destruct (IH _ H) as [sub' E]. rewrite E.
    destruct (d ++ [b]) eqn:Ed.
    + destruct d; discriminate.
    + eauto.
Qed.

Lemma put_exists p n m fs :
  lookup p fs = Some m -> exists fs', put p n fs = Some fs'.
Proof.
  destruct p as [| c p].
  - simpl. eauto.
  - destruct (@exists_last _ (c :: p)) as [d [a E]]; [discriminate |].
    rewrite E. apply put_sibling.
Qed.

Lemma apart_sym p q : apart p q = apart q p.
Proof.
  revert q. induction p as [| a p IH]; intros [| b q]; simpl; auto.
  rewrite String.eqb_sym. destruct (String.eqb b a); auto.
Qed.

Lemma apart_app p q x y : apart p q = true -> apart (p ++ x) (q ++ y) = true.
Proof.
  revert q. induction p as [| a p IH]; intros [| b q] H; simpl in *;
    try discriminate.
  destruct (String.eqb a b); auto.
Qed.

Lemma apart_siblings d a b :
  a <> b -> apart (d ++ [a]) (d ++ [b]) = true.
Proof.
  intros Hab. induction d as [| c d IH]; simpl.
  - apply String.eqb_neq in Hab. rewrite Hab. reflexivity.
  - rewrite String.eqb_refl. exact IH.
Qed.

Lemma name_snoc p c : name (p ++ [c]) = c.
Proof. unfold name. apply last_last. Qed.

(** Below a directory, the file system behaves like the directory. *)
Lemma view_empty p : view p (Dir []) = Dir [].
Proof. unfold view. destruct p; reflexivity. Qed.





(** [apart] says what its name says. *)
Lemma apart_iff p q :
  apart p q = true <-> is_prefix p q = false /\ is_prefix q p = false.
Proof.
  revert q. induction p as [| a p IH]; intros [| b q]; simpl;
    try (split; [discriminate | intros [H1 H2]; discriminate]).
  rewrite (String.eqb_sym b a). destruct (String.eqb a b); simpl.
  - apply IH.
  - split; auto.
Qed.

End FSFacts.

(* ================================================================== *)
(** * Facts about strings *)
(* ================================================================== *)

Module PyStrFacts.
Import PyStr.

Lemma lower_app a b : lower (a +++ b) = lower a +++ lower b.
Proof. induction a as [| c a IH]; simpl; [| rewrite IH]; reflexivity. Qed.

Lemma startswith_iff p s :
  startswith p s = true <-> exists rest, s = p +++ rest.
Proof.
  revert s. induction p as [| a p IH]; intros s; simpl.
  - split; [intros _; exists s; reflexivity | reflexivity].
  - destruct s as [| b s].
    + split; [discriminate | intros [rest H]; discriminate].
    + rewrite andb_true_iff, Ascii.eqb_eq, IH. split.
      * intros [-> [rest ->]]. exists rest. reflexivity.
      * intros [rest H]. inversion H; subst. split; [reflexivity |].
        exists rest. reflexivity.
Qed.

Lemma contains_iff sub s :
  contains sub s = true <-> exists before after, s = before +++ sub +++ after.
Proof.
  induction s as [| c s IH]; simpl.
  - rewrite startswith_iff. split.
    + intros [rest H]. exists EmptyString, rest. exact H.
    + intros [[| b before] [after H]]; [exists after; exact H | discriminate].
  - rewrite orb_true_iff, startswith_iff, IH. split.
    + intros [[rest H] | [before [after H]]].
      * exists EmptyString, rest. exact H.
      * exists (String c before), after. simpl. rewrite H. reflexivity.
    + intros [[| b before] [after H]].
      * left. exists after. exact H.
      * right. simpl in H. inversion H; subst.
        exists before, after. reflexivity.
Qed.

(** [lower] works character by character, so a split of the lowered
    string is the lowered split of the string. *)
Lemma lower_split t a b :
  lower t = a +++ b ->
  exists t1 t2, t = t1 +++ t2 /\ lower t1 = a /\ lower t2 = b.
Proof.
  revert t. induction a as [| c a IH]; intros t H; simpl in H.
  - exists EmptyString, t. auto.
  - destruct t as [| d t]; simpl in H; [discriminate |].
    inversion H as [[Hc Hrest]].
    destruct (IH t Hrest) as (t1 & t2 & -> & H1 & H2).
    exists (String d t1), t2. simpl. rewrite H1. auto.
Qed.

End PyStrFacts.

(* ================================================================== *)
(** * The downloader *)
(* ================================================================== *)

Lemma print_inv s w r w' :
  print s w = (r, w') -> r = Ok tt /\ w' = emit (Out s) w.
Proof. unfold print. intros H. inversion H. auto. Qed.

Lemma calm_http_get env url : uninterrupted (http_get env url).
Proof. unfold http_get. destruct url; auto with calm. Qed.

Lemma calm_raise_for_status r : uninterrupted (raise_for_status r).
Proof. unfold raise_for_status. auto with calm. Qed.

Lemma calm_total_size_of r : uninterrupted (total_size_of r).
Proof. unfold total_size_of. auto with calm. Qed.

#[export] Hint Resolve calm_http_get calm_raise_for_status
  calm_total_size_of : calm.

Lemma calm_write_chunks dest total pending downloaded :
  uninterrupted (write_chunks dest total pending downloaded).
Proof.
  revert downloaded. induction pending as [| chunk rest IH]; intros d; simpl.
  - auto with calm.
  - destruct chunk; auto 8 with calm.
Qed.
#[export] Hint Resolve calm_write_chunks : calm.

Lemma calm_download_file env url dest :
  uninterrupted (download_file env url dest).
Proof. unfold download_file. auto 12 with calm. Qed.
#[export] Hint Resolve calm_download_file : calm.

(** The chunk loop cannot fail on a file that is open, and appends every
    chunk in order; it touches nothing but the file system and the
    console. *)
Lemma write_chunks_spec dest total pending :
  forall downloaded w old,
    FS.lookup dest (fs w) = Some (File old) ->
    exists w',
      write_chunks dest total pending downloaded w = (Ok tt, w') /\
      FS.lookup dest (fs w') = Some (File (old ++ concat pending)).
Proof.
  induction pending as [| chunk rest IH]; intros d w old Hold; simpl.
  - exists w. rewrite app_nil_r. auto.
  - destruct chunk as [| b chunk].
    + simpl. apply IH. exact Hold.
    + destruct (FSFacts.put_exists dest (File (old ++ b :: chunk)) _ _ Hold)
        as [fs1 Hput].
      assert (Happ : Os.append dest (b :: chunk) w = (Ok tt, set_fs fs1 w)).
      { unfold Os.append. rewrite Hold. unfold Os.commit. rewrite Hput.
        reflexivity. }
      rewrite (bind_ok _ _ _ _ _ Happ).
      set (k := if 0 <? total then _ else _).
      assert (Hk : exists w2, k (set_fs fs1 w) = (Ok tt, w2) /\ fs w2 = fs1).
      { subst k. destruct (0 <? total); eexists; split; reflexivity. }
      destruct Hk as (w2 & Hk & Hfs).
      rewrite (bind_ok _ _ _ _ _ Hk).
      destruct (IH (d + Z.of_nat (length (b :: chunk))) w2 (old ++ b :: chunk))
        as (w' & Hrun & Hlook).
      { rewrite Hfs. apply (FSFacts.lookup_put_same _ _ _ _ Hput). }
      exists w'. split; [exact Hrun |].
      rewrite Hlook. rewrite <- app_assoc. reflexivity.
Qed.

Lemma last_line_emit w s : last_line (emit (Out s) w) s.
Proof. exists (console w). reflexivity. Qed.

Lemma open_wb_dir p w :
  FS.is_dir p (fs w) = true ->
  Os.open_wb p w = (Raise (Exception "Is a directory"), w).
Proof.
  unfold Os.open_wb, FS.is_dir.
  destruct (FS.lookup p (fs w)) as [[d | es] |]; try discriminate.
  reflexivity.
Qed.

Lemma open_wb_ok p w fs1 :
  FS.is_dir p (fs w) = false ->
  FS.put p (File []) (fs w) = Some fs1 ->
  Os.open_wb p w = (Ok tt, set_fs fs1 w).
Proof.
  unfold Os.open_wb, FS.is_dir, Os.commit. intros Hd Hput.
  destruct (FS.lookup p (fs w)) as [[d | es] |]; try discriminate;
    rewrite Hput; reflexivity.
Qed.

Lemma open_wb_orphan p w :
  FS.is_dir p (fs w) = false ->
  FS.put p (File []) (fs w) = None ->
  Os.open_wb p w = (Raise (Exception "No such file or directory"), w).
Proof.
  unfold Os.open_wb, FS.is_dir, Os.commit. intros Hd Hput.
  destruct (FS.lookup p (fs w)) as [[d | es] |]; try discriminate;
    rewrite Hput; reflexivity.
Qed.

(** C8.  [download_file] never lets an exception out: for every URL,
    destination and state of the world it returns a flag, [True] exactly
    when the download completes (the destination then holds the bytes
    received) and [False], after printing the cause, on any network or file
    system error. *)
Theorem download_file_contained env url destination w :
  exists w',
    download_file env url destination w
      = (Ok (download_completes env url destination (fs w)), w') /\
    match download_error env url destination (fs w) with
    | None =>
        FS.lookup destination (fs w') = Some (File (body_of env url)) /\
        last_line w' (PyStr.nl +++ "Download complete!")
    | Some cause =>
        last_line w' (PyStr.nl +++ "Error downloading file: " +++ cause)
    end.
Proof.
  unfold download_file, download_completes, download_error, body_of,
    try_except.
  set (w0 := emit (Out ("Downloading from " +++ py_str env url +++ "...")) w).
  rewrite (bind_ok _ _ w tt w0) by reflexivity.
  assert (failing : forall cause w1,
    exists w', (print (PyStr.nl +++ "Error downloading file: " +++ cause);;
                ret false) w1 = (Ok false, w') /\
               last_line w' (PyStr.nl +++ "Error downloading file: " +++ cause)).
  { intros cause w1. eexists. split; [reflexivity |]. apply last_line_emit. }
  destruct url as [| b | n | u | l | d];
    try (cbn [http_get]; rewrite (bind_raise _ _ w0 _ w0) by reflexivity;
         apply failing).
  cbn [http_get].
  destruct (requests_get env u) as [response | e];
    [| cbn [lift]; rewrite (bind_raise _ _ w0 _ w0) by reflexivity;
       apply failing].
  rewrite (bind_ok _ _ w0 response w0) by reflexivity.
  unfold raise_for_status.
  destruct (status_error response) as [e |];
    [rewrite (bind_raise _ _ w0 _ w0) by reflexivity; apply failing |].
  rewrite (bind_ok _ _ w0 tt w0) by reflexivity.
  unfold total_size_of.
  destruct (content_length response) as [[total | e] |];
    [ rewrite (bind_ok _ _ w0 total w0) by reflexivity
    | cbn [lift]; rewrite (bind_raise _ _ w0 _ w0) by reflexivity;
      apply failing
    | rewrite (bind_ok _ _ w0 0 w0) by reflexivity ].
  all: destruct (FS.is_dir destination (fs w)) eqn:Hdir;
    [ rewrite (bind_raise _ _ w0 _ w0) by (apply open_wb_dir; exact Hdir);
      apply failing | ].
  all: destruct (FS.put destination (File []) (fs w)) as [fs1 |] eqn:Hput;
    cbn [is_none];
    [ | rewrite (bind_raise _ _ w0 _ w0)
          by (apply open_wb_orphan; assumption);
        apply failing ].
  all: rewrite (bind_ok _ _ w0 tt (set_fs fs1 w0))
    by (apply open_wb_ok; assumption).
  all: match goal with
       | |- context [write_chunks ?d ?t ?p ?n] =>
           destruct (write_chunks_spec d t p n (set_fs fs1 w0) [])
             as (w2 & Hrun & Hlook);
             [apply (FSFacts.lookup_put_same _ _ _ _ Hput) |];
             rewrite (bind_ok _ _ _ _ _ Hrun)
       end.
  all: destruct (stream_error response) as [e |];
    [ apply failing
    | eexists; split; [reflexivity |]; split;
      [ exact Hlook | apply last_line_emit ] ].
Qed.

(* ================================================================== *)
(** * The release fetcher *)
(* ================================================================== *)

Lemma api_call_run {A} env url (k : json -> M A) w :
  (response <- http_get env (JStr url);;
   raise_for_status response;;
   body <- lift (json_body response);;
   k body) w
  = match api_call env url with
    | Done body => k body w
    | Failed e => (Raise (Exception e), w)
    end.
Proof.
  unfold api_call, bind, http_get, raise_for_status.
  destruct (requests_get env url) as [response | e]; simpl; [| reflexivity].
  destruct (status_error response); simpl; [reflexivity |].
  destruct (json_body response); reflexivity.
Qed.

Lemma calm_select_release env repo release_type :
  uninterrupted (select_release env repo release_type).
Proof.
  unfold select_release.
  repeat (apply calm_if || (apply calm_bind; [| intros ?])
          || match goal with
             | |- uninterrupted (match ?x with _ => _ end) => destruct x
             end
          || solve [auto with calm]).
Qed.

Lemma calm_first_zip env r assets : uninterrupted (first_zip env r assets).
Proof.
  induction assets as [| a rest IH]; simpl.
  - auto with calm.
  - repeat (apply calm_if || (apply calm_bind; [| intros ?])
            || solve [auto with calm]).
Qed.

Lemma calm_find_zip_asset env repo r : uninterrupted (find_zip_asset env repo r).
Proof.
  unfold find_zip_asset.
  repeat ((apply calm_bind; [| intros ?])
          || apply calm_first_zip
          || match goal with
             | |- uninterrupted (match ?x with _ => _ end) => destruct x
             end
          || solve [auto with calm]).
Qed.

Lemma calm_get_latest env repo release_type :
  uninterrupted (get_latest_github_release env repo release_type).
Proof.
  unfold get_latest_github_release.
  apply calm_try; [| intros ?; auto with calm].
  apply calm_bind; [apply calm_select_release |].
  intros [r |]; [apply calm_find_zip_asset | auto with calm].
Qed.
#[export] Hint Resolve calm_select_release calm_first_zip
  calm_find_zip_asset calm_get_latest : calm.

(** The fetcher always returns: every exception ends in the handler of
    line 136. *)
Lemma get_latest_returns env repo release_type w :
  exists v w', get_latest_github_release env repo release_type w = (Ok v, w').
Proof.
  unfold get_latest_github_release. apply try_except_returns.
  - apply calm_bind; [apply calm_select_release |].
    intros [r |]; [apply calm_find_zip_asset | auto with calm].
  - intros e w0. eexists. eexists. reflexivity.
Qed.

(** The beta test holds exactly when some part of the tag reads [-beta]
    once its letters are lowered. *)
Lemma beta_tag_iff t :
  beta_tag t = true <->
  exists before marker after,
    t = before +++ marker +++ after /\ PyStr.lower marker = "-beta".
Proof.
  unfold beta_tag. rewrite PyStrFacts.contains_iff. split.
  - intros (a & b & H).
    destruct (PyStrFacts.lower_split _ _ _ H) as (t1 & t2 & -> & _ & H2).
    destruct (PyStrFacts.lower_split _ _ _ H2) as (m & t3 & -> & Hm & _).
    exists t1, m, t3. auto.
  - intros (a & m & b & -> & Hm).
    exists (PyStr.lower a), (PyStr.lower b).
    rewrite !PyStrFacts.lower_app, Hm. reflexivity.
Qed.

(** The dev test holds exactly when the tag and [dev] are the same word
    once their letters are lowered. *)
Lemma dev_tag_iff t :
  dev_tag t = true <-> PyStr.lower t = PyStr.lower "dev".
Proof. unfold dev_tag. rewrite String.eqb_eq. reflexivity. Qed.

Lemma is_beta_tag r t : tag_of r = Some t -> is_beta r = Done (beta_tag t).
Proof.
  unfold tag_of, is_beta, Py.get. destruct r as [| | | | | d]; try discriminate.
  destruct (Py.dict_get "tag_name" d) as [[| | | s | |] |];
    intros H; inversion H; subst; reflexivity.
Qed.

Lemma is_dev_tag r t : tag_of r = Some t -> is_dev r = Done (dev_tag t).
Proof.
  unfold tag_of, is_dev, Py.get. destruct r as [| | | | | d]; try discriminate.
  destruct (Py.dict_get "tag_name" d) as [[| | | s | |] |];
    intros H; inversion H; subst; reflexivity.
Qed.

Lemma comprehension_filter test keep items :
  (forall r, In r items -> test r = Done (keep r)) ->
  Py.comprehension test items = Done (filter keep items).
Proof.
  induction items as [| r rest IH]; intros H; simpl.
  - reflexivity.
  - rewrite (H r (or_introl eq_refl)).
    rewrite IH by (intros x Hx; apply H; right; exact Hx).
    reflexivity.
Qed.

Lemma head_filter_find {A} (f : A -> bool) l :
  match filter f l with [] => None | x :: _ => Some x end = find f l.
Proof.
  induction l as [| a l IH]; simpl; auto. destruct (f a); auto.
Qed.

Lemma tagged_comprehension test keep releases :
  (forall r t, tag_of r = Some t -> test r = Done (keep t)) ->
  forallb (fun r => is_some (tag_of r)) releases = true ->
  Py.comprehension test releases = Done (filter (has_tag keep) releases).
Proof.
  intros Htest Hwf. apply comprehension_filter. intros r Hr.
  rewrite forallb_forall in Hwf. specialize (Hwf r Hr).
  unfold has_tag. destruct (tag_of r) as [t |] eqn:Et; [| discriminate].
  exact (Htest r t Et).
Qed.

(** Lines 95-123 on a well-formed list of releases: the first release
    whose tag passes the test of the channel, and a line on the console
    when there is none. *)
Lemma select_release_filtered env repo releases w :
  api_call env (list_url repo) = Done (JList releases) ->
  forallb (fun r => is_some (tag_of r)) releases = true ->
  (exists w1, select_release env repo "beta" w
              = (Ok (find (has_tag beta_tag) releases), w1) /\ fs w1 = fs w) /\
  (exists w1, select_release env repo "dev" w
              = (Ok (find (has_tag dev_tag) releases), w1) /\ fs w1 = fs w).
Proof.
  intros Hcall Hwf.
  pose proof (tagged_comprehension is_beta beta_tag releases is_beta_tag Hwf)
    as Hbeta.
  pose proof (tagged_comprehension is_dev dev_tag releases is_dev_tag Hwf)
    as Hdev.
  split; unfold select_release; cbn [String.eqb Ascii.eqb Bool.eqb];
    unfold api; fold (list_url repo); rewrite api_call_run, Hcall.
  - destruct releases as [| r0 rest].
    + eexists. split; reflexivity.
    + cbn [Py.truthy negb Py.iter lift].
      rewrite (bind_ok _ _ w (r0 :: rest) w) by reflexivity.
      rewrite Hbeta. cbn [lift].
      rewrite (bind_ok _ _ w _ w) by reflexivity.
      rewrite <- head_filter_find.
      destruct (filter (has_tag beta_tag) (r0 :: rest));
        eexists; split; reflexivity.
  - destruct releases as [| r0 rest].
    + eexists. split; reflexivity.
    + cbn [Py.truthy negb Py.iter lift].
      rewrite (bind_ok _ _ w (r0 :: rest) w) by reflexivity.
      rewrite Hdev. cbn [lift].
      rewrite (bind_ok _ _ w _ w) by reflexivity.
      rewrite <- head_filter_find.
      destruct (filter (has_tag dev_tag) (r0 :: rest));
        eexists; split; reflexivity.
Qed.

(** [get_latest_github_release] once the release is selected. *)
Lemma get_latest_after_selection env repo release_type w selected w1 :
  select_release env repo release_type w = (Ok selected, w1) ->
  get_latest_github_release env repo release_type w
  = match selected with
    | Some r => try_except (find_zip_asset env repo r) fetch_failed w1
    | None => (Ok JNull, w1)
    end.
Proof.
  intros H. unfold get_latest_github_release, try_except.
  rewrite (bind_ok _ _ _ _ _ H). destruct selected; reflexivity.
Qed.

(** C4.  On every list of releases (each a dictionary whose tag, when
    present, is a string), channel [beta] selects the first release in the
    given order whose tag contains [-beta] whatever the case of its
    letters, and channel [dev] the first whose tag is [dev] whatever the
    case; the function then looks for the archive in that release, and
    returns [None] when no release is selected. *)
Theorem channel_selects_first_match env repo releases w :
  api_call env (list_url repo) = Done (JList releases) ->
  forallb (fun r => is_some (tag_of r)) releases = true ->
  (exists w1,
      select_release env repo "beta" w
      = (Ok (find (has_tag beta_tag) releases), w1) /\
      get_latest_github_release env repo "beta" w
      = match find (has_tag beta_tag) releases with
        | Some r => try_except (find_zip_asset env repo r) fetch_failed w1
        | None => (Ok JNull, w1)
        end) /\
  (exists w1,
      select_release env repo "dev" w
      = (Ok (find (has_tag dev_tag) releases), w1) /\
      get_latest_github_release env repo "dev" w
      = match find (has_tag dev_tag) releases with
        | Some r => try_except (find_zip_asset env repo r) fetch_failed w1
        | None => (Ok JNull, w1)
        end).
Proof.
  intros Hcall Hwf.
  destruct (select_release_filtered env repo releases w Hcall Hwf)
    as [(wb & Hb & _) (wd & Hd & _)].
  split.
  - exists wb. split; [exact Hb |].
    apply (get_latest_after_selection _ _ _ _ _ _ Hb).
  - exists wd. split; [exact Hd |].
    apply (get_latest_after_selection _ _ _ _ _ _ Hd).
Qed.

Lemma asset_ok_name a :
  asset_ok a = true ->
  exists d n u, a = JDict d /\ Py.dict_get "name" d = Some (JStr n) /\
                Py.dict_get "browser_download_url" d = Some u.
Proof.
  unfold asset_ok, asset_name, asset_url, is_some, is_none.
  destruct a as [| | | | | d]; try discriminate.
  destruct (Py.dict_get "name" d) as [[| | | n | |] |] eqn:En;
    try discriminate.
  destruct (Py.dict_get "browser_download_url" d) as [u |] eqn:Eu;
    try discriminate.
  intros _. exists d, n, u. auto.
Qed.

(** The asset loop on well-formed assets. *)
Lemma first_zip_spec env d assets w :
  forallb asset_ok assets = true ->
  first_zip env (JDict d) assets w
  = match find is_zip assets with
    | Some a => (Ok (asset_url a), say (found_line env (JDict d)) w)
    | None => (Ok None, w)
    end.
Proof.
  induction assets as [| a rest IH]; intros Hok; simpl.
  - reflexivity.
  - simpl in Hok. apply andb_true_iff in Hok. destruct Hok as [Ha Hrest].
    destruct (asset_ok_name a Ha) as (da & n & u & -> & Hn & Hu).
    unfold is_zip, asset_name, asset_url. rewrite Hn.
    unfold Py.getitem at 1. rewrite Hn. cbn [lift].
    rewrite (bind_ok _ _ w (JStr n) w) by reflexivity.
    cbn [Py.endswith lift].
    rewrite (bind_ok _ _ w _ w) by reflexivity.
    destruct (PyStr.endswith ".zip" n).
    + cbn [Py.get Py.getitem lift]. rewrite Hu. reflexivity.
    + rewrite (IH Hrest). reflexivity.
Qed.

(** Lines 128-135 on a well-formed release. *)
Lemma find_zip_asset_spec env repo r assets w :
  assets_of r = Some assets ->
  forallb asset_ok assets = true ->
  find_zip_asset env repo r w
  = (Ok (first_zip_url assets),
     match find is_zip assets with
     | Some _ => say (found_line env r) w
     | None => say ("No zip file found in latest release for " +++ repo) w
     end).
Proof.
  intros Hassets Hok. unfold find_zip_asset, first_zip_url.
  destruct r as [| | | | | d]; try discriminate.
  assert (Hget : Py.get (JDict d) "assets" (JList []) = Done (JList assets)).
  { unfold assets_of in Hassets. unfold Py.get.
    destruct (Py.dict_get "assets" d) as [[| | | | l |] |];
      inversion Hassets; subst; reflexivity. }
  rewrite Hget. cbn [lift Py.iter].
  rewrite (bind_ok _ _ w (JList assets) w) by reflexivity.
  cbn [lift Py.iter].
  rewrite (bind_ok _ _ w assets w) by reflexivity.
  unfold bind at 1. rewrite (first_zip_spec env d assets w Hok).
  destruct (find is_zip assets) as [a |] eqn:Ef.
  - apply find_some in Ef. destruct Ef as [Hin _].
    rewrite forallb_forall in Hok. specialize (Hok a Hin).
    destruct (asset_ok_name a Hok) as (da & n & u & -> & Hn & Hu).
    unfold asset_url. rewrite Hu. reflexivity.
  - reflexivity.
Qed.

(** Where lines 87-126 return [None], they have printed one line saying
    why, and nothing else has happened. *)
Lemma select_release_none env repo release_type w w1 :
  select_release env repo release_type w = (Ok None, w1) ->
  exists cause, w1 = say cause w.
Proof.
  unfold select_release, api. intros H.
  destruct (String.eqb release_type "stable").
  - rewrite api_call_run in H. destruct (api_call env _); inversion H.
  - rewrite api_call_run in H.
    destruct (api_call env _) as [releases | e]; [| discriminate].
    destruct (negb (Py.truthy releases)).
    { unfold bind, print, ret in H. inversion H. unfold say. eauto. }
    destruct (String.eqb release_type "beta");
      [| destruct (String.eqb release_type "dev")];
      try (unfold bind, print, ret in H; inversion H; unfold say; eauto; fail).
    all: unfold bind in H;
      destruct (Py.iter releases) as [items | e]; cbn [lift ret raise] in H;
      [| discriminate].
    all: match type of H with
         | context [Py.comprehension ?t ?i] =>
             destruct (Py.comprehension t i) as [[| r kept] | e];
               cbn [lift ret raise print] in H; inversion H;
               unfold say; eauto
         end.
Qed.

Lemma get_latest_http_failure env repo release_type w e :
  api_call env (channel_url repo release_type) = Failed e ->
  get_latest_github_release env repo release_type w
  = (Ok JNull, say ("Error fetching release info from GitHub: " +++ e) w).
Proof.
  unfold channel_url, get_latest_github_release, try_except, select_release,
    api, latest_url, list_url.
  intros H. unfold bind at 1.
  destruct (String.eqb release_type "stable");
    rewrite api_call_run, H; reflexivity.
Qed.

(** C7.  The fetcher always returns.  Within the selected release (a
    dictionary whose assets each carry a file name and a download URL) it
    returns the URL of the first asset whose name ends in [.zip]; when there
    is no such asset, when the channel selects no release, and when the
    HTTP call fails, it prints the cause and returns [None]. *)
Theorem first_zip_asset_or_none env repo release_type w :
  (exists v w',
      get_latest_github_release env repo release_type w = (Ok v, w')) /\
  (forall r w1 assets,
      select_release env repo release_type w = (Ok (Some r), w1) ->
      assets_of r = Some assets ->
      forallb asset_ok assets = true ->
      get_latest_github_release env repo release_type w
      = (Ok (first_zip_url assets),
         match find is_zip assets with
         | Some _ => say (found_line env r) w1
         | None =>
             say ("No zip file found in latest release for " +++ repo) w1
         end)) /\
  (forall w1,
      select_release env repo release_type w = (Ok None, w1) ->
      get_latest_github_release env repo release_type w = (Ok JNull, w1) /\
      exists cause, w1 = say cause w) /\
  (forall e,
      api_call env (channel_url repo release_type) = Failed e ->
      get_latest_github_release env repo release_type w
      = (Ok JNull,
         say ("Error fetching release info from GitHub: " +++ e) w)).
Proof.
  split; [apply get_latest_returns |].
  split; [| split].
  - intros r w1 assets Hsel Hassets Hok.
    rewrite (get_latest_after_selection _ _ _ _ _ _ Hsel).
    unfold try_except.
    rewrite (find_zip_asset_spec env repo r assets w1 Hassets Hok).
    reflexivity.
  - intros w1 Hsel. split.
    + apply (get_latest_after_selection _ _ _ _ _ _ Hsel).
    + apply (select_release_none _ _ _ _ _ Hsel).
  - intros e. apply get_latest_http_failure.
Qed.

(** C10, as the code has it.  For a release type other than [stable],
    [beta] and [dev] the fetcher returns [None]: it never raises and never
    returns a URL.  What it reports depends on the list request: the
    invalid release type when the request yields a non-empty value, the
    fetch error when the request fails, the absence of releases when the
    list is empty. *)
Theorem unknown_channel_yields_none env repo release_type w :
  release_type <> "stable" ->
  release_type <> "beta" ->
  release_type <> "dev" ->
  get_latest_github_release env repo release_type w
  = (Ok JNull,
     say (match api_call env (list_url repo) with
          | Failed e => "Error fetching release info from GitHub: " +++ e
          | Done releases =>
              if Py.truthy releases
              then "Invalid release_type: " +++ release_type
              else "No releases found for " +++ repo
          end) w).
Proof.
  intros Hs Hb Hd.
  apply String.eqb_neq in Hs. apply String.eqb_neq in Hb.
  apply String.eqb_neq in Hd.
  unfold get_latest_github_release, try_except, select_release, api, list_url.
  unfold bind at 1. rewrite Hs, api_call_run.
  destruct (api_call env _) as [releases | e]; [| reflexivity].
  destruct (Py.truthy releases); cbn [negb]; [| reflexivity].
  rewrite Hb, Hd. reflexivity.
Qed.

(* ================================================================== *)
(** * The path resolver *)
(* ================================================================== *)

(** The loop body answers every line and leaves files and input alone. *)
Lemma check_user_path_run env line w :
  check_user_path env line w
  = (Ok (if valid_install (entered env line) (fs w)
         then Some (entered env line) else None),
     say (answer env line (fs w)) w).
Proof.
  unfold check_user_path, answer, valid_install. fold (entered env line).
  unfold bind, Os.exists_, Os.is_dir.
  destruct (FS.exists_ (entered env line) (fs w));
    destruct (FS.is_dir (entered env line) (fs w)); cbn [andb];
    try reflexivity.
  destruct (FS.exists_ (entered env line ++ ["RimWorldWin64.exe"]) (fs w));
    destruct (FS.exists_ (entered env line ++ ["RimWorldWin.exe"]) (fs w));
    reflexivity.
Qed.

(** One round of the loop on a typed line. *)
Lemma input_loop_line env fuel line rest w :
  stdin w = Line line :: rest ->
  input_loop path_prompt (check_user_path env) fuel w
  = if valid_install (entered env line) (fs w) then
      (Ok (entered env line), after_line env line rest w)
    else
      match fuel with
      | O => (Raise (Exception "input_loop: fuel exhausted"),
              after_line env line rest w)
      | S fuel' =>
          input_loop path_prompt (check_user_path env) fuel'
                     (after_line env line rest w)
      end.
Proof.
  intros Hin.
  assert (Hread : input path_prompt w
                  = (Ok line, set_stdin rest (say path_prompt w))).
  { unfold input. rewrite Hin. reflexivity. }
  destruct fuel as [| fuel']; cbn [input_loop];
    rewrite (bind_ok _ _ _ _ _ Hread);
    unfold bind at 1; rewrite check_user_path_run;
    change (fs (set_stdin rest (say path_prompt w))) with (fs w);
    unfold after_line;
    destruct (valid_install (entered env line) (fs w)); reflexivity.
Qed.

Lemma input_loop_stops env fuel w :
  match stdin w with Line _ :: _ => False | _ => True end ->
  exists e w', input_loop path_prompt (check_user_path env) fuel w
               = (Raise e, w') /\ fs w' = fs w.
Proof.
  intros H. destruct fuel; cbn [input_loop]; unfold bind at 1, input;
    destruct (stdin w) as [| [line |] rest]; try contradiction;
    eexists; eexists; split; reflexivity.
Qed.

(** Whatever the loop returns has passed the test of lines 32-34. *)
Lemma input_loop_valid env fuel :
  forall w p w',
    input_loop path_prompt (check_user_path env) fuel w = (Ok p, w') ->
    valid_install p (fs w') = true /\ fs w' = fs w.
Proof.
  induction fuel as [| fuel IH]; intros w p w' H.
  - destruct (stdin w) as [| [line |] rest] eqn:Hin.
    + destruct (input_loop_stops env 0 w) as (e & w1 & E & _);
        [rewrite Hin; exact I | congruence].
    + rewrite (input_loop_line env 0 line rest w Hin) in H.
      destruct (valid_install (entered env line) (fs w)) eqn:Hv;
        inversion H; subst. split; [exact Hv | reflexivity].
    + destruct (input_loop_stops env 0 w) as (e & w1 & E & _);
        [rewrite Hin; exact I | congruence].
  - destruct (stdin w) as [| [line |] rest] eqn:Hin.
    + destruct (input_loop_stops env (S fuel) w) as (e & w1 & E & _);
        [rewrite Hin; exact I | congruence].
    + rewrite (input_loop_line env (S fuel) line rest w Hin) in H.
      destruct (valid_install (entered env line) (fs w)) eqn:Hv.
      * inversion H; subst. split; [exact Hv | reflexivity].
      * apply IH in H. exact H.
    + destruct (input_loop_stops env (S fuel) w) as (e & w1 & E & _);
        [rewrite Hin; exact I | congruence].
Qed.

(** The bound [while_input] sets is enough: more fuel changes nothing. *)
Lemma input_loop_fuel env :
  forall pending w extra,
    stdin w = pending ->
    input_loop path_prompt (check_user_path env) (length pending + extra) w
    = input_loop path_prompt (check_user_path env) (length pending) w.
Proof.
  induction pending as [| ev rest IH]; intros w extra Hin.
  - destruct (length [] + extra)%nat; cbn [input_loop length];
      unfold bind at 1, input; rewrite Hin; unfold bind at 1, input;
      rewrite Hin; reflexivity.
  - destruct ev as [line |].
    + cbn [length Nat.add].
      rewrite !(input_loop_line env _ line rest w Hin).
      destruct (valid_install (entered env line) (fs w)); [reflexivity |].
      apply IH. reflexivity.
    + cbn [length Nat.add input_loop]. unfold bind at 1, input. rewrite Hin.
      unfold bind at 1, input. rewrite Hin. reflexivity.
Qed.

Lemma prompt_for_path_line env line rest w :
  stdin w = Line line :: rest ->
  prompt_for_path env w
  = if valid_install (entered env line) (fs w) then
      (Ok (entered env line), after_line env line rest w)
    else prompt_for_path env (after_line env line rest w).
Proof.
  intros Hin. unfold prompt_for_path, while_input. rewrite Hin.
  cbn [length]. rewrite (input_loop_line env _ line rest w Hin).
  reflexivity.
Qed.

(** Any number of rejected lines is followed by one more prompt. *)
Lemma prompt_for_path_retries env good :
  forall rejected rest w,
    stdin w = map Line rejected ++ Line good :: rest ->
    forallb (fun line => negb (valid_install (entered env line) (fs w)))
            rejected = true ->
    valid_install (entered env good) (fs w) = true ->
    exists w',
      prompt_for_path env w = (Ok (entered env good), w') /\
      stdin w' = rest /\ fs w' = fs w.
Proof.
  induction rejected as [| line more IH]; intros rest w Hin Hbad Hgood.
  - rewrite (prompt_for_path_line env good rest w Hin), Hgood.
    eexists. split; [reflexivity |]. split; reflexivity.
  - cbn [map app] in Hin. cbn [forallb] in Hbad.
    apply andb_true_iff in Hbad. destruct Hbad as [Hline Hmore].
    apply negb_true_iff in Hline.
    rewrite (prompt_for_path_line env line _ w Hin), Hline.
    destruct (IH rest (after_line env line
                         (map Line more ++ Line good :: rest) w))
      as (w' & Hrun & Hrest & Hfs);
      [reflexivity | exact Hmore | exact Hgood |].
    exists w'. auto.
Qed.

(** A loop whose body returns and leaves the input alone never runs out
    of fuel: it ends by returning, by an interrupt or at the end of the
    input. *)
Lemma input_loop_never_exhausts {A} prompt (body : string -> M (option A)) :
  (forall line v, exists r v',
      body line v = (Ok r, v') /\ stdin v' = stdin v) ->
  forall fuel w,
    (length (stdin w) <= fuel)%nat ->
    fst (input_loop prompt body fuel w)
    <> Raise (Exception "input_loop: fuel exhausted").
Proof.
  intros Hbody. induction fuel as [| fuel IH]; intros w Hlen;
    cbn [input_loop]; unfold bind at 1, input;
    destruct (stdin w) as [| [line |] rest] eqn:Hin; cbn [fst];
    try discriminate; cbn [length] in Hlen; try lia.
  destruct (Hbody line (set_stdin rest (emit (Out prompt) w)))
    as (r & v' & Hrun & Hstdin).
  unfold bind at 1. rewrite Hrun.
  destruct r as [a |]; [discriminate |].
  apply IH. rewrite Hstdin. cbn [stdin set_stdin]. lia.
Qed.

Lemma prompt_for_path_never_exhausts env w :
  fst (prompt_for_path env w)
  <> Raise (Exception "input_loop: fuel exhausted").
Proof.
  unfold prompt_for_path, while_input.
  apply input_loop_never_exhausts; [| lia].
  intros line v. rewrite check_user_path_run.
  eexists. eexists. split; reflexivity.
Qed.

Lemma choose_release_type_never_exhausts w :
  fst (choose_release_type w)
  <> Raise (Exception "input_loop: fuel exhausted").
Proof.
  unfold choose_release_type.
  do 4 (rewrite (bind_ok _ _ _ tt _) by reflexivity).
  unfold while_input. apply input_loop_never_exhausts; [| cbn; lia].
  intros line v. unfold check_version_choice.
  destruct (String.eqb (PyStr.strip line) "1");
    [| destruct (String.eqb (PyStr.strip line) "2");
       [| destruct (String.eqb (PyStr.strip line) "3")]];
    eexists; eexists; split; reflexivity.
Qed.

Lemma find_rimworld_directory_prompts env w :
  FS.is_dir default_path (fs w) = false ->
  find_rimworld_directory env w
  = prompt_for_path env
      (say ("RimWorld not found at default location: "
            +++ path_str default_path) w).
Proof.
  intros Hd. unfold find_rimworld_directory, bind, Os.exists_, Os.is_dir.
  rewrite Hd, andb_false_r. reflexivity.
Qed.

(** C9.  When the default location is absent, a path that
    [find_rimworld_directory] returns from its prompt loop exists, is a
    directory and holds one of the two executable names; a line naming a
    path that fails this test is answered and followed by a new prompt;
    and however many such lines come first, the first acceptable line is
    the one returned. *)
Theorem prompted_path_is_validated env w :
  FS.is_dir default_path (fs w) = false ->
  (forall p w',
      find_rimworld_directory env w = (Ok p, w') ->
      FS.exists_ p (fs w') = true /\
      FS.is_dir p (fs w') = true /\
      (FS.exists_ (p ++ ["RimWorldWin64.exe"]) (fs w') = true \/
       FS.exists_ (p ++ ["RimWorldWin.exe"]) (fs w') = true)) /\
  (forall line rest w0,
      stdin w0 = Line line :: rest ->
      valid_install (entered env line) (fs w0) = false ->
      prompt_for_path env w0
      = prompt_for_path env (after_line env line rest w0)) /\
  (forall rejected good rest,
      stdin w = map Line rejected ++ Line good :: rest ->
      forallb (fun line => negb (valid_install (entered env line) (fs w)))
              rejected = true ->
      valid_install (entered env good) (fs w) = true ->
      exists w',
        find_rimworld_directory env w = (Ok (entered env good), w') /\
        stdin w' = rest).
Proof.
  intros Hd. rewrite (find_rimworld_directory_prompts env w Hd).
  split; [| split].
  - intros p w' H. unfold prompt_for_path, while_input in H.
    apply input_loop_valid in H. destruct H as [Hv _].
    unfold valid_install in Hv.
    apply andb_true_iff in Hv. destruct Hv as [Hv Hexe].
    apply andb_true_iff in Hv. destruct Hv as [He Hdir].
    apply orb_true_iff in Hexe. auto.
  - intros line rest w0 Hin Hbad.
    rewrite (prompt_for_path_line env line rest w0 Hin), Hbad. reflexivity.
  - intros rejected good rest Hin Hbad Hgood.
    destruct (prompt_for_path_retries env good rejected rest
                (say ("RimWorld not found at default location: "
                      +++ path_str default_path) w))
      as (w' & Hrun & Hrest & _); [exact Hin | exact Hbad | exact Hgood |].
    exists w'. auto.
Qed.

(* ================================================================== *)
(** * The fetcher and the resolver on the sample world *)
(* ================================================================== *)

(** C4 on the releases [v2.0-beta] and [v1.0]: [beta] selects
    [v2.0-beta], [dev] finds nothing and the fetcher returns [None]. *)
Lemma channel_selects_first_match_witness :
  api_call Sample.env (list_url "shane12300/rimworld_access")
  = Done (JList [Sample.access_beta; Sample.access_stable]) /\
  tag_of Sample.access_beta = Some "v2.0-beta" /\
  tag_of Sample.access_stable = Some "v1.0" /\
  (exists w1,
      select_release Sample.env "shane12300/rimworld_access" "beta"
                     (Sample.world [] [])
      = (Ok (Some Sample.access_beta), w1) /\
      get_latest_github_release Sample.env "shane12300/rimworld_access"
                                "beta" (Sample.world [] [])
      = try_except (find_zip_asset Sample.env "shane12300/rimworld_access"
                                   Sample.access_beta) fetch_failed w1) /\
  (exists w1,
      select_release Sample.env "shane12300/rimworld_access" "dev"
                     (Sample.world [] [])
      = (Ok None, w1) /\
      get_latest_github_release Sample.env "shane12300/rimworld_access"
                                "dev" (Sample.world [] [])
      = (Ok JNull, w1)).
Proof.
  split; [reflexivity |]. split; [reflexivity |]. split; [reflexivity |].
  exact (channel_selects_first_match Sample.env "shane12300/rimworld_access"
           [Sample.access_beta; Sample.access_stable] (Sample.world [] [])
           eq_refl eq_refl).
Defined.

(** C7 on the sample: the stable release has a text file and an archive;
    no release is tagged [dev]; and a repository the API does not know
    makes the call fail. *)
Lemma first_zip_asset_or_none_witness :
  get_latest_github_release Sample.env "shane12300/rimworld_access" "stable"
                            (Sample.world [] [])
  = (Ok (JStr "https://dl.example/RimWorldAccess.zip"),
     say "Found release: v1.0 - Release v1.0" (Sample.world [] [])) /\
  get_latest_github_release Sample.env "shane12300/rimworld_access" "dev"
                            (Sample.world [] [])
  = (Ok JNull,
     say "No 'dev' tag found for shane12300/rimworld_access"
         (Sample.world [] [])) /\
  get_latest_github_release Sample.env "nobody/none" "stable"
                            (Sample.world [] [])
  = (Ok JNull,
     say "Error fetching release info from GitHub: 404 Client Error: Not Found"
         (Sample.world [] [])).
Proof.
  split; [| split].
  - exact (proj1 (proj2 (first_zip_asset_or_none Sample.env
                           "shane12300/rimworld_access" "stable"
                           (Sample.world [] [])))
             Sample.access_stable (Sample.world [] []) _
             eq_refl eq_refl eq_refl).
  - exact (proj1 (proj1 (proj2 (proj2 (first_zip_asset_or_none Sample.env
                                         "shane12300/rimworld_access" "dev"
                                         (Sample.world [] []))))
                    (say "No 'dev' tag found for shane12300/rimworld_access"
                         (Sample.world [] []))
                    eq_refl)).
  - exact (proj2 (proj2 (proj2 (first_zip_asset_or_none Sample.env
                                  "nobody/none" "stable"
                                  (Sample.world [] []))))
             _ eq_refl).
Defined.

(** C10 on the sample: an unknown release type against a repository that
    has releases. *)
Lemma unknown_channel_yields_none_witness :
  "nightly" <> "stable" /\ "nightly" <> "beta" /\ "nightly" <> "dev" /\
  get_latest_github_release Sample.env "shane12300/rimworld_access"
                            "nightly" (Sample.world [] [])
  = (Ok JNull, say "Invalid release_type: nightly" (Sample.world [] [])).
Proof.
  assert (Hs : "nightly" <> "stable") by discriminate.
  assert (Hb : "nightly" <> "beta") by discriminate.
  assert (Hd : "nightly" <> "dev") by discriminate.
  split; [exact Hs |]. split; [exact Hb |]. split; [exact Hd |].
  exact (unknown_channel_yields_none Sample.env "shane12300/rimworld_access"
           "nightly" (Sample.world [] []) Hs Hb Hd).
Defined.

(** C10 as the specification words it fails on a repository without
    releases: the fetcher reports that there are no releases, and never
    mentions the release type. *)
Lemma unknown_channel_counterexample :
  "nightly" <> "stable" /\ "nightly" <> "beta" /\ "nightly" <> "dev" /\
  get_latest_github_release Sample.env "nobody/empty" "nightly"
                            (Sample.world [] [])
  = (Ok JNull, say "No releases found for nobody/empty" (Sample.world [] []))
  /\
  ~ reports_invalid_type Sample.env "nobody/empty" "nightly"
                         (Sample.world [] []).
Proof.
  split; [discriminate |]. split; [discriminate |]. split; [discriminate |].
  split; [reflexivity |].
  intros (w' & H & Hin).
  assert (E : w' = say "No releases found for nobody/empty"
                       (Sample.world [] [])).
  { vm_compute in H. inversion H. reflexivity. }
  subst w'. simpl in Hin. destruct Hin as [E | []]. discriminate E.
Qed.

(** C9 on the sample: the default location is absent, the first line
    names a directory without the executable, the second (in quotes) the
    game. *)
Lemma prompted_path_is_validated_witness :
  let typed := [Line "C:\Games\Empty"; Line "'C:\Games\RimWorld'"] in
  let w := Sample.world [] typed in
  FS.is_dir default_path (fs w) = false /\
  valid_install (entered Sample.env "C:\Games\Empty") (fs w) = false /\
  prompt_for_path Sample.env w
  = prompt_for_path Sample.env
      (after_line Sample.env "C:\Games\Empty" [Line "'C:\Games\RimWorld'"] w) /\
  exists w',
    find_rimworld_directory Sample.env w = (Ok ["C:"; "Games"; "RimWorld"], w') /\
    stdin w' = [] /\
    FS.is_dir ["C:"; "Games"; "RimWorld"] (fs w') = true /\
    (FS.exists_ ["C:"; "Games"; "RimWorld"; "RimWorldWin64.exe"] (fs w') = true \/
     FS.exists_ ["C:"; "Games"; "RimWorld"; "RimWorldWin.exe"] (fs w') = true).
Proof.
  intros typed w.
  pose proof (prompted_path_is_validated Sample.env w eq_refl)
    as (Hvalid & Hagain & Hretry).
  split; [reflexivity |]. split; [reflexivity |].
  split; [exact (Hagain "C:\Games\Empty" [Line "'C:\Games\RimWorld'"] w
                   eq_refl eq_refl) |].
  destruct (Hretry ["C:\Games\Empty"] "'C:\Games\RimWorld'" []
              eq_refl eq_refl eq_refl) as (w' & Hrun & Hrest).
  destruct (Hvalid _ w' Hrun) as (_ & Hdir & Hexe).
  exists w'. split; [exact Hrun |]. split; [exact Hrest |].
  split; [exact Hdir | exact Hexe].
Defined.

(* ================================================================== *)
(** * The configuration patcher: the document *)
(* ================================================================== *)

Lemma list_eqb_eq a b : list_eqb a b = true <-> a = b.
Proof.
  revert b. induction a as [| x a IH]; intros [| y b]; simpl;
    try (split; [discriminate | discriminate]); try tauto.
  rewrite andb_true_iff, String.eqb_eq, IH.
  split; [intros [-> ->]; reflexivity | intros H; inversion H; auto].
Qed.

Lemma fold_append_all t a x tl cs l :
  fold_left (fun am mod_id => ET.append_child (ET.li mod_id) am) l
            (Elem t a x tl cs)
  = Elem t a x tl (cs ++ map ET.li l).
Proof.
  revert cs. induction l as [| m l IH]; intros cs; simpl.
  - rewrite app_nil_r. reflexivity.
  - rewrite IH, <- app_assoc. reflexivity.
Qed.

Lemma fold_append_others required t a x tl cs l :
  fold_left (fun am mod_id =>
               if in_list mod_id required then am
               else ET.append_child (ET.li mod_id) am) l
            (Elem t a x tl cs)
  = Elem t a x tl
      (cs ++ map ET.li (filter (fun m => negb (in_list m required)) l)).
Proof.
  revert cs. induction l as [| m l IH]; intros cs; simpl.
  - rewrite app_nil_r. reflexivity.
  - destruct (in_list m required); simpl.
    + apply IH.
    + rewrite IH, <- app_assoc. reflexivity.
Qed.

(** Lines 308-319: the element is emptied, then holds the required
    identifiers followed by the other identifiers that were there. *)
Lemma rebuild_children required current am :
  rebuild required current am
  = Elem (ET.tag am) [] None None
      (map ET.li
         (required ++ filter (fun m => negb (in_list m required)) current)).
Proof.
  unfold rebuild, ET.clear, ET.new.
  rewrite fold_append_all, fold_append_others. simpl.
  rewrite map_app. reflexivity.
Qed.

Lemma find_index_bound t cs i :
  ET.find_index t cs = Some i ->
  (i < length cs)%nat /\ ET.tag (nth i cs (ET.new t)) = t.
Proof.
  revert i. induction cs as [| c cs IH]; intros i H; simpl in H.
  - discriminate.
  - destruct (String.eqb (ET.tag c) t) eqn:E.
    + inversion H; subst. simpl. split; [lia |].
      apply String.eqb_eq. exact E.
    + destruct (ET.find_index t cs) as [j |]; [| discriminate].
      inversion H; subst. destruct (IH j eq_refl) as [Hlt Htag].
      simpl. split; [lia | exact Htag].
Qed.

Lemma find_index_set_nth t cs i c :
  ET.find_index t cs = Some i ->
  ET.tag c = t ->
  ET.find_index t (ET.set_nth i c cs) = Some i /\
  nth i (ET.set_nth i c cs) (ET.new t) = c.
Proof.
  revert i. induction cs as [| x cs IH]; intros i H Hc; simpl in H.
  - discriminate.
  - destruct (String.eqb (ET.tag x) t) eqn:E.
    + injection H as <-. simpl. rewrite Hc, String.eqb_refl. auto.
    + destruct (ET.find_index t cs) as [j |]; [| discriminate].
      injection H as <-. simpl. rewrite E.
      destruct (IH j eq_refl Hc) as [Hf Hn]. rewrite Hf. auto.
Qed.

Lemma find_index_appended t cs :
  ET.find_index t cs = None ->
  ET.find_index t (cs ++ [ET.new t]) = Some (length cs).
Proof.
  induction cs as [| x cs IH]; simpl; intros H.
  - rewrite String.eqb_refl. reflexivity.
  - destruct (String.eqb (ET.tag x) t); [discriminate |].
    destruct (ET.find_index t cs); [discriminate |].
    rewrite IH by reflexivity. reflexivity.
Qed.

(** After lines 284-286 the root has an [activeMods] child, and
    [active_mods] is the first one. *)
Lemma locate_active_mods_found root :
  ET.find_index "activeMods"
                (ET.children (snd (locate_active_mods root)))
  = Some (fst (locate_active_mods root)).
Proof.
  unfold locate_active_mods.
  destruct (ET.find_index "activeMods" (ET.children root)) eqn:E; simpl.
  - exact E.
  - destruct root as [t a x tl cs]. simpl in *.
    apply find_index_appended. exact E.
Qed.

Lemma active_mods_tag root : ET.tag (active_mods_of root) = "activeMods".
Proof.
  unfold active_mods_of.
  pose proof (locate_active_mods_found root) as H.
  destruct (locate_active_mods root) as [i root']. simpl in H.
  apply (find_index_bound _ _ _ H).
Qed.

(** The [activeMods] element of the patched document is the rebuilt one. *)
Lemma active_mods_of_patched required root :
  active_mods_of (patched required root)
  = rebuild required (current_mods_of root) (active_mods_of root).
Proof.
  pose proof (locate_active_mods_found root) as Hfound.
  pose proof (active_mods_tag root) as Htag.
  unfold patched.
  set (am := rebuild required (current_mods_of root) (active_mods_of root)).
  assert (Ham : ET.tag am = "activeMods").
  { subst am. rewrite rebuild_children. simpl. exact Htag. }
  destruct (locate_active_mods root) as [i root']. simpl in Hfound.
  destruct root' as [t a x tl cs]. simpl in *.
  destruct (find_index_set_nth _ _ _ am Hfound Ham) as [Hf Hn].
  unfold active_mods_of, locate_active_mods. simpl. rewrite Hf. exact Hn.
Qed.

Lemma texts_li l :
  forallb (fun m => negb (String.eqb m EmptyString)) l = true ->
  texts (map ET.li l) = l.
Proof.
  induction l as [| m l IH]; simpl; intros H; auto.
  apply andb_true_iff in H. destruct H as [Hm Hl].
  apply negb_true_iff in Hm. rewrite Hm, (IH Hl). reflexivity.
Qed.

Lemma findall_li l t a x tl :
  ET.findall "li" (Elem t a x tl (map ET.li l)) = map ET.li l.
Proof.
  unfold ET.findall. simpl. induction l as [| m l IH]; simpl; auto.
  rewrite IH. reflexivity.
Qed.

Lemma texts_nonempty items :
  forallb (fun m => negb (String.eqb m EmptyString)) (texts items) = true.
Proof.
  induction items as [| li rest IH]; simpl; auto.
  destruct (ET.text li) as [s |]; auto.
  destruct (String.eqb s EmptyString) eqn:E; simpl; auto.
  rewrite E. simpl. exact IH.
Qed.

(** The enabled list of the patched document. *)
Lemma current_mods_of_patched required root :
  forallb (fun m => negb (String.eqb m EmptyString)) required = true ->
  current_mods_of (patched required root)
  = required
    ++ filter (fun m => negb (in_list m required)) (current_mods_of root).
Proof.
  intros Hreq. unfold current_mods_of at 1.
  rewrite active_mods_of_patched, rebuild_children, findall_li.
  apply texts_li. rewrite forallb_app, Hreq. simpl.
  rewrite forallb_forall. intros m Hm. apply filter_In in Hm.
  destruct Hm as [Hm _].
  pose proof (texts_nonempty (ET.findall "li" (active_mods_of root))) as Hne.
  rewrite forallb_forall in Hne. apply Hne. exact Hm.
Qed.

(* ================================================================== *)
(** * The configuration patcher: the files *)
(* ================================================================== *)

Lemma backup_apart_config env :
  FS.apart (backup_file env) (config_file env) = true.
Proof.
  unfold backup_file, config_file. apply FSFacts.apart_siblings. discriminate.
Qed.

Lemma real_dst_apart_config env f :
  FS.apart (Os.real_dst (config_file env) (backup_file env) f)
           (config_file env) = true.
Proof.
  unfold Os.real_dst. destruct (FS.is_dir (backup_file env) f).
  - rewrite <- (app_nil_r (config_file env)) at 2.
    apply FSFacts.apart_app. apply backup_apart_config.
  - apply backup_apart_config.
Qed.

(** The backup copy: it raises and changes nothing, or it succeeds and
    leaves the configuration file as it was. *)
Lemma copy2_config env w data :
  FS.lookup (config_file env) (fs w) = Some (File data) ->
  (exists e, Os.copy2 (config_file env) (backup_file env) w
             = (Raise (Exception e), w)) \/
  (exists fs1,
      Os.copy2 (config_file env) (backup_file env) w = (Ok tt, set_fs fs1 w) /\
      FS.lookup (config_file env) fs1 = Some (File data) /\
      FS.put (Os.real_dst (config_file env) (backup_file env) (fs w))
             (File data) (fs w) = Some fs1).
Proof.
  intros Hc. unfold Os.copy2. rewrite Hc.
  set (target := Os.real_dst (config_file env) (backup_file env) (fs w)).
  destruct (FS.lookup target (fs w)) as [[old | es] |];
    try (left; eexists; reflexivity).
  all: unfold Os.commit;
    destruct (FS.put target (File data) (fs w)) as [fs1 |] eqn:Hput;
    [| left; eexists; reflexivity].
  all: right; exists fs1; split; [reflexivity |]; split; [| reflexivity].
  all: rewrite (FSFacts.lookup_put_apart target (config_file env) _ _ _
                  (real_dst_apart_config env (fs w)) Hput); exact Hc.
Qed.

(** When the backup path is not a directory the copy succeeds, and the
    backup holds the bytes of the original. *)
Lemma copy2_config_ok env w data :
  FS.lookup (config_file env) (fs w) = Some (File data) ->
  FS.is_dir (backup_file env) (fs w) = false ->
  exists fs1,
    Os.copy2 (config_file env) (backup_file env) w = (Ok tt, set_fs fs1 w) /\
    FS.lookup (config_file env) fs1 = Some (File data) /\
    FS.lookup (backup_file env) fs1 = Some (File data).
Proof.
  intros Hc Hd.
  assert (Hput : exists fs1,
             FS.put (backup_file env) (File data) (fs w) = Some fs1).
  { unfold backup_file. unfold config_file in Hc.
    apply (FSFacts.put_sibling _ _ _ _ _ _ Hc). }
  destruct Hput as [fs1 Hput]. exists fs1.
  assert (Hrun : Os.copy2 (config_file env) (backup_file env) w
                 = (Ok tt, set_fs fs1 w)).
  { unfold Os.copy2, Os.real_dst. rewrite Hc, Hd.
    unfold FS.is_dir in Hd. unfold Os.commit.
    destruct (FS.lookup (backup_file env) (fs w)) as [[old | es] |];
      try discriminate; rewrite Hput; reflexivity. }
  split; [exact Hrun |]. split.
  - rewrite (FSFacts.lookup_put_apart _ _ _ _ _ (backup_apart_config env) Hput).
    exact Hc.
  - apply (FSFacts.lookup_put_same _ _ _ _ Hput).
Qed.

(** Writing a file that exists cannot fail, and disturbs nothing that
    lies apart from it. *)
Lemma rewrite_file p data new w :
  FS.lookup p (fs w) = Some (File data) ->
  exists fs3,
    (Os.open_wb p;; Os.append p new) w = (Ok tt, set_fs fs3 w) /\
    FS.lookup p fs3 = Some (File new) /\
    forall q, FS.apart p q = true -> FS.lookup q fs3 = FS.lookup q (fs w).
Proof.
  intros Hp.
  destruct (FSFacts.put_exists p (File []) _ _ Hp) as [fs2 Hput2].
  assert (Hl2 : FS.lookup p fs2 = Some (File []))
    by apply (FSFacts.lookup_put_same _ _ _ _ Hput2).
  destruct (FSFacts.put_exists p (File ([] ++ new)) _ _ Hl2) as [fs3 Hput3].
  exists fs3. split; [| split].
  - assert (Hopen : Os.open_wb p w = (Ok tt, set_fs fs2 w)).
    { apply open_wb_ok; [| exact Hput2].
      unfold FS.is_dir. rewrite Hp. reflexivity. }
    rewrite (bind_ok _ _ _ _ _ Hopen).
    unfold Os.append. cbn [fs set_fs]. rewrite Hl2. unfold Os.commit.
    rewrite Hput3. reflexivity.
  - apply (FSFacts.lookup_put_same _ _ _ _ Hput3).
  - intros q Hq.
    rewrite (FSFacts.lookup_put_apart _ _ _ _ _ Hq Hput3).
    apply (FSFacts.lookup_put_apart _ _ _ _ _ Hq Hput2).
Qed.

Lemma exists_of_lookup p f n : FS.lookup p f = Some n -> FS.exists_ p f = true.
Proof. unfold FS.exists_. intros ->. reflexivity. Qed.

(** A run that finds the right first three entries (lines 298-300). *)
Lemma update_unchanged env required rimworld w data root :
  FS.lookup (config_file env) (fs w) = Some (File data) ->
  xml_parse env data = Done root ->
  firstn 3 (current_mods_of root) = required ->
  update_mods_config_with env required rimworld w
  = (Ok true,
     say "ModsConfig.xml already has the correct configuration. No changes needed."
         (say (PyStr.nl +++ " Updating ModsConfig.xml ") w)).
Proof.
  intros Hc Hparse Hfirst. apply list_eqb_eq in Hfirst.
  set (w0 := say (PyStr.nl +++ " Updating ModsConfig.xml ") w).
  assert (Hc0 : FS.lookup (config_file env) (fs w0) = Some (File data))
    by exact Hc.
  unfold update_mods_config_with.
  rewrite (bind_ok _ _ w tt w0) by reflexivity.
  rewrite (bind_ok _ _ w0 true w0)
    by (unfold Os.exists_; rewrite (exists_of_lookup _ _ _ Hc0); reflexivity).
  cbn [negb]. unfold try_except.
  rewrite (bind_ok _ _ w0 data w0) by (unfold Os.read; rewrite Hc0; reflexivity).
  rewrite Hparse. cbn [lift].
  rewrite (bind_ok _ _ w0 root w0) by reflexivity.
  rewrite Hfirst. reflexivity.
Qed.

(** A run that has to patch (lines 302-325), once the backup copy is
    made: it succeeds, the configuration file holds the patched document
    and nothing apart from that file changes any more. *)
Lemma update_after_copy env required rimworld w data root fs1 :
  FS.lookup (config_file env) (fs w) = Some (File data) ->
  xml_parse env data = Done root ->
  firstn 3 (current_mods_of root) <> required ->
  Os.copy2 (config_file env) (backup_file env)
           (say (PyStr.nl +++ " Updating ModsConfig.xml ") w)
  = (Ok tt, set_fs fs1 (say (PyStr.nl +++ " Updating ModsConfig.xml ") w)) ->
  FS.lookup (config_file env) fs1 = Some (File data) ->
  exists w',
    update_mods_config_with env required rimworld w = (Ok true, w') /\
    FS.lookup (config_file env) (fs w')
    = Some (File (xml_tostring env (patched required root))) /\
    (forall q, FS.apart (config_file env) q = true ->
               FS.lookup q (fs w') = FS.lookup q fs1) /\
    stdin w' = stdin w.
Proof.
  intros Hc Hparse Hfirst Hcopy Hc1.
  assert (Hneq : list_eqb (firstn 3 (current_mods_of root)) required = false).
  { destruct (list_eqb _ required) eqn:E; [| reflexivity].
    apply list_eqb_eq in E. contradiction. }
  set (w0 := say (PyStr.nl +++ " Updating ModsConfig.xml ") w) in *.
  assert (Hc0 : FS.lookup (config_file env) (fs w0) = Some (File data))
    by exact Hc.
  unfold update_mods_config_with.
  rewrite (bind_ok _ _ w tt w0) by reflexivity.
  rewrite (bind_ok _ _ w0 true w0)
    by (unfold Os.exists_; rewrite (exists_of_lookup _ _ _ Hc0); reflexivity).
  cbn [negb]. unfold try_except.
  rewrite (bind_ok _ _ w0 data w0) by (unfold Os.read; rewrite Hc0; reflexivity).
  rewrite Hparse. cbn [lift].
  rewrite (bind_ok _ _ w0 root w0) by reflexivity.
  rewrite Hneq.
  rewrite (bind_ok _ _ _ _ _ Hcopy).
  set (w1 := say ("Backup created at: " +++ path_str (backup_file env))
                 (set_fs fs1 w0)).
  rewrite (bind_ok _ _ _ tt w1) by reflexivity.
  destruct (rewrite_file (config_file env) data
              (xml_tostring env (patched required root)) w1 Hc1)
    as (fs3 & Hwrite & Hl3 & Hframe).
  unfold bind at 1 in Hwrite.
  destruct (Os.open_wb (config_file env) w1) as [[[] | e] w2] eqn:Hopen;
    [| discriminate].
  rewrite (bind_ok _ _ _ _ _ Hopen).
  rewrite (bind_ok _ _ _ _ _ Hwrite).
  eexists. split; [reflexivity |].
  split; [exact Hl3 |]. split; [| reflexivity].
  exact Hframe.
Qed.

(** The runs that return [False]: the path is a directory, the file does
    not parse, or the backup copy fails.  None of them writes. *)
Lemma update_not_a_file env required rimworld w es :
  FS.lookup (config_file env) (fs w) = Some (Dir es) ->
  exists w', update_mods_config_with env required rimworld w = (Ok false, w').
Proof.
  intros Hc.
  set (w0 := say (PyStr.nl +++ " Updating ModsConfig.xml ") w).
  assert (Hc0 : FS.lookup (config_file env) (fs w0) = Some (Dir es))
    by exact Hc.
  unfold update_mods_config_with.
  rewrite (bind_ok _ _ w tt w0) by reflexivity.
  rewrite (bind_ok _ _ w0 true w0)
    by (unfold Os.exists_; rewrite (exists_of_lookup _ _ _ Hc0); reflexivity).
  cbn [negb]. unfold try_except.
  rewrite (bind_raise _ _ w0 (Exception "Is a directory") w0)
    by (unfold Os.read; rewrite Hc0; reflexivity).
  eexists. reflexivity.
Qed.

Lemma update_unparsable env required rimworld w data e :
  FS.lookup (config_file env) (fs w) = Some (File data) ->
  xml_parse env data = Failed e ->
  update_mods_config_with env required rimworld w
  = (Ok false,
     say ("Error updating ModsConfig.xml: " +++ e)
         (say (PyStr.nl +++ " Updating ModsConfig.xml ") w)).
Proof.
  intros Hc Hparse.
  set (w0 := say (PyStr.nl +++ " Updating ModsConfig.xml ") w).
  assert (Hc0 : FS.lookup (config_file env) (fs w0) = Some (File data))
    by exact Hc.
  unfold update_mods_config_with.
  rewrite (bind_ok _ _ w tt w0) by reflexivity.
  rewrite (bind_ok _ _ w0 true w0)
    by (unfold Os.exists_; rewrite (exists_of_lookup _ _ _ Hc0); reflexivity).
  cbn [negb]. unfold try_except.
  rewrite (bind_ok _ _ w0 data w0) by (unfold Os.read; rewrite Hc0; reflexivity).
  rewrite Hparse. cbn [lift].
  rewrite (bind_raise _ _ w0 (Exception e) w0) by reflexivity.
  reflexivity.
Qed.

Lemma update_copy_fails env required rimworld w data root e :
  FS.lookup (config_file env) (fs w) = Some (File data) ->
  xml_parse env data = Done root ->
  firstn 3 (current_mods_of root) <> required ->
  Os.copy2 (config_file env) (backup_file env)
           (say (PyStr.nl +++ " Updating ModsConfig.xml ") w)
  = (Raise (Exception e), say (PyStr.nl +++ " Updating ModsConfig.xml ") w) ->
  update_mods_config_with env required rimworld w
  = (Ok false,
     say ("Error updating ModsConfig.xml: " +++ e)
         (say (PyStr.nl +++ " Updating ModsConfig.xml ") w)).
Proof.
  intros Hc Hparse Hfirst Hcopy.
  assert (Hneq : list_eqb (firstn 3 (current_mods_of root)) required = false).
  { destruct (list_eqb _ required) eqn:E; [| reflexivity].
    apply list_eqb_eq in E. contradiction. }
  set (w0 := say (PyStr.nl +++ " Updating ModsConfig.xml ") w) in *.
  assert (Hc0 : FS.lookup (config_file env) (fs w0) = Some (File data))
    by exact Hc.
  unfold update_mods_config_with.
  rewrite (bind_ok _ _ w tt w0) by reflexivity.
  rewrite (bind_ok _ _ w0 true w0)
    by (unfold Os.exists_; rewrite (exists_of_lookup _ _ _ Hc0); reflexivity).
  cbn [negb]. unfold try_except.
  rewrite (bind_ok _ _ w0 data w0) by (unfold Os.read; rewrite Hc0; reflexivity).
  rewrite Hparse. cbn [lift].
  rewrite (bind_ok _ _ w0 root w0) by reflexivity.
  rewrite Hneq.
  rewrite (bind_raise _ _ _ _ _ Hcopy). reflexivity.
Qed.

(** C1.  When the configuration file parses, its enabled list does not
    start with the required identifiers and the backup path is free, the
    patch succeeds: the backup holds the bytes of the original, the
    configuration file holds the patched document, and the enabled list of
    that document is the required identifiers in order followed by the
    former entries that are not required ones, in their former order and
    with their repetitions.  The list of line 291 is a parameter here:
    [update_mods_config] is the instance [required_mods]. *)
Theorem config_patch_rewrites env required rimworld w data root :
  FS.lookup (config_file env) (fs w) = Some (File data) ->
  xml_parse env data = Done root ->
  firstn 3 (current_mods_of root) <> required ->
  FS.is_dir (backup_file env) (fs w) = false ->
  exists w',
    update_mods_config_with env required rimworld w = (Ok true, w') /\
    (required = required_mods ->
     update_mods_config env rimworld w = (Ok true, w')) /\
    FS.lookup (backup_file env) (fs w') = Some (File data) /\
    FS.lookup (config_file env) (fs w')
    = Some (File (xml_tostring env (patched required root))) /\
    ET.children (active_mods_of (patched required root))
    = map ET.li
        (required
         ++ filter (fun m => negb (in_list m required))
                   (current_mods_of root)).
Proof.
  intros Hc Hparse Hfirst Hdir.
  set (w0 := say (PyStr.nl +++ " Updating ModsConfig.xml ") w).
  destruct (copy2_config_ok env w0 data Hc Hdir) as (fs1 & Hcopy & Hc1 & Hb1).
  destruct (update_after_copy env required rimworld w data root fs1
              Hc Hparse Hfirst Hcopy Hc1)
    as (w' & Hrun & Hconfig & Hframe & _).
  exists w'. split; [exact Hrun |].
  split; [intros ->; exact Hrun |]. split; [| split; [exact Hconfig |]].
  - rewrite (Hframe (backup_file env)); [exact Hb1 |].
    rewrite FSFacts.apart_sym. apply backup_apart_config.
  - rewrite active_mods_of_patched, rebuild_children. reflexivity.
Qed.

(** After a successful run on an existing file, the file parses and its
    enabled list starts with the required identifiers. *)
Lemma settled_after_success env rimworld w w1 :
  FS.exists_ (config_file env) (fs w) = true ->
  update_mods_config env rimworld w = (Ok true, w1) ->
  (forall data root,
      FS.lookup (config_file env) (fs w) = Some (File data) ->
      xml_parse env data = Done root ->
      firstn 3 (current_mods_of root) <> required_mods ->
      reads_back env (patched required_mods root)) ->
  exists data root,
    FS.lookup (config_file env) (fs w1) = Some (File data) /\
    xml_parse env data = Done root /\
    firstn 3 (current_mods_of root) = required_mods.
Proof.
  unfold update_mods_config, FS.exists_. intros Hex Hrun Hcodec.
  destruct (FS.lookup (config_file env) (fs w)) as [[data | es] |] eqn:Hc;
    [| | discriminate].
  2: { destruct (update_not_a_file env required_mods rimworld w es Hc)
         as [w' E]. congruence. }
  destruct (xml_parse env data) as [root | e] eqn:Hparse.
  2: { rewrite (update_unparsable env _ rimworld w data e Hc Hparse) in Hrun.
       discriminate. }
  destruct (list_eq_dec string_dec (firstn 3 (current_mods_of root))
                        required_mods) as [Heq | Hneq].
  - rewrite (update_unchanged env _ rimworld w data root Hc Hparse Heq) in Hrun.
    inversion Hrun; subst. exists data, root. auto.
  - destruct (copy2_config env _ data
                (Hc : FS.lookup (config_file env)
                        (fs (say (PyStr.nl +++ " Updating ModsConfig.xml ") w))
                      = Some (File data)))
      as [[e Hcopy] | (fs1 & Hcopy & Hc1 & _)].
    + rewrite (update_copy_fails env _ rimworld w data root e
                 Hc Hparse Hneq Hcopy) in Hrun.
      discriminate.
    + destruct (update_after_copy env required_mods rimworld w data root fs1
                  Hc Hparse Hneq Hcopy Hc1)
        as (w' & Hrun' & Hconfig & _).
      rewrite Hrun' in Hrun. inversion Hrun; subst w'.
      destruct (Hcodec data root eq_refl Hparse Hneq) as (t' & Hread & Hsame).
      exists (xml_tostring env (patched required_mods root)), t'.
      split; [exact Hconfig |]. split; [exact Hread |].
      rewrite Hsame, current_mods_of_patched by reflexivity.
      reflexivity.
Qed.

(** C2.  After one successful run on an existing configuration file, every
    following run finds the required identifiers in the first three
    places, says so, returns [True] and leaves every file as it is: no
    write, no new backup.  The parser is assumed to read back the document
    that the first run wrote. *)
Theorem config_patch_idempotent env rimworld w w1 :
  FS.exists_ (config_file env) (fs w) = true ->
  update_mods_config env rimworld w = (Ok true, w1) ->
  (forall data root,
      FS.lookup (config_file env) (fs w) = Some (File data) ->
      xml_parse env data = Done root ->
      firstn 3 (current_mods_of root) <> required_mods ->
      reads_back env (patched required_mods root)) ->
  forall n : nat,
    let wn :=
      Nat.iter n (fun v => snd (update_mods_config env rimworld v)) w1 in
    fs wn = fs w1 /\
    update_mods_config env rimworld wn
    = (Ok true,
       say "ModsConfig.xml already has the correct configuration. No changes needed."
           (say (PyStr.nl +++ " Updating ModsConfig.xml ") wn)).
Proof.
  intros Hex Hrun Hcodec.
  destruct (settled_after_success env rimworld w w1 Hex Hrun Hcodec)
    as (data & root & Hc & Hparse & Hfirst).
  assert (Hstep : forall v, fs v = fs w1 ->
            update_mods_config env rimworld v
            = (Ok true,
               say "ModsConfig.xml already has the correct configuration. No changes needed."
                   (say (PyStr.nl +++ " Updating ModsConfig.xml ") v))).
  { intros v Hv. apply (update_unchanged env _ rimworld v data root);
      [rewrite Hv; exact Hc | exact Hparse | exact Hfirst]. }
  induction n as [| n IH]; cbn zeta.
  - simpl. split; [reflexivity | apply Hstep; reflexivity].
  - cbn zeta in IH. destruct IH as [Hfs Hnext].
    rewrite Nat.iter_succ, Hnext. cbn [snd].
    split; [exact Hfs | apply Hstep; exact Hfs].
Qed.

(** C1 on the example of the specification: the file lists [x.mod] and
    [harmony.id], the required list is [harmony.id], [base.id],
    [access.id]. *)
Lemma config_patch_rewrites_witness :
  current_mods_of Sample.document = ["x.mod"; "harmony.id"] /\
  FS.is_dir (backup_file Sample.env)
            (fs (Sample.world (Sample.tostring Sample.document) [])) = false /\
  exists w',
    update_mods_config_with Sample.env ["harmony.id"; "base.id"; "access.id"]
      Sample.game (Sample.world (Sample.tostring Sample.document) [])
    = (Ok true, w') /\
    FS.lookup (backup_file Sample.env) (fs w')
    = Some (File (Sample.tostring Sample.document)) /\
    FS.lookup (config_file Sample.env) (fs w')
    = Some (File (Sample.tostring
                    (patched ["harmony.id"; "base.id"; "access.id"]
                             Sample.document))) /\
    ET.children
      (active_mods_of
         (patched ["harmony.id"; "base.id"; "access.id"] Sample.document))
    = map ET.li ["harmony.id"; "base.id"; "access.id"; "x.mod"].
Proof.
  split; [reflexivity |]. split; [reflexivity |].
  assert (Hparse : xml_parse Sample.env (Sample.tostring Sample.document)
                   = Done Sample.document)
    by (vm_compute; reflexivity).
  assert (Hfirst : firstn 3 (current_mods_of Sample.document)
                   <> Sample.example_required)
    by (intros E; vm_compute in E; discriminate E).
  destruct (config_patch_rewrites Sample.env Sample.example_required
              Sample.game
              (Sample.world (Sample.tostring Sample.document) [])
              (Sample.tostring Sample.document) Sample.document
              eq_refl Hparse Hfirst eq_refl)
    as (w' & Hrun & _ & Hbackup & Hconfig & Hlist).
  exists w'. split; [exact Hrun |]. split; [exact Hbackup |].
  split; [exact Hconfig | exact Hlist].
Defined.

(** C2 on the sample: the first run patches the file, the two runs that
    follow change nothing. *)
Lemma config_patch_idempotent_witness :
  let w := Sample.world (Sample.tostring Sample.document) [] in
  let w1 := snd (update_mods_config Sample.env Sample.game w) in
  let w2 := snd (update_mods_config Sample.env Sample.game w1) in
  FS.exists_ (config_file Sample.env) (fs w) = true /\
  update_mods_config Sample.env Sample.game w = (Ok true, w1) /\
  fs w1 <> fs w /\
  fs w2 = fs w1 /\
  update_mods_config Sample.env Sample.game w2
  = (Ok true,
     say "ModsConfig.xml already has the correct configuration. No changes needed."
         (say (PyStr.nl +++ " Updating ModsConfig.xml ") w2)).
Proof.
  intros w w1 w2.
  assert (Hex : FS.exists_ (config_file Sample.env) (fs w) = true)
    by reflexivity.
  assert (Hrun : update_mods_config Sample.env Sample.game w = (Ok true, w1))
    by (vm_compute; reflexivity).
  assert (Hcodec : forall data root,
             FS.lookup (config_file Sample.env) (fs w) = Some (File data) ->
             xml_parse Sample.env data = Done root ->
             firstn 3 (current_mods_of root) <> required_mods ->
             reads_back Sample.env (patched required_mods root)).
  { intros data root Hl Hp _.
    assert (E : data = Sample.tostring Sample.document)
      by (vm_compute in Hl; inversion Hl; vm_compute; reflexivity).
    subst data.
    assert (E : root = Sample.document)
      by (vm_compute in Hp; inversion Hp; vm_compute; reflexivity).
    subst root.
    exists (patched required_mods Sample.document).
    split; vm_compute; reflexivity. }
  split; [exact Hex |]. split; [exact Hrun |].
  split; [intros E; vm_compute in E; discriminate E |].
  exact (config_patch_idempotent Sample.env Sample.game w w1
           Hex Hrun Hcodec 1%nat).
Defined.

(* ================================================================== *)
(** * The archive installer *)
(* ================================================================== *)

Lemma install_harmony_is_package env rimworld :
  install_harmony_mod env rimworld
  = install_package env harmony_package rimworld "stable".
Proof. reflexivity. Qed.

Lemma install_access_is_package env rimworld release_type :
  install_rimworld_access_mod env rimworld release_type
  = install_package env access_package rimworld release_type.
Proof. reflexivity. Qed.

Lemma keep_dirs_run entries w :
  keep_dirs entries w
  = (Ok (filter (fun f => FS.is_dir f (fs w)) entries), w).
Proof.
  induction entries as [| f rest IH]; simpl.
  - reflexivity.
  - unfold bind, Os.is_dir. rewrite IH.
    destruct (FS.is_dir f (fs w)); reflexivity.
Qed.

Lemma iterdir_inv p w entries w1 :
  Os.iterdir p w = (Ok entries, w1) ->
  w1 = w /\
  exists es, FS.lookup p (fs w) = Some (Dir es) /\
             entries = map (fun kn => p ++ [fst kn]) es.
Proof.
  unfold Os.iterdir.
  destruct (FS.lookup p (fs w)) as [[d | es] |] eqn:Hp; intros H;
    inversion H.
  split; [reflexivity |]. exists es. auto.
Qed.

Lemma rmtree_inv p w w1 :
  Os.rmtree p w = (Ok tt, w1) -> w1 = set_fs (FS.remove p (fs w)) w.
Proof.
  unfold Os.rmtree.
  destruct (FS.lookup p (fs w)) as [[d | es] |]; intros H; inversion H.
  reflexivity.
Qed.

Lemma move_inv src dst w w1 :
  Os.move src dst w = (Ok tt, w1) ->
  exists n fs1,
    FS.lookup src (fs w) = Some n /\
    FS.put (Os.real_dst src dst (fs w)) n (FS.remove src (fs w)) = Some fs1 /\
    w1 = set_fs fs1 w.
Proof.
  unfold Os.move.
  destruct (FS.lookup src (fs w)) as [n |] eqn:Hsrc; [| discriminate].
  destruct (FS.exists_ _ (fs w)); [discriminate |].
  unfold Os.commit.
  destruct (FS.put _ n _) as [fs1 |] eqn:Hput; [| discriminate].
  intros H. inversion H. exists n, fs1. auto.
Qed.

(** Cleaning up touches nothing that lies apart from what it deletes. *)
Lemma rmtree_ignore_frame p w r w1 :
  Os.rmtree_ignore_errors p w = (r, w1) ->
  r = Ok tt /\ stdin w1 = stdin w /\ console w1 = console w /\
  forall q, FS.apart p q = true -> FS.lookup q (fs w1) = FS.lookup q (fs w).
Proof.
  unfold Os.rmtree_ignore_errors.
  destruct (FS.lookup p (fs w)) as [[d | es] |]; intros H; inversion H;
    repeat split; auto.
  intros q Hq. apply FSFacts.lookup_remove_apart. exact Hq.
Qed.

Lemma unlink_frame p w w1 :
  Os.unlink_missing_ok p w = (Ok tt, w1) ->
  stdin w1 = stdin w /\ console w1 = console w /\
  forall q, FS.apart p q = true -> FS.lookup q (fs w1) = FS.lookup q (fs w).
Proof.
  unfold Os.unlink_missing_ok.
  destruct (FS.lookup p (fs w)) as [[d | es] |]; intros H; inversion H;
    repeat split; auto.
  intros q Hq. apply FSFacts.lookup_remove_apart. exact Hq.
Qed.

Lemma apart_app_r p q y : FS.apart p q = true -> FS.apart p (q ++ y) = true.
Proof.
  intros H. rewrite <- (app_nil_r p). apply FSFacts.apart_app. exact H.
Qed.

Lemma first_of_filter {A} (f : A -> bool) l x rest :
  filter f l = x :: rest -> In x l /\ f x = true.
Proof.
  intros H. apply filter_In. rewrite H. left. reflexivity.
Qed.

Ltac inv_bind_as H a w1 Hm :=
  apply bind_inv_ok in H; destruct H as (a & w1 & Hm & H).

Lemma filter_map_fst {A B} (f : B -> bool) (g : A -> B) l :
  filter f (map g l) = map g (filter (fun a => f (g a)) l).
Proof.
  induction l as [| a l IH]; simpl; auto.
  destruct (f (g a)); simpl; rewrite IH; reflexivity.
Qed.

Lemma snoc_not_nil {A} (l : list A) x : l ++ [x] <> [].
Proof. destruct l; discriminate. Qed.

(** Lines 180-204 when they return [True]: the folder picked in the
    extracted tree is moved, whole, to the [Mods] directory, where nothing
    of an earlier folder of that name is left. *)
Lemma place_package_success env pk rimworld w w' :
  FS.apart (rimworld ++ ["Mods"]) (cwd env ++ [pk_temp pk]) = true ->
  FS.apart (rimworld ++ ["Mods"]) (cwd env ++ [pk_zip pk]) = true ->
  place_package env pk rimworld w = (Ok true, w') ->
  installed_from env pk rimworld w w'.
Proof.
  intros Htemp Hzip H. unfold place_package in H. unfold installed_from.
  set (mods := rimworld ++ ["Mods"]) in *.
  set (temp := cwd env ++ [pk_temp pk]) in *.
  set (zip := cwd env ++ [pk_zip pk]) in *.
  inv_bind_as H entries w0 Hiter.
  apply iterdir_inv in Hiter. destruct Hiter as [-> (es & Hes & ->)].
  unfold bind at 1 in H. rewrite keep_dirs_run, filter_map_fst in H.
  destruct (filter (fun kn => FS.is_dir (temp ++ [fst kn]) (fs w)) es)
    as [| [name sub] others] eqn:Hfilter; cbn [map] in H.
  { inv_bind_as H u1 w1 H1. inv_bind_as H u2 w2 H2. inv_bind_as H u3 w3 H3.
    discriminate H. }
  cbn [fst] in H. rewrite FSFacts.name_snoc in H.
  destruct (first_of_filter _ _ _ _ Hfilter) as [_ Hdir]. cbn [fst] in Hdir.
  set (src := temp ++ [name]) in *.
  set (dest := mods ++ [name]) in *.
  assert (Hcontent : exists content, FS.lookup src (fs w) = Some (Dir content)).
  { unfold FS.is_dir in Hdir.
    destruct (FS.lookup src (fs w)) as [[d | content] |]; try discriminate.
    eauto. }
  destruct Hcontent as [content Hsrc].
  assert (Hds : FS.apart dest src = true)
    by (apply FSFacts.apart_app; exact Htemp).
  assert (Htd : forall rel, FS.apart temp (dest ++ rel) = true).
  { intros rel. unfold dest. rewrite <- app_assoc. apply apart_app_r.
    rewrite FSFacts.apart_sym. exact Htemp. }
  assert (Hzd : forall rel, FS.apart zip (dest ++ rel) = true).
  { intros rel. unfold dest. rewrite <- app_assoc. apply apart_app_r.
    rewrite FSFacts.apart_sym. exact Hzip. }
  (* the earlier installation, if any, is removed *)
  inv_bind_as H present wa Hpresent.
  unfold Os.exists_ in Hpresent. inversion Hpresent; subst present wa.
  clear Hpresent.
  inv_bind_as H u wb Hclear. destruct u.
  assert (Hb : FS.lookup dest (fs wb) = None /\
               FS.lookup src (fs wb) = Some (Dir content)).
  { destruct (FS.exists_ dest (fs w)) eqn:Hex.
    - inv_bind_as Hclear u0 w1 Hp. apply print_inv in Hp.
      destruct Hp as [_ ->]. apply rmtree_inv in Hclear. subst wb.
      cbn [fs set_fs emit]. split.
      + apply FSFacts.lookup_remove_same. apply snoc_not_nil.
      + rewrite (FSFacts.lookup_remove_apart _ _ _ Hds). exact Hsrc.
    - inversion Hclear; subst wb. split; [| exact Hsrc].
      unfold FS.exists_ in Hex.
      destruct (FS.lookup dest (fs w)); [discriminate | reflexivity]. }
  destruct Hb as [Hnone Hsrcb].
  (* the extracted folder is moved into place *)
  inv_bind_as H u1 wc Hmove. destruct u1.
  apply move_inv in Hmove. destruct Hmove as (n & fs1 & Hn & Hput & ->).
  rewrite Hsrcb in Hn. injection Hn as <-.
  assert (Hreal : Os.real_dst src dest (fs wb) = dest).
  { unfold Os.real_dst, FS.is_dir. rewrite Hnone. reflexivity. }
  rewrite Hreal in Hput.
  (* the rest only prints and cleans up *)
  inv_bind_as H u2 wd Hprint. apply print_inv in Hprint.
  destruct Hprint as [_ ->].
  inv_bind_as H u3 we Hclean. apply rmtree_ignore_frame in Hclean.
  destruct Hclean as (_ & _ & _ & Hframe1).
  inv_bind_as H u4 wf Hunlink. destruct u4.
  apply unlink_frame in Hunlink. destruct Hunlink as (_ & _ & Hframe2).
  inversion H; subst w'.
  assert (Hfinal : forall rel,
             FS.lookup (dest ++ rel) (fs wf) = FS.lookup rel (Dir content)).
  { intros rel. rewrite (Hframe2 _ (Hzd rel)), (Hframe1 _ (Htd rel)).
    cbn [fs set_fs emit]. apply (FSFacts.lookup_put_below _ _ _ _ _ Hput). }
  exists name, content. split; [| split; [exact Hsrc | split]].
  - unfold first_folder. rewrite Hes, Hfilter. reflexivity.
  - fold dest. rewrite <- (app_nil_r dest). apply Hfinal.
  - intros rel. fold dest. fold src.
    rewrite Hfinal, FSFacts.lookup_app, Hsrc. reflexivity.
Qed.

(* ================================================================== *)
(** * Extraction into a fresh directory *)
(* ================================================================== *)

Lemma set_fs_same w : set_fs (fs w) w = w.
Proof. destruct w. reflexivity. Qed.

Lemma files_only_ret {A} (a : A) : files_only (ret a).
Proof. intros w. unfold ret. cbn. rewrite set_fs_same. reflexivity. Qed.

Lemma files_only_fail {A} msg : files_only (@Os.fail A msg).
Proof. intros w. unfold Os.fail, raise. cbn. rewrite set_fs_same. reflexivity. Qed.

Lemma files_only_bind {A B} (m : M A) (k : A -> M B) :
  files_only m -> (forall a, files_only (k a)) -> files_only (bind m k).
Proof.
  intros Hm Hk w. unfold bind.
  rewrite (Hm w).
  destruct (m (blank (fs w))) as [[a | e] w1] eqn:Em; cbn [fst snd].
  - rewrite (Hk a (set_fs (fs w1) w)). cbn [fs set_fs].
    assert (E : w1 = blank (fs w1)).
    { pose proof (Hm (blank (fs w))) as H. rewrite Em in H.
      cbn [fs blank fst snd] in H. rewrite Em in H. cbn [fst snd] in H.
      injection H as Hw.
      transitivity (set_fs (fs w1) (blank (fs w))); [exact Hw | reflexivity]. }
    rewrite <- E. reflexivity.
  - reflexivity.
Qed.

Ltac files_only_os :=
  intros [f i c];
  unfold Os.is_dir, Os.mkdir, Os.makedirs, Os.open_wb, Os.append, Os.commit,
    Os.fail, raise, blank;
  cbn [fs set_fs fst snd stdin console];
  repeat (match goal with
          | |- context [match FS.lookup ?p ?g with _ => _ end] =>
              destruct (FS.lookup p g) as [[? | ?] |]
          | |- context [match FS.put ?p ?n ?g with _ => _ end] =>
              destruct (FS.put p n g)
          | |- context [match FS.makedirs ?p ?g with _ => _ end] =>
              destruct (FS.makedirs p g)
          end; cbn [fs set_fs fst snd stdin console]);
  reflexivity.

Lemma files_only_is_dir p : files_only (Os.is_dir p).
Proof. files_only_os. Qed.
Lemma files_only_mkdir p : files_only (Os.mkdir p).
Proof. files_only_os. Qed.
Lemma files_only_makedirs p : files_only (Os.makedirs p).
Proof. files_only_os. Qed.
Lemma files_only_open_wb p : files_only (Os.open_wb p).
Proof. files_only_os. Qed.
Lemma files_only_append p d : files_only (Os.append p d).
Proof. files_only_os. Qed.

Lemma files_only_extract_member p m : files_only (Os.extract_member p m).
Proof.
  unfold Os.extract_member.
  apply files_only_bind; [apply files_only_makedirs | intros _].
  destruct (m_is_dir m).
  - apply files_only_bind; [apply files_only_is_dir | intros d].
    destruct d; [apply files_only_ret | apply files_only_mkdir].
  - apply files_only_bind; [apply files_only_open_wb | intros _].
    apply files_only_bind; [apply files_only_append | intros _].
    destruct (m_error m); [apply files_only_fail | apply files_only_ret].
Qed.

Lemma files_only_extractall p members : files_only (Os.extractall p members).
Proof.
  induction members as [| m rest IH]; cbn [Os.extractall].
  - apply files_only_ret.
  - apply files_only_bind; [apply files_only_extract_member | intros _].
    exact IH.
Qed.

Lemma focus_set_fs p f w : focus p (set_fs f w) = set_fs (view p f) (focus p w).
Proof. reflexivity. Qed.











(** A successful install has downloaded, extracted and placed. *)
Lemma install_package_success env pk rimworld release_type w w' :
  install_package env pk rimworld release_type w = (Ok true, w') ->
  exists wz wx,
    extracted_in env pk rimworld release_type w wz wx /\
    place_package env pk rimworld wx = (Ok true, w').
Proof.
  intros H. unfold install_package in H.
  inv_bind_as H u1 w1 H1. apply print_inv in H1. destruct H1 as [_ ->].
  inv_bind_as H u2 w2 H2. destruct u2.
  inv_bind_as H url w3 H3.
  destruct (Py.truthy url) eqn:Hurl; cbn [negb] in H.
  2: { inv_bind_as H u4 w4 H4. discriminate H. }
  inv_bind_as H downloaded wz Hdl.
  destruct downloaded; cbn [negb] in H; [| discriminate H].
  inv_bind_as H extracted wx Hex.
  destruct extracted; cbn [negb] in H.
  - exists wz, wx. split; [| exact H].
    exists w2, url, w3. auto.
  - inv_bind_as H u5 w5 H5. discriminate H.
Qed.





(** C3, where the code departs from it.  Two runs of
    [install_harmony_mod] on the sample world, whose scratch paths do not
    exist beforehand.  When a member of the archive fails its CRC check,
    the install returns [False] and the extraction directory is still
    there; when the connection breaks during the download, it returns
    [False] and the partial archive is still there.  (On the sample where
    everything works, both are gone.) *)
Theorem cleanup_skipped_on_early_return :
  let w := Sample.world [] [] in
  let temp_extract := cwd Sample.env ++ ["temp_harmony"] in
  let temp_zip := cwd Sample.env ++ ["HarmonyMod.zip"] in
  let corrupt := install_harmony_mod Sample.env_corrupt Sample.game w in
  let dropped := install_harmony_mod Sample.env_dropped Sample.game w in
  let fine := install_harmony_mod Sample.env Sample.game w in
  FS.exists_ temp_extract (fs w) = false /\
  FS.exists_ temp_zip (fs w) = false /\
  (fst corrupt = Ok false /\
   FS.is_dir temp_extract (fs (snd corrupt)) = true /\
   FS.exists_ temp_zip (fs (snd corrupt)) = false) /\
  (fst dropped = Ok false /\
   FS.lookup temp_zip (fs (snd dropped)) = Some (File (Sample.b "PK"))) /\
  (fst fine = Ok true /\
   FS.exists_ temp_extract (fs (snd fine)) = false /\
   FS.exists_ temp_zip (fs (snd fine)) = false).
Proof. vm_compute. repeat split; reflexivity. Qed.

(* ================================================================== *)
(** * The orchestrator *)
(* ================================================================== *)

Lemma calm_update_body env required :
  uninterrupted
    (data <- Os.read (config_file env);;
     root <- lift (xml_parse env data);;
     if list_eqb (firstn 3 (current_mods_of root)) required then
       (print "ModsConfig.xml already has the correct configuration. No changes needed.";;
        ret true)
     else
       (Os.copy2 (config_file env) (backup_file env);;
        print ("Backup created at: " +++ path_str (backup_file env));;
        Os.open_wb (config_file env);;
        Os.append (config_file env) (xml_tostring env (patched required root));;
        print "ModsConfig.xml updated successfully!";;
        ret true)).
Proof. auto 20 with calm. Qed.

(** The patcher always returns a flag (lines 326-328). *)
Lemma update_mods_config_returns env rimworld w :
  exists b w', update_mods_config env rimworld w = (Ok b, w').
Proof.
  unfold update_mods_config, update_mods_config_with.
  rewrite (bind_ok _ _ w tt _) by reflexivity.
  unfold bind at 1, Os.exists_. cbn [fs emit].
  destruct (negb (FS.exists_ (config_file env) (fs w))).
  - eexists. eexists. reflexivity.
  - apply try_except_returns.
    + apply calm_update_body.
    + intros e v. eexists. eexists. reflexivity.
Qed.

(** The [try] block of [main] returns 0 or 1 when it returns. *)
Lemma main_body_code env w code w' :
  main_body env w = (Ok code, w') -> code = 0 \/ code = 1.
Proof.
  intros H. unfold main_body in H.
  inv_bind_as H p w1 H1. inv_bind_as H harmony w2 H2.
  destruct harmony; cbn [negb] in H.
  - inv_bind_as H rt w3 H3. inv_bind_as H access w4 H4.
    destruct access; cbn [negb] in H.
    + inv_bind_as H b w5 H5. inv_bind_as H u w6 H6.
      inversion H. auto.
    + inv_bind_as H u w5 H5. inversion H. auto.
  - inv_bind_as H u w3 H3. inversion H. auto.
Qed.

Lemma main_of_body env w :
  main env w
  = match main_body env (say "RimWorld Access Mod Installer" w) with
    | (Raise KeyboardInterrupt, w') =>
        (Ok 1, say (PyStr.nl +++ PyStr.nl +++ "Installation cancelled by user.") w')
    | (Raise (Exception e), w') =>
        (Ok 1, say (PyStr.nl +++ PyStr.nl +++ "Unexpected error: " +++ e) w')
    | done => done
    end.
Proof.
  unfold main. rewrite (bind_ok _ _ w tt _) by reflexivity.
  unfold say.
  destruct (main_body env (emit (Out "RimWorld Access Mod Installer") w))
    as [[c | [e |]] w']; reflexivity.
Qed.

Lemma main_of_raise env w e w' :
  main_body env (say "RimWorld Access Mod Installer" w) = (Raise e, w') ->
  fst (main env w) = Ok 1.
Proof.
  intros H. rewrite main_of_body, H. destruct e; reflexivity.
Qed.

Lemma main_of_code env w c w' :
  main_body env (say "RimWorld Access Mod Installer" w) = (Ok c, w') ->
  main env w = (Ok c, w').
Proof. intros H. rewrite main_of_body, H. reflexivity. Qed.

(** A step of the [try] block that does not yield [True] ends the run
    with status 1: it raised, or it returned [False] and line 344 (or 372)
    returns 1. *)
Lemma aborts_with_one env w (install : M bool) (k : M Z) r w1 wa msg :
  install wa = (r, w1) ->
  r <> Ok true ->
  (main_body env (say "RimWorld Access Mod Installer" w)
   = (harmony <- install;;
      if negb harmony then (print msg;; ret 1) else k) wa) ->
  fst (main env w) = Ok 1.
Proof.
  intros Hrun Hr Hbody.
  destruct r as [[|] | e].
  - congruence.
  - rewrite (bind_ok _ _ _ _ _ Hrun) in Hbody. cbn [negb] in Hbody.
    rewrite (main_of_code env w 1 (say msg w1)); [reflexivity |].
    rewrite Hbody. reflexivity.
  - rewrite (bind_raise _ _ _ _ _ Hrun) in Hbody.
    apply (main_of_raise env w e w1 Hbody).
Qed.

(** C5.  [main] always returns 0 or 1.  It returns 1 when the resolution
    of the game directory raises (an interrupt at the prompt, the end of
    the input), when the Harmony install does not succeed, when the choice
    of the channel raises (an interrupt again), and when the RimWorld
    Access install does not succeed.  Once both installs have succeeded it
    returns 0 whatever flag [update_mods_config] returns. *)
Theorem main_exit_status env w :
  let w0 := say "RimWorld Access Mod Installer" w in
  (exists code w', main env w = (Ok code, w') /\ (code = 0 \/ code = 1)) /\
  (forall e w1,
      find_rimworld_directory env w0 = (Raise e, w1) ->
      fst (main env w) = Ok 1) /\
  (forall p w1,
      find_rimworld_directory env w0 = (Ok p, w1) ->
      (forall r w2,
          install_harmony_mod env p w1 = (r, w2) ->
          r <> Ok true ->
          fst (main env w) = Ok 1) /\
      (forall w2,
          install_harmony_mod env p w1 = (Ok true, w2) ->
          (forall e w3,
              choose_release_type w2 = (Raise e, w3) ->
              fst (main env w) = Ok 1) /\
          (forall release_type w3,
              choose_release_type w2 = (Ok release_type, w3) ->
              (forall r w4,
                  install_rimworld_access_mod env p release_type w3 = (r, w4) ->
                  r <> Ok true ->
                  fst (main env w) = Ok 1) /\
              (forall w4,
                  install_rimworld_access_mod env p release_type w3
                  = (Ok true, w4) ->
                  exists b w5,
                    update_mods_config env p w4 = (Ok b, w5) /\
                    main env w
                    = (Ok 0, say "Installation complete!" w5))))).
Proof.
  cbn zeta. set (w0 := say "RimWorld Access Mod Installer" w).
  split; [| split].
  - rewrite main_of_body. fold w0.
    destruct (main_body env w0) as [[c | [e |]] w'] eqn:Hbody.
    + exists c, w'. split; [reflexivity |].
      apply (main_body_code env w0 c w' Hbody).
    + eexists. eexists. split; [reflexivity | auto].
    + eexists. eexists. split; [reflexivity | auto].
  - intros e w1 Hfind. apply (main_of_raise env w e w1).
    fold w0. unfold main_body. apply bind_raise. exact Hfind.
  - intros p w1 Hfind.
    assert (Hbody1 : main_body env w0
                     = (harmony <- install_harmony_mod env p;;
                        if negb harmony then
                          (print (PyStr.nl +++ "Failed to install Harmony mod. Installation aborted.");;
                           ret 1)
                        else
                          (release_type <- choose_release_type;;
                           access <- install_rimworld_access_mod env p release_type;;
                           if negb access then
                             (print (PyStr.nl +++ "Failed to install RimWorld Access mod. Installation aborted.");;
                              ret 1)
                           else
                             (update_mods_config env p;;
                              print "Installation complete!";;
                              ret 0))) w1).
    { unfold main_body. rewrite (bind_ok _ _ _ _ _ Hfind). reflexivity. }
    split.
    + intros r w2 Hrun Hr.
      apply (aborts_with_one env w _ _ r w2 w1 _ Hrun Hr Hbody1).
    + intros w2 Hharmony.
      rewrite (bind_ok _ _ _ _ _ Hharmony) in Hbody1. cbn [negb] in Hbody1.
      split.
      * intros e w3 Hchoose. apply (main_of_raise env w e w3).
        fold w0. rewrite Hbody1. apply bind_raise. exact Hchoose.
      * intros release_type w3 Hchoose.
        rewrite (bind_ok _ _ _ _ _ Hchoose) in Hbody1.
        split.
        -- intros r w4 Hrun Hr.
           apply (aborts_with_one env w _ _ r w4 w3 _ Hrun Hr Hbody1).
        -- intros w4 Haccess.
           rewrite (bind_ok _ _ _ _ _ Haccess) in Hbody1.
           cbn [negb] in Hbody1.
           destruct (update_mods_config_returns env p w4) as (b & w5 & Hup).
           exists b, w5. split; [exact Hup |].
           apply main_of_code. fold w0. rewrite Hbody1.
           rewrite (bind_ok _ _ _ _ _ Hup). reflexivity.
Qed.

(** C5 on the sample.  With a configuration file that does not parse,
    both installs succeed, the patch returns [False] and the run ends with
    status 0; with a connection that breaks during the first download the
    run ends with status 1; so does a run interrupted at the channel
    prompt. *)
Lemma main_exit_status_witness :
  let w := Sample.world (Sample.b "<broken")
                        [Line "C:\Games\RimWorld"; Line "1"] in
  let w0 := say "RimWorld Access Mod Installer" w in
  let w1 := snd (find_rimworld_directory Sample.env w0) in
  let w2 := snd (install_harmony_mod Sample.env Sample.game w1) in
  let w3 := snd (choose_release_type w2) in
  let w4 := snd (install_rimworld_access_mod Sample.env Sample.game
                                             "stable" w3) in
  let interrupted := Sample.world (Sample.b "<broken")
                                  [Line "C:\Games\RimWorld"; CtrlC] in
  fst (update_mods_config Sample.env Sample.game w4) = Ok false /\
  (exists b w5,
      update_mods_config Sample.env Sample.game w4 = (Ok b, w5) /\
      main Sample.env w = (Ok 0, say "Installation complete!" w5)) /\
  fst (main Sample.env_dropped w) = Ok 1 /\
  fst (main Sample.env interrupted) = Ok 1.
Proof.
  intros w w0 w1 w2 w3 w4 interrupted.
  split; [vm_compute; reflexivity |].
  split; [| split].
  - assert (Hfind : find_rimworld_directory Sample.env w0
                    = (Ok Sample.game, w1)) by (vm_compute; reflexivity).
    assert (Hharmony : install_harmony_mod Sample.env Sample.game w1
                       = (Ok true, w2)) by (vm_compute; reflexivity).
    assert (Hchoose : choose_release_type w2 = (Ok "stable", w3))
      by (vm_compute; reflexivity).
    assert (Haccess : install_rimworld_access_mod Sample.env Sample.game
                        "stable" w3 = (Ok true, w4))
      by (vm_compute; reflexivity).
    exact (proj2 (proj2 (proj2 (proj2 (proj2 (main_exit_status Sample.env w))
                                 Sample.game w1 Hfind)
                          w2 Hharmony)
                   "stable" w3 Hchoose)
             w4 Haccess).
  - set (v1 := snd (find_rimworld_directory Sample.env_dropped w0)).
    assert (Hfind : find_rimworld_directory Sample.env_dropped w0
                    = (Ok Sample.game, v1)) by (vm_compute; reflexivity).
    set (v2 := snd (install_harmony_mod Sample.env_dropped Sample.game v1)).
    assert (Hharmony : install_harmony_mod Sample.env_dropped Sample.game v1
                       = (Ok false, v2)) by (vm_compute; reflexivity).
    assert (Hr : Ok false <> Ok true) by discriminate.
    exact (proj1 (proj2 (proj2 (main_exit_status Sample.env_dropped w))
                   Sample.game v1 Hfind)
             (Ok false) v2 Hharmony Hr).
  - set (i0 := say "RimWorld Access Mod Installer" interrupted).
    set (i1 := snd (find_rimworld_directory Sample.env i0)).
    assert (Hfind : find_rimworld_directory Sample.env i0
                    = (Ok Sample.game, i1)) by (vm_compute; reflexivity).
    set (i2 := snd (install_harmony_mod Sample.env Sample.game i1)).
    assert (Hharmony : install_harmony_mod Sample.env Sample.game i1
                       = (Ok true, i2)) by (vm_compute; reflexivity).
    set (i3 := snd (choose_release_type i2)).
    assert (Hchoose : choose_release_type i2 = (Raise KeyboardInterrupt, i3))
      by (vm_compute; reflexivity).
    exact (proj1 (proj2 (proj2 (proj2 (main_exit_status Sample.env
                                         interrupted))
                          Sample.game i1 Hfind)
                   i2 Hharmony)
             KeyboardInterrupt i3 Hchoose).
Defined.

(* ================================================================== *)
(** * What the installer leaves alone *)
(* ================================================================== *)

(** [makedirs] changes nothing but the directories on the way to [p]. *)
Lemma lookup_makedirs_off p : forall q f f',
  FS.is_prefix q p = false -> FS.makedirs p f = Some f' ->
  FS.lookup q f' = FS.lookup q f.
Proof.
  induction p as [| c p IH]; intros q f f' Hq H.
  - destruct f; simpl in H; [discriminate |]. injection H as <-. reflexivity.
  - destruct f as [| es]; simpl in H; [discriminate |].
    destruct q as [| b q]; [simpl in Hq; discriminate |]. simpl in Hq.
    destruct (FS.makedirs p
                (match FS.entry c es with Some s => s | None => Dir [] end))
      as [sub' |] eqn:Hm; [| discriminate].
    injection H as <-. cbn [FS.lookup].
    destruct (String.eqb b c) eqn:Ebc.
    + apply String.eqb_eq in Ebc. subst b. simpl in Hq.
      rewrite FSFacts.entry_set_same.
      rewrite (IH q _ _ Hq Hm).
      destruct (FS.entry c es) as [s |]; [reflexivity |].
      destruct q as [| x q]; [destruct p; discriminate |]. reflexivity.
    + apply String.eqb_neq in Ebc.
      rewrite FSFacts.entry_set_other by congruence. reflexivity.
Qed.

Lemma is_prefix_app p x : FS.is_prefix p (p ++ x) = true.
Proof.
  induction p as [| c p IH]; [reflexivity |].
  simpl. rewrite String.eqb_refl. exact IH.
Qed.

Lemma is_prefix_removelast p : FS.is_prefix (removelast p) p = true.
Proof.
  induction p as [| c p IH]; [reflexivity |].
  destruct p as [| d p]; [reflexivity |].
  change (removelast (c :: d :: p)) with (c :: removelast (d :: p)).
  cbn [FS.is_prefix]. rewrite String.eqb_refl. exact IH.
Qed.

Lemma is_prefix_trans p : forall q r,
  FS.is_prefix p q = true -> FS.is_prefix q r = true ->
  FS.is_prefix p r = true.
Proof.
  induction p as [| a p IH]; intros q r Hpq Hqr; [reflexivity |].
  destruct q as [| b q]; [discriminate |].
  destruct r as [| c r]; [discriminate |].
  simpl in *. apply andb_true_iff in Hpq. destruct Hpq as [E1 H1].
  apply andb_true_iff in Hqr. destruct Hqr as [E2 H2].
  apply String.eqb_eq in E1. apply String.eqb_eq in E2. subst b c.
  rewrite String.eqb_refl. simpl. exact (IH _ _ H1 H2).
Qed.

(** A path that parts ways with [p] leads to none of the directories on
    the way to something below [p]. *)
Lemma apart_off_the_way p q r :
  FS.apart p q = true ->
  FS.is_prefix r p = true \/ FS.is_prefix p r = true ->
  FS.is_prefix q r = false.
Proof.
  intros Ha Hr.
  destruct (FS.is_prefix q r) eqn:Hq; [| reflexivity].
  apply FSFacts.apart_iff in Ha. destruct Ha as [Hpq Hqp].
  destruct Hr as [Hr | Hr].
  - rewrite (is_prefix_trans _ _ _ Hq Hr) in Hqp. discriminate.
  - exfalso. revert q r Hpq Hqp Hq Hr.
    induction p as [| a p IH]; intros q r Hpq Hqp Hq Hr;
      [simpl in Hpq; discriminate |].
    destruct r as [| c r]; [simpl in Hr; discriminate |].
    destruct q as [| b q]; [simpl in Hqp; discriminate |].
    simpl in *.
    apply andb_true_iff in Hq. destruct Hq as [E1 H1].
    apply andb_true_iff in Hr. destruct Hr as [E2 H2].
    apply String.eqb_eq in E1. apply String.eqb_eq in E2. subst.
    rewrite String.eqb_refl in Hpq, Hqp. simpl in Hpq, Hqp.
    exact (IH _ _ Hpq Hqp H1 H2).
Qed.

Create HintDb frame.

Lemma keeps_ret q {A} (a : A) : keeps q (ret a).
Proof. intros w. reflexivity. Qed.

Lemma keeps_fail q {A} msg : keeps q (@Os.fail A msg).
Proof. intros w. reflexivity. Qed.

Lemma keeps_lift q {A} (o : outcome A) : keeps q (lift o).
Proof. destruct o; intros w; reflexivity. Qed.

Lemma keeps_print q s : keeps q (print s).
Proof. intros w. reflexivity. Qed.

Lemma keeps_print_progress q a b : keeps q (print_progress a b).
Proof. intros w. reflexivity. Qed.

Lemma keeps_input q s : keeps q (input s).
Proof. intros w. unfold input. destruct (stdin w) as [| [l |] r]; reflexivity. Qed.

Lemma keeps_bind q {A B} (m : M A) (k : A -> M B) :
  keeps q m -> (forall a, keeps q (k a)) -> keeps q (bind m k).
Proof.
  intros Hm Hk w. unfold bind. specialize (Hm w).
  destruct (m w) as [[a | e] w1]; simpl in *.
  - rewrite Hk. exact Hm.
  - exact Hm.
Qed.

Lemma keeps_try q {A} (body : M A) (handler : string -> M A) :
  keeps q body -> (forall e, keeps q (handler e)) ->
  keeps q (try_except body handler).
Proof.
  intros Hb Hh w. unfold try_except. specialize (Hb w).
  destruct (body w) as [[a | [msg |]] w1]; simpl in *; try exact Hb.
  rewrite Hh. exact Hb.
Qed.

Lemma keeps_exists q p : keeps q (Os.exists_ p).
Proof. intros w. reflexivity. Qed.

Lemma keeps_is_dir q p : keeps q (Os.is_dir p).
Proof. intros w. reflexivity. Qed.

Lemma keeps_read q p : keeps q (Os.read p).
Proof.
  intros w. unfold Os.read. destruct (FS.lookup p (fs w)) as [[|] |]; reflexivity.
Qed.

Lemma keeps_iterdir q p : keeps q (Os.iterdir p).
Proof.
  intros w. unfold Os.iterdir.
  destruct (FS.lookup p (fs w)) as [[|] |]; reflexivity.
Qed.

Lemma keeps_put q p n err :
  FS.apart p q = true ->
  forall w, FS.lookup q (fs (snd (Os.commit (FS.put p n (fs w)) err w)))
            = FS.lookup q (fs w).
Proof.
  intros Ha w. unfold Os.commit.
  destruct (FS.put p n (fs w)) as [f |] eqn:E; [| reflexivity].
  simpl. exact (FSFacts.lookup_put_apart _ _ _ _ _ Ha E).
Qed.

Lemma keeps_mkdir q p : FS.apart p q = true -> keeps q (Os.mkdir p).
Proof.
  intros Ha w. unfold Os.mkdir.
  destruct (FS.lookup p (fs w)); [reflexivity | apply keeps_put; exact Ha].
Qed.

Lemma keeps_open_wb q p : FS.apart p q = true -> keeps q (Os.open_wb p).
Proof.
  intros Ha w. unfold Os.open_wb.
  destruct (FS.lookup p (fs w)) as [[|] |];
    try reflexivity; apply keeps_put; exact Ha.
Qed.

Lemma keeps_append q p data :
  FS.apart p q = true -> keeps q (Os.append p data).
Proof.
  intros Ha w. unfold Os.append.
  destruct (FS.lookup p (fs w)) as [[|] |];
    try reflexivity; apply keeps_put; exact Ha.
Qed.

Lemma keeps_unlink q p :
  FS.apart p q = true -> keeps q (Os.unlink_missing_ok p).
Proof.
  intros Ha w. unfold Os.unlink_missing_ok.
  destruct (FS.lookup p (fs w)) as [[|] |]; try reflexivity.
  simpl. apply FSFacts.lookup_remove_apart. exact Ha.
Qed.

Lemma keeps_rmtree_ignore q p :
  FS.apart p q = true -> keeps q (Os.rmtree_ignore_errors p).
Proof.
  intros Ha w. unfold Os.rmtree_ignore_errors.
  destruct (FS.lookup p (fs w)) as [[|] |]; try reflexivity.
  simpl. apply FSFacts.lookup_remove_apart. exact Ha.
Qed.

Lemma keeps_makedirs q p :
  FS.is_prefix q p = false -> keeps q (Os.makedirs p).
Proof.
  intros Hq w. unfold Os.makedirs, Os.commit.
  destruct (FS.makedirs p (fs w)) as [f |] eqn:E; [| reflexivity].
  simpl. exact (lookup_makedirs_off _ _ _ _ Hq E).
Qed.

(** The directory a member is extracted into is on the way to the
    extraction directory, or below it. *)
Lemma member_parent_on_the_way p rel :
  FS.is_prefix (FS.parent (p ++ rel)) p = true \/
  FS.is_prefix p (FS.parent (p ++ rel)) = true.
Proof.
  unfold FS.parent. destruct rel as [| c rel].
  - left. rewrite app_nil_r. apply is_prefix_removelast.
  - right. rewrite removelast_app by discriminate. apply is_prefix_app.
Qed.

Lemma keeps_extract_member q p m :
  FS.apart p q = true -> keeps q (Os.extract_member p m).
Proof.
  intros Ha. unfold Os.extract_member.
  assert (Ht : FS.apart (p ++ m_path m) q = true).
  { rewrite <- (app_nil_r q). apply FSFacts.apart_app. exact Ha. }
  apply keeps_bind.
  - apply keeps_makedirs.
    exact (apart_off_the_way _ _ _ Ha (member_parent_on_the_way p (m_path m))).
  - intros _. destruct (m_is_dir m).
    + apply keeps_bind; [apply keeps_is_dir |].
      intros [|]; [apply keeps_ret | apply keeps_mkdir; exact Ht].
    + apply keeps_bind; [apply keeps_open_wb; exact Ht |]. intros _.
      apply keeps_bind; [apply keeps_append; exact Ht |]. intros _.
      destruct (m_error m); [apply keeps_fail | apply keeps_ret].
Qed.

Lemma keeps_extractall q p members :
  FS.apart p q = true -> keeps q (Os.extractall p members).
Proof.
  intros Ha. induction members as [| m rest IH]; simpl.
  - apply keeps_ret.
  - apply keeps_bind; [apply keeps_extract_member; exact Ha |].
    intros _. exact IH.
Qed.

#[export] Hint Resolve keeps_ret keeps_fail keeps_lift keeps_print
  keeps_print_progress keeps_input keeps_exists keeps_is_dir keeps_read
  keeps_iterdir keeps_mkdir keeps_open_wb keeps_append keeps_unlink
  keeps_rmtree_ignore keeps_extractall : frame.

Ltac frame :=
  repeat first
    [ apply keeps_bind; [| intros ?]
    | apply keeps_try; [| intros ?]
    | solve [auto with frame]
    | match goal with
      | |- keeps _ (if ?b then _ else _) => destruct b
      | |- keeps _ (match ?o with Some _ => _ | None => _ end) => destruct o
      end ].

Lemma keeps_write_chunks q destination total pending : forall downloaded,
  FS.apart destination q = true ->
  keeps q (write_chunks destination total pending downloaded).
Proof.
  induction pending as [| chunk rest IH]; intros downloaded Ha; simpl.
  - apply keeps_ret.
  - destruct chunk as [| x chunk]; [apply IH; exact Ha |].
    apply keeps_bind; [apply keeps_append; exact Ha |]. intros _.
    apply keeps_bind; [destruct (0 <? total); auto with frame |].
    intros _. apply IH. exact Ha.
Qed.

Lemma keeps_http_get q env url : keeps q (http_get env url).
Proof. destruct url; simpl; auto with frame. Qed.

Lemma keeps_raise_for_status q r : keeps q (raise_for_status r).
Proof. unfold raise_for_status. destruct (status_error r); auto with frame. Qed.

Lemma keeps_total_size_of q r : keeps q (total_size_of r).
Proof. unfold total_size_of. destruct (content_length r); auto with frame. Qed.

#[export] Hint Resolve keeps_http_get keeps_raise_for_status
  keeps_total_size_of keeps_write_chunks : frame.

Lemma keeps_download_file q env url destination :
  FS.apart destination q = true ->
  keeps q (download_file env url destination).
Proof. intros Ha. unfold download_file. frame. Qed.

Lemma keeps_extract_zip q env zip_path extract_to :
  FS.apart extract_to q = true ->
  keeps q (extract_zip env zip_path extract_to).
Proof. intros Ha. unfold extract_zip. frame. Qed.

(** X1.  [download_file] changes nothing but its destination: whatever
    the URL, the answer of the server and the outcome, every path that
    is neither the destination, nor below it, nor a directory above it
    leads to what it led to before. *)
Theorem download_file_writes_only_destination env url destination w q :
  FS.apart destination q = true ->
  FS.lookup q (fs (snd (download_file env url destination w)))
  = FS.lookup q (fs w).
Proof. intros Ha. exact (keeps_download_file q env url destination Ha w). Qed.

(** X1 on the sample: the archive arrives in the working directory and
    the installed game is as before. *)
Lemma download_file_writes_only_destination_witness :
  let w := Sample.world [] [] in
  let url := JStr "https://dl.example/HarmonyMod.zip" in
  let destination := cwd Sample.env ++ ["HarmonyMod.zip"] in
  let w' := snd (download_file Sample.env url destination w) in
  FS.apart destination Sample.game = true /\
  FS.lookup destination (fs w') = Some (File (Sample.b "PKharmony")) /\
  FS.lookup Sample.game (fs w') = FS.lookup Sample.game (fs w).
Proof.
  intros w url destination w'.
  split; [reflexivity |]. split; [vm_compute; reflexivity |].
  exact (download_file_writes_only_destination Sample.env url destination w
           Sample.game eq_refl).
Defined.

(** X2.  [extract_zip] changes nothing outside the directory it extracts
    into: whether the extraction succeeds or stops half-way, every path
    that parts ways with [extract_to] leads to what it led to before (the
    archive itself included, when it is not inside [extract_to]). *)
Theorem extract_zip_writes_only_below env zip_path extract_to w q :
  FS.apart extract_to q = true ->
  FS.lookup q (fs (snd (extract_zip env zip_path extract_to w)))
  = FS.lookup q (fs w).
Proof. intros Ha. exact (keeps_extract_zip q env zip_path extract_to Ha w). Qed.

(** X2 on the sample: the extraction stops at the corrupt second member,
    and the archive next to the scratch directory is untouched. *)
Lemma extract_zip_writes_only_below_witness :
  let zip_path := cwd Sample.env_corrupt ++ ["HarmonyMod.zip"] in
  let extract_to := cwd Sample.env_corrupt ++ ["temp_harmony"] in
  let w := snd (download_file Sample.env_corrupt
                  (JStr "https://dl.example/HarmonyMod.zip") zip_path
                  (Sample.world [] [])) in
  let w' := snd (extract_zip Sample.env_corrupt zip_path extract_to w) in
  FS.apart extract_to zip_path = true /\
  fst (extract_zip Sample.env_corrupt zip_path extract_to w) = Ok false /\
  FS.exists_ (extract_to ++ ["HarmonyMod"; "About"; "About.xml"]) (fs w')
  = true /\
  FS.lookup zip_path (fs w') = FS.lookup zip_path (fs w).
Proof.
  intros zip_path extract_to w w'.
  split; [reflexivity |]. split; [vm_compute; reflexivity |].
  split; [vm_compute; reflexivity |].
  exact (extract_zip_writes_only_below Sample.env_corrupt zip_path extract_to
           w zip_path eq_refl).
Defined.

(* ------------------------------------------------------------------ *)
(** ** The release lookup has no effect but its messages *)

Lemma read_only_ret {A} (a : A) : read_only (ret a).
Proof. intros w. split; reflexivity. Qed.

Lemma read_only_fail {A} msg : read_only (@Os.fail A msg).
Proof. intros w. split; reflexivity. Qed.

Lemma read_only_lift {A} (o : outcome A) : read_only (lift o).
Proof. destruct o; intros w; split; reflexivity. Qed.

Lemma read_only_print s : read_only (print s).
Proof. intros w. split; reflexivity. Qed.

Lemma read_only_bind {A B} (m : M A) (k : A -> M B) :
  read_only m -> (forall a, read_only (k a)) -> read_only (bind m k).
Proof.
  intros Hm Hk w. unfold bind. specialize (Hm w).
  destruct (m w) as [[a | e] w1]; simpl in *.
  - destruct (Hk a w1) as [H1 H2]. destruct Hm as [H3 H4].
    split; congruence.
  - exact Hm.
Qed.

Lemma read_only_try {A} (body : M A) (handler : string -> M A) :
  read_only body -> (forall e, read_only (handler e)) ->
  read_only (try_except body handler).
Proof.
  intros Hb Hh w. unfold try_except. specialize (Hb w).
  destruct (body w) as [[a | [msg |]] w1]; simpl in *; try exact Hb.
  destruct (Hh msg w1) as [H1 H2]. destruct Hb as [H3 H4].
  split; congruence.
Qed.

Lemma read_only_http_get env url : read_only (http_get env url).
Proof.
  destruct url; simpl;
    first [apply read_only_fail | apply read_only_lift].
Qed.

Lemma read_only_raise_for_status r : read_only (raise_for_status r).
Proof.
  unfold raise_for_status.
  destruct (status_error r); [apply read_only_fail | apply read_only_ret].
Qed.

#[export] Hint Resolve read_only_ret read_only_fail read_only_lift
  read_only_print read_only_http_get read_only_raise_for_status : frame.

Ltac quiet :=
  repeat first
    [ apply read_only_bind; [| intros ?]
    | apply read_only_try; [| intros ?]
    | solve [auto with frame]
    | match goal with
      | |- read_only (if ?b then _ else _) => destruct b
      | |- read_only (match ?o with Some _ => _ | None => _ end) => destruct o
      | |- read_only (match ?l with [] => _ | _ :: _ => _ end) => destruct l
      end ].

Lemma read_only_select_release env repo release_type :
  read_only (select_release env repo release_type).
Proof. unfold select_release. quiet. Qed.

Lemma read_only_first_zip env latest_release assets :
  read_only (first_zip env latest_release assets).
Proof. induction assets as [| a rest IH]; simpl; quiet. Qed.

Lemma read_only_get_latest env repo release_type :
  read_only (get_latest_github_release env repo release_type).
Proof.
  unfold get_latest_github_release, find_zip_asset.
  pose proof (read_only_select_release env repo release_type).
  pose proof (read_only_first_zip env).
  quiet.
Qed.

Lemma read_only_keeps q {A} (m : M A) : read_only m -> keeps q m.
Proof. intros H w. destruct (H w) as [E _]. rewrite E. reflexivity. Qed.

(** X3.  Looking up a release touches no file and reads no input,
    whatever the API answers: all it does is print. *)
Theorem release_lookup_has_no_side_effect env repo release_type w :
  fs (snd (get_latest_github_release env repo release_type w)) = fs w /\
  stdin (snd (get_latest_github_release env repo release_type w)) = stdin w.
Proof. exact (read_only_get_latest env repo release_type w). Qed.

(* ------------------------------------------------------------------ *)
(** ** The end of an install: cleaning up *)

Lemma is_dir_remove_below p : forall rel f,
  rel <> [] -> FS.is_dir p f = true ->
  FS.is_dir p (FS.remove (p ++ rel) f) = true.
Proof.
  unfold FS.is_dir.
  induction p as [| c p IH]; intros rel f Hrel H.
  - destruct rel as [| r rel]; [congruence |].
    destruct f as [| es]; [discriminate |]. simpl.
    destruct rel; [reflexivity |]. destruct (FS.entry r es); reflexivity.
  - destruct f as [| es]; [discriminate |].
    cbn [FS.lookup] in H.
    destruct (FS.entry c es) as [sub |] eqn:Ec; [| discriminate].
    change ((c :: p) ++ rel) with (c :: (p ++ rel)). cbn [FS.remove].
    destruct (p ++ rel) as [| x y] eqn:Epr.
    { apply app_eq_nil in Epr. destruct Epr as [_ Epr]. congruence. }
    rewrite Ec. cbn [FS.lookup]. rewrite FSFacts.entry_set_same.
    rewrite <- Epr. apply IH; assumption.
Qed.

Lemma apart_not_nil_r p q : FS.apart p q = true -> q <> [].
Proof. destruct p, q; simpl; congruence. Qed.

Lemma apart_not_nil_l p q : FS.apart p q = true -> p <> [].
Proof. destruct p, q; simpl; congruence. Qed.

(** Lines 186-188 and 201-204: what the two clean-up calls leave. *)
Lemma cleanup_run temp zip (b b' : bool) w w' :
  FS.apart zip temp = true ->
  FS.is_dir temp (fs w) = true ->
  (Os.rmtree_ignore_errors temp;; Os.unlink_missing_ok zip;; ret b) w
  = (Ok b', w') ->
  b' = b /\
  FS.lookup temp (fs w') = None /\ FS.lookup zip (fs w') = None /\
  forall q, FS.apart temp q = true -> FS.apart zip q = true ->
            FS.lookup q (fs w') = FS.lookup q (fs w).
Proof.
  intros Hzt Hdir H.
  inv_bind_as H u1 w1 H1. inv_bind_as H u2 w2 H2. destruct u2.
  unfold ret in H. injection H as <- <-.
  assert (Ht1 : FS.lookup temp (fs w1) = None).
  { unfold Os.rmtree_ignore_errors in H1. unfold FS.is_dir in Hdir.
    destruct (FS.lookup temp (fs w)) as [[d | es] |]; try discriminate.
    injection H1 as _ <-. cbn [fs set_fs].
    apply FSFacts.lookup_remove_same. exact (apart_not_nil_r _ _ Hzt). }
  apply rmtree_ignore_frame in H1. destruct H1 as (_ & _ & _ & F1).
  pose proof (unlink_frame _ _ _ H2) as (_ & _ & F2).
  split; [reflexivity |]. split; [| split].
  - rewrite (F2 _ Hzt). exact Ht1.
  - unfold Os.unlink_missing_ok in H2.
    destruct (FS.lookup zip (fs w1)) as [[d | es] |] eqn:Hz;
      try discriminate.
    + injection H2 as <-. cbn [fs set_fs].
      apply FSFacts.lookup_remove_same. exact (apart_not_nil_l _ _ Hzt).
    + injection H2 as <-. exact Hz.
  - intros q Hq1 Hq2. rewrite (F2 _ Hq2). apply F1. exact Hq1.
Qed.

(** Lines 180-204 when they return: the flag tells whether a folder was
    found, both scratch paths are gone, and without a folder nothing
    else has changed. *)
Lemma place_package_returns env pk rimworld w b w' :
  FS.apart (cwd env ++ [pk_zip pk]) (cwd env ++ [pk_temp pk]) = true ->
  FS.apart (rimworld ++ ["Mods"]) (cwd env ++ [pk_temp pk]) = true ->
  place_package env pk rimworld w = (Ok b, w') ->
  b = is_some (first_folder (cwd env ++ [pk_temp pk]) (fs w)) /\
  FS.lookup (cwd env ++ [pk_temp pk]) (fs w') = None /\
  FS.lookup (cwd env ++ [pk_zip pk]) (fs w') = None /\
  (b = false ->
   forall q, FS.apart (cwd env ++ [pk_temp pk]) q = true ->
             FS.apart (cwd env ++ [pk_zip pk]) q = true ->
             FS.lookup q (fs w') = FS.lookup q (fs w)).
Proof.
  intros Hzt Htemp H. unfold place_package in H. unfold first_folder.
  set (mods := rimworld ++ ["Mods"]) in *.
  set (temp := cwd env ++ [pk_temp pk]) in *.
  set (zip := cwd env ++ [pk_zip pk]) in *.
  inv_bind_as H entries w0 Hiter.
  apply iterdir_inv in Hiter. destruct Hiter as [-> (es & Hes & ->)].
  rewrite Hes.
  assert (Hdir : FS.is_dir temp (fs w) = true)
    by (unfold FS.is_dir; rewrite Hes; reflexivity).
  unfold bind at 1 in H. rewrite keep_dirs_run, filter_map_fst in H.
  destruct (filter (fun kn => FS.is_dir (temp ++ [fst kn]) (fs w)) es)
    as [| [name sub] others] eqn:Hfilter; cbn [map] in H.
  { inv_bind_as H u1 w1 H1. apply print_inv in H1. destruct H1 as [_ ->].
    destruct (cleanup_run temp zip false b (emit (Out (pk_no_folder pk)) w)
                w' Hzt Hdir H) as (-> & H1 & H2 & H3).
    repeat split; auto. }
  cbn [fst] in H. rewrite FSFacts.name_snoc in H.
  set (src := temp ++ [name]) in *.
  set (dest := mods ++ [name]) in *.
  assert (Hdt : forall x, FS.apart (dest ++ x) temp = true).
  { intros x. rewrite <- (app_nil_r temp). apply FSFacts.apart_app.
    unfold dest. rewrite <- (app_nil_r temp). apply FSFacts.apart_app.
    exact Htemp. }
  inv_bind_as H present wa Hpresent.
  unfold Os.exists_ in Hpresent. inversion Hpresent; subst present wa.
  clear Hpresent.
  inv_bind_as H u wb Hclear. destruct u.
  assert (Hb : FS.is_dir temp (fs wb) = true).
  { destruct (FS.exists_ dest (fs w)).
    - inv_bind_as Hclear u0 w1 Hp. apply print_inv in Hp.
      destruct Hp as [_ ->]. apply rmtree_inv in Hclear. subst wb.
      cbn [fs set_fs emit]. unfold FS.is_dir.
      rewrite FSFacts.lookup_remove_apart; [exact Hdir |].
      rewrite <- (app_nil_r dest). apply Hdt.
    - inversion Hclear; subst wb. exact Hdir. }
  inv_bind_as H u1 wc Hmove. destruct u1.
  apply move_inv in Hmove. destruct Hmove as (n & fs1 & Hn & Hput & ->).
  inv_bind_as H u2 wd Hprint. apply print_inv in Hprint.
  destruct Hprint as [_ ->].
  assert (Hd : FS.is_dir temp (fs (emit (Out (pk_installed pk +++ path_str dest))
                                        (set_fs fs1 wb))) = true).
  { cbn [fs set_fs emit]. unfold FS.is_dir.
    rewrite (FSFacts.lookup_put_apart _ temp _ _ _) with (2 := Hput).
    - apply (is_dir_remove_below temp [name] (fs wb)); [discriminate | exact Hb].
    - unfold Os.real_dst. destruct (FS.is_dir dest (fs wb)).
      + apply Hdt.
      + rewrite <- (app_nil_r dest). apply Hdt. }
  destruct (cleanup_run temp zip true b _ _ Hzt Hd H) as (-> & H1 & H2 & _).
  repeat split; auto. discriminate.
Qed.

Lemma is_prefix_split p : forall q,
  FS.is_prefix p q = true -> exists rel, q = p ++ rel.
Proof.
  induction p as [| a p IH]; intros q H.
  - exists q. reflexivity.
  - destruct q as [| b q]; [discriminate |]. simpl in H.
    apply andb_true_iff in H. destruct H as [E H].
    apply String.eqb_eq in E. subst b.
    destruct (IH _ H) as [rel ->]. exists rel. reflexivity.
Qed.

(** Making one directory changes nothing but the listing of its parent. *)
Lemma keeps_mkdir_off q p :
  FS.is_prefix q p = false -> keeps q (Os.mkdir p).
Proof.
  intros Hq w. unfold Os.mkdir.
  destruct (FS.lookup p (fs w)) as [n |] eqn:Hp; [reflexivity |].
  unfold Os.commit.
  destruct (FS.put p (Dir []) (fs w)) as [f |] eqn:Hput; [| reflexivity].
  cbn [snd fs set_fs].
  destruct (FS.is_prefix p q) eqn:Hpq.
  - destruct (is_prefix_split _ _ Hpq) as [rel ->].
    rewrite (FSFacts.lookup_put_below _ rel _ _ _ Hput).
    rewrite FSFacts.lookup_app, Hp.
    destruct rel as [| r rel]; [| reflexivity].
    rewrite app_nil_r in Hq.
    rewrite <- (app_nil_r p) in Hq at 2. rewrite is_prefix_app in Hq.
    discriminate.
  - apply (FSFacts.lookup_put_apart p q (Dir []) (fs w) f); [| exact Hput].
    apply FSFacts.apart_iff. split; assumption.
Qed.

Lemma keeps_mkdir_exist_ok q p :
  FS.is_prefix q p = false -> keeps q (Os.mkdir_exist_ok p).
Proof.
  intros Hq w. unfold Os.mkdir_exist_ok.
  destruct (FS.lookup p (fs w)) as [[d | es] |] eqn:Hp;
    try reflexivity; apply keeps_mkdir_off; exact Hq.
Qed.

Lemma keeps_run q {A} (m : M A) w r w1 :
  keeps q m -> m w = (r, w1) -> FS.lookup q (fs w1) = FS.lookup q (fs w).
Proof. intros Hk H. specialize (Hk w). rewrite H in Hk. exact Hk. Qed.

(** Lines 180-204 returning [False]: no folder was found, and nothing but
    the scratch paths has changed. *)
Lemma place_package_false env pk rimworld w w' q :
  place_package env pk rimworld w = (Ok false, w') ->
  FS.apart (cwd env ++ [pk_temp pk]) q = true ->
  FS.apart (cwd env ++ [pk_zip pk]) q = true ->
  FS.lookup q (fs w') = FS.lookup q (fs w).
Proof.
  intros H Hq1 Hq2. unfold place_package in H.
  inv_bind_as H entries w0 Hiter.
  apply iterdir_inv in Hiter. destruct Hiter as [-> _].
  unfold bind at 1 in H. rewrite keep_dirs_run in H.
  destruct (filter (fun f => FS.is_dir f (fs w)) entries) as [| folder others].
  - apply (keeps_run q _ _ _ _) with (2 := H). frame.
  - inv_bind_as H a1 w1 H1. inv_bind_as H a2 w2 H2. inv_bind_as H a3 w3 H3.
    inv_bind_as H a4 w4 H4. inv_bind_as H a5 w5 H5. inv_bind_as H a6 w6 H6.
    discriminate H.
Qed.

(** An install that returns [False] has changed nothing but its scratch
    paths and, where it was missing, the [Mods] directory. *)
Lemma failed_package_keeps env pk rimworld release_type w w' q :
  install_package env pk rimworld release_type w = (Ok false, w') ->
  FS.is_prefix q (rimworld ++ ["Mods"]) = false ->
  FS.apart (cwd env ++ [pk_temp pk]) q = true ->
  FS.apart (cwd env ++ [pk_zip pk]) q = true ->
  FS.lookup q (fs w') = FS.lookup q (fs w).
Proof.
  intros H Hmods Hq1 Hq2. unfold install_package in H.
  inv_bind_as H u1 w1 H1. apply print_inv in H1. destruct H1 as [_ ->].
  inv_bind_as H u2 w2 H2.
  apply (keeps_run q _ _ _ _ (keeps_mkdir_exist_ok q _ Hmods)) in H2.
  inv_bind_as H url w3 H3.
  apply (keeps_run q _ _ _ _
           (read_only_keeps q _ (read_only_get_latest env _ _))) in H3.
  cbn [fs emit] in H2.
  destruct (Py.truthy url); cbn [negb] in H.
  2: { apply (keeps_run q) in H; [| frame]. congruence. }
  inv_bind_as H downloaded wz Hdl.
  apply (keeps_run q _ _ _ _ (keeps_download_file q env _ _ Hq2)) in Hdl.
  destruct downloaded; cbn [negb] in H.
  2: { apply (keeps_run q) in H; [| frame]. congruence. }
  inv_bind_as H extracted wx Hex.
  apply (keeps_run q _ _ _ _ (keeps_extract_zip q env _ _ Hq1)) in Hex.
  destruct extracted; cbn [negb] in H.
  - rewrite (place_package_false _ _ _ _ _ q H Hq1 Hq2). congruence.
  - apply (keeps_run q) in H; [| frame]. congruence.
Qed.

(** X4.  An install that returns [False] has replaced nothing: apart
    from its two scratch paths in the working directory and a [Mods]
    directory it may have created, every path leads to what it led to
    before, so the mods installed earlier are all there, unchanged. *)
Theorem failed_install_changes_nothing_else env rimworld release_type w w' q :
  FS.is_prefix q (rimworld ++ ["Mods"]) = false ->
  (install_harmony_mod env rimworld w = (Ok false, w') ->
   FS.apart (cwd env ++ ["temp_harmony"]) q = true ->
   FS.apart (cwd env ++ ["HarmonyMod.zip"]) q = true ->
   FS.lookup q (fs w') = FS.lookup q (fs w)) /\
  (install_rimworld_access_mod env rimworld release_type w = (Ok false, w') ->
   FS.apart (cwd env ++ ["temp_access"]) q = true ->
   FS.apart (cwd env ++ ["RimWorldAccess.zip"]) q = true ->
   FS.lookup q (fs w') = FS.lookup q (fs w)).
Proof.
  intros Hq. split; intros H H1 H2.
  - rewrite install_harmony_is_package in H.
    exact (failed_package_keeps env harmony_package _ _ _ _ q H Hq H1 H2).
  - rewrite install_access_is_package in H.
    exact (failed_package_keeps env access_package _ _ _ _ q H Hq H1 H2).
Qed.

(** X4 on the sample: the Harmony archive is corrupt, the install returns
    [False], and the older Harmony in [Mods] is still there. *)
Lemma failed_install_changes_nothing_else_witness :
  let w := Sample.world [] [] in
  let w' := snd (install_harmony_mod Sample.env_corrupt Sample.game w) in
  let q := Sample.game ++ ["Mods"; "HarmonyMod"; "old.txt"] in
  FS.is_prefix q (Sample.game ++ ["Mods"]) = false /\
  install_harmony_mod Sample.env_corrupt Sample.game w = (Ok false, w') /\
  FS.apart (cwd Sample.env_corrupt ++ ["temp_harmony"]) q = true /\
  FS.apart (cwd Sample.env_corrupt ++ ["HarmonyMod.zip"]) q = true /\
  FS.lookup q (fs w') = Some (File (Sample.b "old")).
Proof.
  intros w w' q.
  assert (Hrun : install_harmony_mod Sample.env_corrupt Sample.game w
                 = (Ok false, w')) by (vm_compute; reflexivity).
  split; [reflexivity |]. split; [exact Hrun |].
  split; [reflexivity |]. split; [reflexivity |].
  rewrite (proj1 (failed_install_changes_nothing_else Sample.env_corrupt
                    Sample.game "stable" w w' q eq_refl)
             Hrun eq_refl eq_refl).
  reflexivity.
Defined.

Lemma install_after_extraction env pk rimworld release_type w wz wx :
  extracted_in env pk rimworld release_type w wz wx ->
  install_package env pk rimworld release_type w
  = place_package env pk rimworld wx.
Proof.
  intros (w2 & url & w3 & H1 & H2 & Hurl & H3 & H4).
  unfold install_package.
  rewrite (bind_ok _ _ w tt (say (pk_title pk) w)) by reflexivity.
  rewrite (bind_ok _ _ _ _ _ H1), (bind_ok _ _ _ _ _ H2), Hurl.
  cbn [negb]. rewrite (bind_ok _ _ _ _ _ H3). cbn [negb].
  rewrite (bind_ok _ _ _ _ _ H4). reflexivity.
Qed.

Lemma package_scratch_removed env pk rimworld release_type w b w' :
  FS.apart (cwd env ++ [pk_zip pk]) (cwd env ++ [pk_temp pk]) = true ->
  scratch_apart env pk rimworld = true ->
  install_package env pk rimworld release_type w = (Ok b, w') ->
  (b = true \/ exists wz wx, extracted_in env pk rimworld release_type w wz wx) ->
  FS.exists_ (cwd env ++ [pk_temp pk]) (fs w') = false /\
  FS.exists_ (cwd env ++ [pk_zip pk]) (fs w') = false.
Proof.
  intros Hzt Hapart H Hcase. unfold scratch_apart in Hapart.
  apply andb_true_iff in Hapart. destruct Hapart as [Htemp _].
  assert (Hpl : exists wx, place_package env pk rimworld wx = (Ok b, w')).
  { destruct Hcase as [-> | (wz & wx & Hex)].
    - destruct (install_package_success _ _ _ _ _ _ H) as (wz & wx & _ & Hpl).
      exists wx. exact Hpl.
    - exists wx. rewrite <- (install_after_extraction _ _ _ _ _ _ _ Hex).
      exact H. }
  destruct Hpl as [wx Hpl].
  destruct (place_package_returns _ _ _ _ _ _ Hzt Htemp Hpl)
    as (_ & H1 & H2 & _).
  unfold FS.exists_. rewrite H1, H2. split; reflexivity.
Qed.

(** X5.  Once the archive has been extracted, an install that returns
    leaves no scratch file behind: whether it returns [True] (the folder
    was installed) or [False] (the archive held no folder), neither the
    downloaded archive nor the extraction directory exists afterwards. *)
Theorem scratch_removed_after_extraction env rimworld release_type w b w' :
  (scratch_apart env harmony_package rimworld = true ->
   install_harmony_mod env rimworld w = (Ok b, w') ->
   (b = true \/
    exists wz wx, extracted_in env harmony_package rimworld "stable" w wz wx) ->
   FS.exists_ (cwd env ++ ["temp_harmony"]) (fs w') = false /\
   FS.exists_ (cwd env ++ ["HarmonyMod.zip"]) (fs w') = false) /\
  (scratch_apart env access_package rimworld = true ->
   install_rimworld_access_mod env rimworld release_type w = (Ok b, w') ->
   (b = true \/
    exists wz wx,
      extracted_in env access_package rimworld release_type w wz wx) ->
   FS.exists_ (cwd env ++ ["temp_access"]) (fs w') = false /\
   FS.exists_ (cwd env ++ ["RimWorldAccess.zip"]) (fs w') = false).
Proof.
  split; intros Hapart H Hcase.
  - rewrite install_harmony_is_package in H.
    apply (package_scratch_removed env harmony_package _ _ _ _ _
             (FSFacts.apart_siblings (cwd env) "HarmonyMod.zip" "temp_harmony"
                ltac:(discriminate)) Hapart H Hcase).
  - rewrite install_access_is_package in H.
    apply (package_scratch_removed env access_package _ _ _ _ _
             (FSFacts.apart_siblings (cwd env) "RimWorldAccess.zip"
                "temp_access" ltac:(discriminate)) Hapart H Hcase).
Qed.

(** X5 on the sample: Harmony is installed, and the working directory is
    empty again. *)
Lemma scratch_removed_after_extraction_witness :
  let w := Sample.world [] [] in
  let w' := snd (install_harmony_mod Sample.env Sample.game w) in
  scratch_apart Sample.env harmony_package Sample.game = true /\
  install_harmony_mod Sample.env Sample.game w = (Ok true, w') /\
  FS.exists_ (cwd Sample.env ++ ["temp_harmony"]) (fs w') = false /\
  FS.exists_ (cwd Sample.env ++ ["HarmonyMod.zip"]) (fs w') = false.
Proof.
  intros w w'.
  assert (Hrun : install_harmony_mod Sample.env Sample.game w = (Ok true, w'))
    by (vm_compute; reflexivity).
  split; [reflexivity |]. split; [exact Hrun |].
  exact (proj1 (scratch_removed_after_extraction Sample.env Sample.game
                  "stable" w true w')
           eq_refl Hrun (or_introl eq_refl)).
Defined.

(* ------------------------------------------------------------------ *)
(** ** [extract_zip] never raises *)

(** X6.  [extract_zip] always returns a flag, never an exception:
    [True] exactly when the archive can be read, decodes and every member
    is extracted, the last line printed then being the completion
    message; [False] otherwise, after printing the first cause.  The
    files it leaves are those the extraction had produced up to that
    point (nothing is rolled back), and no input is read. *)
Theorem extract_zip_contained env zip_path extract_to w :
  exists w',
    extract_zip env zip_path extract_to w
      = (Ok (is_none (extraction_error env zip_path extract_to (fs w))), w') /\
    fs w' = extracted_files env zip_path extract_to (fs w) /\
    stdin w' = stdin w /\
    match extraction_error env zip_path extract_to (fs w) with
    | None => last_line w' "Extraction complete!"
    | Some cause => last_line w' ("Error extracting zip file: " +++ cause)
    end.
Proof.
  unfold extract_zip, extraction_error, extracted_files, try_except.
  set (w0 := emit (Out ("Extracting " +++ FS.name zip_path +++ "...")) w).
  rewrite (bind_ok _ _ w tt w0) by reflexivity.
  assert (failing : forall cause w1,
    exists w', (print ("Error extracting zip file: " +++ cause);;
                ret false) w1 = (Ok false, w') /\
               fs w' = fs w1 /\ stdin w' = stdin w1 /\
               last_line w' ("Error extracting zip file: " +++ cause)).
  { intros cause w1. eexists. split; [reflexivity |].
    split; [reflexivity |]. split; [reflexivity |]. apply last_line_emit. }
  assert (Hread : Os.read zip_path w0 =
                  match FS.lookup zip_path (fs w) with
                  | Some (File data) => (Ok data, w0)
                  | Some (Dir _) => (Raise (Exception "Is a directory"), w0)
                  | None => (Raise (Exception "No such file or directory"), w0)
                  end) by reflexivity.
  destruct (FS.lookup zip_path (fs w)) as [[data | es] |].
  2, 3: rewrite (bind_raise _ _ _ _ _ Hread); cbn [is_none];
        apply (failing _ w0).
  rewrite (bind_ok _ _ _ _ _ Hread).
  destruct (read_zip env data) as [members | e].
  2: { rewrite (bind_raise _ _ w0 (Exception e) w0) by reflexivity.
       cbn [is_none]. apply (failing _ w0). }
  rewrite (bind_ok _ _ w0 members w0) by reflexivity.
  unfold bind at 1. rewrite (files_only_extractall extract_to members w0).
  change (fs w0) with (fs w).
  pose proof (calm_extractall extract_to members (blank (fs w))) as Hcalm.
  destruct (Os.extractall extract_to members (blank (fs w)))
    as [[u | [e |]] w1]; cbn [fst snd] in *.
  - cbn [is_none]. eexists. split; [reflexivity |].
    split; [reflexivity |]. split; [reflexivity |]. apply last_line_emit.
  - cbn [is_none]. apply (failing e (set_fs (fs w1) w0)).
  - congruence.
Qed.

(* ------------------------------------------------------------------ *)
(** ** The configuration file is never changed without a backup *)

Lemma update_missing env required rimworld w :
  FS.lookup (config_file env) (fs w) = None ->
  exists w', update_mods_config_with env required rimworld w = (Ok true, w') /\
             fs w' = fs w /\ stdin w' = stdin w.
Proof.
  intros Hc.
  set (w0 := say (PyStr.nl +++ " Updating ModsConfig.xml ") w).
  unfold update_mods_config_with.
  rewrite (bind_ok _ _ w tt w0) by reflexivity.
  rewrite (bind_ok _ _ w0 false w0)
    by (unfold Os.exists_, FS.exists_; cbn [fs w0 say emit]; rewrite Hc;
        reflexivity).
  cbn [negb]. eexists. split; [reflexivity |]. split; reflexivity.
Qed.

Lemma update_directory env required rimworld w es :
  FS.lookup (config_file env) (fs w) = Some (Dir es) ->
  exists w', update_mods_config_with env required rimworld w = (Ok false, w') /\
             fs w' = fs w /\ stdin w' = stdin w.
Proof.
  intros Hc.
  set (w0 := say (PyStr.nl +++ " Updating ModsConfig.xml ") w).
  assert (Hc0 : FS.lookup (config_file env) (fs w0) = Some (Dir es))
    by exact Hc.
  unfold update_mods_config_with.
  rewrite (bind_ok _ _ w tt w0) by reflexivity.
  rewrite (bind_ok _ _ w0 true w0)
    by (unfold Os.exists_; rewrite (exists_of_lookup _ _ _ Hc0); reflexivity).
  cbn [negb]. unfold try_except.
  rewrite (bind_raise _ _ w0 (Exception "Is a directory") w0)
    by (unfold Os.read; rewrite Hc0; reflexivity).
  eexists. split; [reflexivity |]. split; reflexivity.
Qed.

(** X7.  [update_mods_config] always returns a flag, reads no input, and
    either leaves every file as it was, or returns [True] having changed
    exactly two things: the configuration file, and the place the backup
    went to ([ModsConfig.xml.backup], or a file inside it when that is a
    directory), which then holds the original bytes of the configuration
    file.  In particular a run that returns [False] (the file cannot be
    read or parsed, the backup cannot be written) changes no file. *)
Theorem config_never_changed_without_backup env rimworld w :
  exists b w',
    update_mods_config env rimworld w = (Ok b, w') /\
    stdin w' = stdin w /\
    (fs w' = fs w \/
     exists data,
       b = true /\
       FS.lookup (config_file env) (fs w) = Some (File data) /\
       FS.lookup (Os.real_dst (config_file env) (backup_file env) (fs w))
                 (fs w') = Some (File data) /\
       forall q,
         FS.apart (config_file env) q = true ->
         FS.apart (Os.real_dst (config_file env) (backup_file env) (fs w)) q
         = true ->
         FS.lookup q (fs w') = FS.lookup q (fs w)).
Proof.
  unfold update_mods_config.
  set (w0 := say (PyStr.nl +++ " Updating ModsConfig.xml ") w).
  destruct (FS.lookup (config_file env) (fs w)) as [[data | es] |] eqn:Hc.
  - destruct (xml_parse env data) as [root | e] eqn:Hparse.
    + destruct (list_eq_dec string_dec (firstn 3 (current_mods_of root))
                  required_mods) as [Heq | Hne].
      * rewrite (update_unchanged env _ rimworld w data root Hc Hparse Heq).
        eexists _, _. split; [reflexivity |]. split; [reflexivity |].
        left. reflexivity.
      * destruct (copy2_config env w0 data Hc)
          as [[e Hcopy] | (fs1 & Hcopy & Hc1 & Hput)].
        { rewrite (update_copy_fails env _ rimworld w data root e
                     Hc Hparse Hne Hcopy).
          eexists _, _. split; [reflexivity |]. split; [reflexivity |].
          left. reflexivity. }
        destruct (update_after_copy env required_mods rimworld w data root fs1
                    Hc Hparse Hne Hcopy Hc1)
          as (w' & Hrun & _ & Hframe & Hin).
        exists true, w'. split; [exact Hrun |]. split; [exact Hin |].
        right. exists data. split; [reflexivity |]. split; [reflexivity |].
        change (fs w0) with (fs w) in Hput.
        pose proof (real_dst_apart_config env (fs w)) as Hapart.
        split.
        -- rewrite Hframe by (rewrite FSFacts.apart_sym; exact Hapart).
           exact (FSFacts.lookup_put_same _ _ _ _ Hput).
        -- intros q Hq1 Hq2. rewrite (Hframe q Hq1).
           exact (FSFacts.lookup_put_apart _ _ _ _ _ Hq2 Hput).
    + rewrite (update_unparsable env _ rimworld w data e Hc Hparse).
      eexists _, _. split; [reflexivity |]. split; [reflexivity |].
      left. reflexivity.
  - destruct (update_directory env required_mods rimworld w es Hc)
      as (w' & Hrun & Hfs & Hin).
    exists false, w'. auto.
  - destruct (update_missing env required_mods rimworld w Hc)
      as (w' & Hrun & Hfs & Hin).
    exists true, w'. auto.
Qed.

(* ------------------------------------------------------------------ *)
(** ** The version prompt *)

Lemma check_version_choice_run line w :
  exists msg,
    check_version_choice line w = (Ok (release_choice line), say msg w).
Proof.
  unfold check_version_choice, release_choice.
  destruct (String.eqb (PyStr.strip line) "1"); [eexists; reflexivity |].
  destruct (String.eqb (PyStr.strip line) "2"); [eexists; reflexivity |].
  destruct (String.eqb (PyStr.strip line) "3"); eexists; reflexivity.
Qed.

Lemma release_choice_valid line r :
  release_choice line = Some r -> In r ["stable"; "beta"; "dev"].
Proof.
  unfold release_choice.
  destruct (String.eqb (PyStr.strip line) "1");
    [intros H; injection H as <-; simpl; auto |].
  destruct (String.eqb (PyStr.strip line) "2");
    [intros H; injection H as <-; simpl; auto |].
  destruct (String.eqb (PyStr.strip line) "3");
    [intros H; injection H as <-; simpl; auto | discriminate].
Qed.

(** One round of the version loop on a typed line. *)
Lemma version_loop_line prompt fuel line rest w :
  stdin w = Line line :: rest ->
  exists w1,
    fs w1 = fs w /\ stdin w1 = rest /\
    input_loop prompt check_version_choice fuel w
    = match release_choice line with
      | Some r => (Ok r, w1)
      | None =>
          match fuel with
          | O => (Raise (Exception "input_loop: fuel exhausted"), w1)
          | S fuel' => input_loop prompt check_version_choice fuel' w1
          end
      end.
Proof.
  intros Hin.
  destruct (check_version_choice_run line (set_stdin rest (emit (Out prompt) w)))
    as [msg Hrun].
  exists (say msg (set_stdin rest (emit (Out prompt) w))).
  split; [reflexivity |]. split; [reflexivity |].
  destruct fuel; cbn [input_loop]; unfold bind at 1, input; rewrite Hin;
    unfold bind at 1; rewrite Hrun;
    destruct (release_choice line); reflexivity.
Qed.

Lemma version_loop_stops prompt fuel w :
  match stdin w with Line _ :: _ => False | _ => True end ->
  exists e w', input_loop prompt check_version_choice fuel w = (Raise e, w').
Proof.
  intros Hin.
  destruct fuel; cbn [input_loop]; unfold bind at 1, input;
    destruct (stdin w) as [| [line |] rest]; try contradiction;
    eexists _, _; reflexivity.
Qed.

Lemma version_loop_valid prompt fuel : forall w r w',
  input_loop prompt check_version_choice fuel w = (Ok r, w') ->
  In r ["stable"; "beta"; "dev"] /\ fs w' = fs w.
Proof.
  induction fuel as [| fuel IH]; intros w r w' H.
  - destruct (stdin w) as [| [line |] rest] eqn:Hin.
    + destruct (version_loop_stops prompt 0 w) as (e & w1 & E);
        [rewrite Hin; exact I | congruence].
    + destruct (version_loop_line prompt 0 line rest w Hin)
        as (w1 & Hfs & _ & E).
      rewrite E in H. destruct (release_choice line) as [c |] eqn:Hc;
        [| discriminate].
      injection H as <- <-. split; [| exact Hfs].
      exact (release_choice_valid _ _ Hc).
    + destruct (version_loop_stops prompt 0 w) as (e & w1 & E);
        [rewrite Hin; exact I | congruence].
  - destruct (stdin w) as [| [line |] rest] eqn:Hin.
    + destruct (version_loop_stops prompt (S fuel) w) as (e & w1 & E);
        [rewrite Hin; exact I | congruence].
    + destruct (version_loop_line prompt (S fuel) line rest w Hin)
        as (w1 & Hfs & _ & E).
      rewrite E in H. destruct (release_choice line) as [c |] eqn:Hc.
      * injection H as <- <-. split; [| exact Hfs].
        exact (release_choice_valid _ _ Hc).
      * apply IH in H. destruct H as [H1 H2]. split; [exact H1 | congruence].
    + destruct (version_loop_stops prompt (S fuel) w) as (e & w1 & E);
        [rewrite Hin; exact I | congruence].
Qed.

Lemma version_loop_retries prompt r good rest : forall rejected fuel w,
  stdin w = map Line rejected ++ Line good :: rest ->
  forallb (fun line => is_none (release_choice line)) rejected = true ->
  release_choice good = Some r ->
  (length rejected <= fuel)%nat ->
  exists w',
    input_loop prompt check_version_choice fuel w = (Ok r, w') /\
    stdin w' = rest /\ fs w' = fs w.
Proof.
  induction rejected as [| bad rejected IH]; intros fuel w Hin Hbad Hgood Hfuel.
  - destruct (version_loop_line prompt fuel good rest w Hin)
      as (w1 & Hfs & Hrest & E).
    rewrite Hgood in E. exists w1. auto.
  - cbn [map app] in Hin. cbn [forallb] in Hbad.
    apply andb_true_iff in Hbad. destruct Hbad as [Hb Hbad].
    destruct (version_loop_line prompt fuel bad _ w Hin)
      as (w1 & Hfs & Hrest & E).
    destruct (release_choice bad); [discriminate |].
    destruct fuel as [| fuel]; [simpl in Hfuel; lia |].
    destruct (IH fuel w1 Hrest Hbad Hgood ltac:(simpl in Hfuel; lia))
      as (w' & Hrun & Hin' & Hfs').
    exists w'. rewrite E. split; [exact Hrun |]. split; [exact Hin' |].
    congruence.
Qed.

Lemma choose_release_type_loop w :
  exists w0,
    fs w0 = fs w /\ stdin w0 = stdin w /\
    choose_release_type w
    = input_loop (PyStr.nl +++ "Enter your choice (1/2/3): ")
                 check_version_choice (length (stdin w)) w0.
Proof.
  eexists. split; [| split]; [| | reflexivity]; reflexivity.
Qed.

(** X8.  The version prompt only ever yields one of the three channels
    the downloader knows: whatever is typed, when [choose_release_type]
    returns, it returns 'stable', 'beta' or 'dev' (so [main] never asks
    for a release type the downloader would reject), and it has changed
    no file. *)
Theorem chosen_release_type_is_known w r w' :
  choose_release_type w = (Ok r, w') ->
  (r = "stable" \/ r = "beta" \/ r = "dev") /\ fs w' = fs w.
Proof.
  intros H. destruct (choose_release_type_loop w) as (w0 & Hfs & _ & E).
  rewrite E in H. apply version_loop_valid in H. destruct H as [Hr Hfs'].
  split; [| congruence].
  simpl in Hr. intuition auto.
Qed.

(** X8 on the sample: a stray answer, then [2] between blanks. *)
Lemma chosen_release_type_is_known_witness :
  let w := Sample.world [] [Line "beta"; Line " 2 "] in
  let w' := snd (choose_release_type w) in
  choose_release_type w = (Ok "beta", w') /\
  (("beta" = "stable" \/ "beta" = "beta" \/ "beta" = "dev") /\ fs w' = fs w).
Proof.
  intros w w'.
  assert (Hrun : choose_release_type w = (Ok "beta", w'))
    by (vm_compute; reflexivity).
  split; [exact Hrun |].
  exact (chosen_release_type_is_known w "beta" w' Hrun).
Defined.

(** X9.  At the version prompt the first line that reads 1, 2 or 3 once
    surrounding white space is stripped decides (1 is stable, 2 is beta,
    3 is dev); every line before it is answered by a new prompt, however
    many there are, and the lines after it are left unread. *)
Theorem version_prompt_takes_first_choice rejected good r rest w :
  stdin w = map Line rejected ++ Line good :: rest ->
  forallb (fun line => is_none (release_choice line)) rejected = true ->
  release_choice good = Some r ->
  exists w',
    choose_release_type w = (Ok r, w') /\ stdin w' = rest /\
    r = match PyStr.strip good with
        | "1" => "stable" | "2" => "beta" | _ => "dev"
        end%string.
Proof.
  intros Hin Hbad Hgood.
  destruct (choose_release_type_loop w) as (w0 & _ & Hin0 & E).
  rewrite <- Hin0 in Hin.
  destruct (version_loop_retries (PyStr.nl +++ "Enter your choice (1/2/3): ")
              r good rest rejected (length (stdin w)) w0 Hin Hbad Hgood)
    as (w' & Hrun & Hrest & _).
  { rewrite <- Hin0, Hin, length_app, length_map. lia. }
  exists w'. rewrite E. split; [exact Hrun |]. split; [exact Hrest |].
  unfold release_choice in Hgood.
  destruct (String.eqb (PyStr.strip good) "1") eqn:E1.
  { apply String.eqb_eq in E1. rewrite E1. congruence. }
  destruct (String.eqb (PyStr.strip good) "2") eqn:E2.
  { apply String.eqb_eq in E2. rewrite E2. congruence. }
  destruct (String.eqb (PyStr.strip good) "3") eqn:E3; [| discriminate].
  apply String.eqb_eq in E3. rewrite E3. congruence.
Qed.

(** X9 on the sample: two stray answers, then [1] followed by a
    no-break space, which [strip()] drops as it drops a blank; the [2]
    typed after it is never read. *)
Lemma version_prompt_takes_first_choice_witness :
  let nbsp := String (ascii_of_nat 160) EmptyString in
  let typed := [Line "dev"; Line "4"; Line ("1" +++ nbsp); Line "2"] in
  let w := Sample.world [] typed in
  stdin w = map Line ["dev"; "4"] ++ Line ("1" +++ nbsp) :: [Line "2"] /\
  forallb (fun line => is_none (release_choice line)) ["dev"; "4"] = true /\
  release_choice ("1" +++ nbsp) = Some "stable" /\
  exists w',
    choose_release_type w = (Ok "stable", w') /\ stdin w' = [Line "2"].
Proof.
  intros nbsp typed w. split; [reflexivity |].
  split; [reflexivity |]. split; [reflexivity |].
  destruct (version_prompt_takes_first_choice ["dev"; "4"]
              ("1" +++ nbsp) "stable" [Line "2"] w
              eq_refl eq_refl eq_refl) as (w' & Hrun & Hrest & _).
  exists w'. split; assumption.
Defined.

(* ------------------------------------------------------------------ *)
(** ** What the patch leaves of the document *)








Lemma in_list_In x l : in_list x l = true <-> In x l.
Proof.
  induction l as [| y l IH]; simpl.
  - split; [discriminate | contradiction].
  - rewrite orb_true_iff, IH, String.eqb_eq. split; intros [H | H]; auto.
Qed.

Lemma occurrences_filter (f : string -> bool) m : forall l,
  occurrences m (filter f l) = if f m then occurrences m l else O.
Proof.
  unfold occurrences. induction l as [| x l IH]; simpl.
  - destruct (f m); reflexivity.
  - destruct (f x) eqn:Ex; simpl.
    + destruct (string_dec x m) as [-> | Hne]; rewrite IH.
      * rewrite Ex. reflexivity.
      * reflexivity.
    + rewrite IH. destruct (string_dec x m) as [-> | Hne]; [| reflexivity].
      rewrite Ex. reflexivity.
Qed.

Lemma occurrences_app m a b :
  occurrences m (a ++ b) = (occurrences m a + occurrences m b)%nat.
Proof. unfold occurrences. apply count_occ_app. Qed.

(** X11.  In the list the patch writes, the three required mods come
    first and each of them is enabled exactly once, however often it was
    listed before; every other mod is enabled as often as it was. *)
Theorem required_mods_enabled_once root m :
  firstn 3 (current_mods_of (patched required_mods root)) = required_mods /\
  (In m required_mods ->
   occurrences m (current_mods_of (patched required_mods root)) = 1%nat) /\
  (~ In m required_mods ->
   occurrences m (current_mods_of (patched required_mods root))
   = occurrences m (current_mods_of root)).
Proof.
  rewrite (current_mods_of_patched required_mods root eq_refl).
  split; [reflexivity |].
  rewrite occurrences_app, occurrences_filter. split; intros Hm.
  - rewrite (proj2 (in_list_In m required_mods) Hm). cbn [negb].
    simpl in Hm. destruct Hm as [<- | [<- | [<- | []]]]; reflexivity.
  - destruct (in_list m required_mods) eqn:E.
    + apply in_list_In in E. contradiction.
    + cbn [negb]. unfold occurrences at 1.
      rewrite (proj1 (count_occ_not_In string_dec _ _) Hm). reflexivity.
Qed.

(** X11 on a document that lists Harmony twice and the game last. *)
Lemma required_mods_enabled_once_witness :
  let root :=
    Elem "ModsConfigData" [] None None
      [Elem "activeMods" [] None None
         [ET.li "brrainz.harmony"; ET.li "x.mod"; ET.li "brrainz.harmony";
          ET.li "ludeon.rimworld"]] in
  In "brrainz.harmony" required_mods /\
  occurrences "brrainz.harmony" (current_mods_of root) = 2%nat /\
  occurrences "brrainz.harmony" (current_mods_of (patched required_mods root))
  = 1%nat /\
  current_mods_of (patched required_mods root)
  = ["brrainz.harmony"; "ludeon.rimworld"; "shane12300.rimworldaccess";
     "x.mod"].
Proof.
  intros root.
  assert (Hin : In "brrainz.harmony" required_mods) by (simpl; auto).
  split; [exact Hin |]. split; [reflexivity |]. split; [| reflexivity].
  exact (proj1 (proj2 (required_mods_enabled_once root "brrainz.harmony")) Hin).
Defined.

(* ------------------------------------------------------------------ *)
(** ** One malformed release entry *)

Lemma comprehension_fails test bad e after : forall before,
  (forall r, In r before -> exists keep, test r = Done keep) ->
  test bad = Failed e ->
  Py.comprehension test (before ++ bad :: after) = Failed e.
Proof.
  induction before as [| r before IH]; intros Hok Hbad; simpl.
  - rewrite Hbad. reflexivity.
  - destruct (Hok r (or_introl eq_refl)) as [keep ->].
    rewrite IH; [reflexivity | | exact Hbad].
    intros r' Hr'. apply Hok. right. exact Hr'.
Qed.

Lemma untagged_fails r :
  tag_of r = None ->
  (exists e, is_beta r = Failed e) /\ (exists e, is_dev r = Failed e).
Proof.
  unfold tag_of, is_beta, is_dev, Py.get.
  destruct r as [| | | | | d]; try (intros _; split; eexists; reflexivity).
  destruct (Py.dict_get "tag_name" d) as [[| | | s | |] |];
    try discriminate; intros _; split; eexists; reflexivity.
Qed.

Lemma tagged_tests before :
  forallb (fun r => is_some (tag_of r)) before = true ->
  (forall r, In r before -> exists keep, is_beta r = Done keep) /\
  (forall r, In r before -> exists keep, is_dev r = Done keep).
Proof.
  intros H. rewrite forallb_forall in H.
  split; intros r Hr; specialize (H r Hr);
    destruct (tag_of r) as [t |] eqn:Ht; try discriminate.
  - exists (beta_tag t). exact (is_beta_tag r t Ht).
  - exists (dev_tag t). exact (is_dev_tag r t Ht).
Qed.

(** X12.  On the beta and dev channels one malformed entry spoils the
    whole lookup: when the release list holds an entry that is not a
    dictionary, or whose [tag_name] is not a string, the filter raises on
    it, and [get_latest_github_release] reports a fetch error and returns
    [None], even when a release listed before it matches the channel. *)
Theorem malformed_release_spoils_lookup env repo before bad after w :
  api_call env (list_url repo) = Done (JList (before ++ bad :: after)) ->
  forallb (fun r => is_some (tag_of r)) before = true ->
  tag_of bad = None ->
  exists e1 e2,
    get_latest_github_release env repo "beta" w
    = (Ok JNull, say ("Error fetching release info from GitHub: " +++ e1) w) /\
    get_latest_github_release env repo "dev" w
    = (Ok JNull, say ("Error fetching release info from GitHub: " +++ e2) w).
Proof.
  intros Hcall Hbefore Hbad.
  destruct (untagged_fails bad Hbad) as [[e1 Hb] [e2 Hd]].
  destruct (tagged_tests before Hbefore) as [Hokb Hokd].
  pose proof (comprehension_fails is_beta bad e1 after before Hokb Hb) as Cb.
  pose proof (comprehension_fails is_dev bad e2 after before Hokd Hd) as Cd.
  assert (Htruthy : Py.truthy (JList (before ++ bad :: after)) = true)
    by (destruct before; reflexivity).
  exists e1, e2. split;
    unfold get_latest_github_release, try_except, select_release;
    cbn [String.eqb Ascii.eqb Bool.eqb];
    unfold api; fold (list_url repo); unfold bind at 1;
    rewrite api_call_run, Hcall, Htruthy; cbn [negb Py.iter lift];
    rewrite (bind_ok _ _ w (before ++ bad :: after) w) by reflexivity.
  - rewrite Cb. reflexivity.
  - rewrite Cd. reflexivity.
Qed.

(** X12 on a list whose first entry is a beta release and whose second
    entry has a null tag: no release is found. *)
Lemma malformed_release_spoils_lookup_witness :
  let w := Sample.world [] [] in
  has_tag beta_tag Sample.access_beta = true /\
  tag_of (JDict [("tag_name", JNull)]) = None /\
  exists e1 e2,
    get_latest_github_release env_null_tag "shane12300/rimworld_access" "beta" w
    = (Ok JNull, say ("Error fetching release info from GitHub: " +++ e1) w) /\
    get_latest_github_release env_null_tag "shane12300/rimworld_access" "dev" w
    = (Ok JNull, say ("Error fetching release info from GitHub: " +++ e2) w).
Proof.
  intros w. split; [reflexivity |]. split; [reflexivity |].
  exact (malformed_release_spoils_lookup env_null_tag
           "shane12300/rimworld_access" [Sample.access_beta]
           (JDict [("tag_name", JNull)]) [] w eq_refl eq_refl eq_refl).
Defined.

(* ------------------------------------------------------------------ *)
(** ** Cancelling at the path prompt *)

Lemma path_loop_cancelled env rest : forall rejected fuel w,
  stdin w = map Line rejected ++ CtrlC :: rest ->
  forallb (fun line => negb (valid_install (entered env line) (fs w)))
          rejected = true ->
  (length rejected <= fuel)%nat ->
  exists w',
    input_loop path_prompt (check_user_path env) fuel w
    = (Raise KeyboardInterrupt, w') /\
    fs w' = fs w /\ stdin w' = rest.
Proof.
  induction rejected as [| bad rejected IH]; intros fuel w Hin Hbad Hfuel.
  - cbn [map app] in Hin.
    exists (set_stdin rest (emit (Out path_prompt) w)).
    split; [| split; reflexivity].
    destruct fuel; cbn [input_loop]; unfold bind at 1, input; rewrite Hin;
      reflexivity.
  - cbn [map app] in Hin. cbn [forallb] in Hbad.
    apply andb_true_iff in Hbad. destruct Hbad as [Hb Hbad].
    apply negb_true_iff in Hb.
    rewrite (input_loop_line env fuel bad _ w Hin), Hb.
    destruct fuel as [| fuel]; [simpl in Hfuel; lia |].
    destruct (IH fuel (after_line env bad (map Line rejected ++ CtrlC :: rest) w))
      as (w' & Hrun & Hfs & Hrest).
    + reflexivity.
    + exact Hbad.
    + simpl in Hfuel. lia.
    + exists w'. split; [exact Hrun |]. split; [exact Hfs | exact Hrest].
Qed.

(** X13.  Cancelling at the path prompt ends the program cleanly: when
    the game is not at the default location and the user, after any
    number of rejected paths, presses Ctrl-C, [main] prints that the
    installation was cancelled and returns 1; no file has been created
    or changed, and the input after the interrupt is left unread. *)
Theorem cancel_at_path_prompt env rejected rest w :
  FS.is_dir default_path (fs w) = false ->
  stdin w = map Line rejected ++ CtrlC :: rest ->
  forallb (fun line => negb (valid_install (entered env line) (fs w)))
          rejected = true ->
  exists w',
    main env w = (Ok 1, w') /\
    last_line w' (PyStr.nl +++ PyStr.nl +++ "Installation cancelled by user.") /\
    fs w' = fs w /\ stdin w' = rest.
Proof.
  intros Hdefault Hin Hbad.
  set (w0 := say "RimWorld Access Mod Installer" w).
  set (w1 := say ("RimWorld not found at default location: "
                  +++ path_str default_path) w0).
  destruct (path_loop_cancelled env rest rejected (length (stdin w1)) w1)
    as (w2 & Hrun & Hfs & Hrest).
  { exact Hin. }
  { exact Hbad. }
  { change (stdin w1) with (stdin w). rewrite Hin, length_app, length_map. lia. }
  assert (Hfind : find_rimworld_directory env w0 = (Raise KeyboardInterrupt, w2)).
  { rewrite (find_rimworld_directory_prompts env w0 Hdefault). exact Hrun. }
  exists (say (PyStr.nl +++ PyStr.nl +++ "Installation cancelled by user.") w2).
  split; [| split; [apply last_line_emit | split; assumption]].
  rewrite main_of_body. fold w0. unfold main_body.
  rewrite (bind_raise _ _ _ _ _ Hfind). reflexivity.
Qed.

(** X13 on the sample: one wrong path, then Ctrl-C. *)
Lemma cancel_at_path_prompt_witness :
  let w := Sample.world [] [Line "C:\Nowhere"; CtrlC; Line "C:\Games\RimWorld"] in
  FS.is_dir default_path (fs w) = false /\
  exists w',
    main Sample.env w = (Ok 1, w') /\ fs w' = fs w /\
    stdin w' = [Line "C:\Games\RimWorld"].
Proof.
  intros w. split; [reflexivity |].
  destruct (cancel_at_path_prompt Sample.env ["C:\Nowhere"]
              [Line "C:\Games\RimWorld"] w eq_refl eq_refl eq_refl)
    as (w' & Hrun & _ & Hfs & Hrest).
  exists w'. auto.
Defined.

(* ------------------------------------------------------------------ *)
(** ** Quotes around a typed path *)

Lemma rev_onto_snoc c : forall s acc,
  PyStr.rev_onto (s +++ String c EmptyString) acc
  = String c (PyStr.rev_onto s acc).
Proof.
  induction s as [| a s IH]; intros acc; simpl; [reflexivity |]. apply IH.
Qed.

Lemma rev_onto_twice : forall s a b,
  PyStr.rev_onto (PyStr.rev_onto s a) b = PyStr.rev_onto a (s +++ b).
Proof.
  induction s as [| x s IH]; intros a b; simpl; [reflexivity |].
  rewrite IH. reflexivity.
Qed.

Lemma append_empty_r s : s +++ EmptyString = s.
Proof. induction s as [| a s IH]; simpl; [| rewrite IH]; reflexivity. Qed.

Lemma rev_rev s : PyStr.rev (PyStr.rev s) = s.
Proof.
  unfold PyStr.rev. rewrite rev_onto_twice. simpl. apply append_empty_r.
Qed.

Lemma lstrip_head c s :
  PyStr.startswith (String c EmptyString) s = false ->
  PyStr.lstrip_if (Ascii.eqb c) s = s.
Proof.
  destruct s as [| b s]; simpl; [reflexivity |].
  destruct (Ascii.eqb c b); [discriminate | reflexivity].
Qed.

Lemma bare_ends c s :
  bare c s = true ->
  PyStr.startswith (String c EmptyString) s = false /\
  PyStr.startswith (String c EmptyString) (PyStr.rev s) = false.
Proof.
  unfold bare, PyStr.endswith. intros H.
  apply andb_true_iff in H. destruct H as [H1 H2].
  apply negb_true_iff in H1. apply negb_true_iff in H2. auto.
Qed.

Lemma strip_bare c s : bare c s = true -> PyStr.strip_char c s = s.
Proof.
  intros H. destruct (bare_ends c s H) as [H1 H2].
  unfold PyStr.strip_char, PyStr.strip_if.
  rewrite (lstrip_head c s H1), (lstrip_head c _ H2). apply rev_rev.
Qed.

Lemma strip_quoted c s :
  bare c s = true -> PyStr.strip_char c (quoted c s) = s.
Proof.
  intros H. destruct (bare_ends c s H) as [H1 H2].
  unfold PyStr.strip_char, PyStr.strip_if, quoted.
  cbn [PyStr.lstrip_if]. rewrite Ascii.eqb_refl.
  destruct s as [| b s].
  - simpl. rewrite Ascii.eqb_refl. reflexivity.
  - assert (Hb : Ascii.eqb c b = false).
    { simpl in H1. destruct (Ascii.eqb c b); [discriminate | reflexivity]. }
    change (String b s +++ String c EmptyString)
      with (String b (s +++ String c EmptyString)).
    cbn [PyStr.lstrip_if]. rewrite Hb.
    change (String b (s +++ String c EmptyString))
      with (String b s +++ String c EmptyString).
    unfold PyStr.rev at 2. rewrite rev_onto_snoc.
    cbn [PyStr.lstrip_if]. rewrite Ascii.eqb_refl.
    fold (PyStr.rev (String b s)).
    rewrite (lstrip_head c _ H2). apply rev_rev.
Qed.

Lemma bare_quoted c d s : Ascii.eqb c d = false -> bare c (quoted d s) = true.
Proof.
  intros Hcd. unfold bare, quoted, PyStr.endswith.
  change (String d (s +++ String d EmptyString))
    with (String d s +++ String d EmptyString).
  unfold PyStr.rev at 2. rewrite rev_onto_snoc.
  simpl. rewrite Hcd. reflexivity.
Qed.

(** X14.  A path may be typed between quotes: for a text with no quote
    at either end, the path prompt resolves the text in double quotes, in
    single quotes, or in double quotes around single quotes to the same
    path as the bare text.  The two strips run in a fixed order, though:
    single quotes around double quotes lose the single quotes only. *)
Theorem quotes_around_path_are_dropped env s :
  unquoted s = true ->
  entered env s = user_path env s /\
  entered env (quoted PyStr.dquote s) = user_path env s /\
  entered env (quoted PyStr.squote s) = user_path env s /\
  entered env (quoted PyStr.dquote (quoted PyStr.squote s)) = user_path env s /\
  entered env (quoted PyStr.squote (quoted PyStr.dquote s))
  = user_path env (quoted PyStr.dquote s).
Proof.
  intros H. unfold unquoted in H. apply andb_true_iff in H.
  destruct H as [Hd Hs]. unfold entered.
  assert (Hds : bare PyStr.dquote (quoted PyStr.squote s) = true)
    by (apply bare_quoted; reflexivity).
  assert (Hsd : bare PyStr.squote (quoted PyStr.dquote s) = true)
    by (apply bare_quoted; reflexivity).
  repeat split.
  - rewrite (strip_bare _ _ Hd), (strip_bare _ _ Hs). reflexivity.
  - rewrite (strip_quoted _ _ Hd), (strip_bare _ _ Hs). reflexivity.
  - rewrite (strip_bare _ _ Hds), (strip_quoted _ _ Hs). reflexivity.
  - rewrite (strip_quoted _ _ Hds), (strip_quoted _ _ Hs). reflexivity.
  - rewrite (strip_bare PyStr.dquote (quoted PyStr.squote _)).
    + rewrite (strip_quoted _ _ Hsd). reflexivity.
    + apply bare_quoted. reflexivity.
Qed.

(** X14 on the sample: the installed game, typed in double quotes. *)
Lemma quotes_around_path_are_dropped_witness :
  unquoted "C:\Games\RimWorld" = true /\
  entered Sample.env (quoted PyStr.dquote "C:\Games\RimWorld") = Sample.game.
Proof.
  split; [reflexivity |].
  rewrite (proj1 (proj2 (quotes_around_path_are_dropped Sample.env
                           "C:\Games\RimWorld" eq_refl))).
  reflexivity.
Defined.

(* ------------------------------------------------------------------ *)
(** ** The default location *)

(** X15.  The default location is taken on trust: when it is a
    directory, [find_rimworld_directory] returns it at once, without
    reading any input and without looking for the game's executable,
    which it demands of every path typed at the prompt. *)
Theorem default_location_is_not_verified env w :
  FS.is_dir default_path (fs w) = true ->
  find_rimworld_directory env w
  = (Ok default_path, say ("Found RimWorld at: " +++ path_str default_path) w).
Proof.
  intros H. unfold find_rimworld_directory.
  assert (He : FS.exists_ default_path (fs w) = true).
  { unfold FS.is_dir in H. unfold FS.exists_.
    destruct (FS.lookup default_path (fs w)); [reflexivity | discriminate]. }
  rewrite (bind_ok _ _ w true w) by (unfold Os.exists_; rewrite He; reflexivity).
  rewrite (bind_ok _ _ w true w) by (unfold Os.is_dir; rewrite H; reflexivity).
  reflexivity.
Qed.

(** X15 on a disk whose default location is an empty directory: it is
    returned although it is no valid installation. *)
Lemma default_location_is_not_verified_witness :
  let f := match FS.makedirs default_path (Dir []) with
           | Some f => f
           | None => Dir []
           end in
  let w := {| fs := f; stdin := [CtrlC]; console := [] |} in
  FS.is_dir default_path (fs w) = true /\
  valid_install default_path (fs w) = false /\
  fst (find_rimworld_directory Sample.env w) = Ok default_path /\
  stdin (snd (find_rimworld_directory Sample.env w)) = [CtrlC].
Proof.
  intros f w. split; [reflexivity |]. split; [reflexivity |].
  rewrite (default_location_is_not_verified Sample.env w eq_refl).
  split; reflexivity.
Defined.

(* ------------------------------------------------------------------ *)
(** ** What a download prints *)

Lemma append_console p data w u w' :
  Os.append p data w = (Ok u, w') -> console w' = console w.
Proof.
  unfold Os.append, Os.commit, Os.fail, raise.
  destruct (FS.lookup p (fs w)) as [[old | es] |]; try discriminate.
  destruct (FS.put p (File (old ++ data)) (fs w)); [| discriminate].
  intros H. injection H as _ <-. reflexivity.
Qed.

Lemma open_wb_console p w u w' :
  Os.open_wb p w = (Ok u, w') -> console w' = console w.
Proof.
  unfold Os.open_wb, Os.commit, Os.fail, raise.
  destruct (FS.lookup p (fs w)) as [[old | es] |]; try discriminate;
    destruct (FS.put p (File []) (fs w)); try discriminate;
    intros H; injection H as _ <-; reflexivity.
Qed.

Lemma write_chunks_console destination total pending : forall downloaded w u w',
  write_chunks destination total pending downloaded w = (Ok u, w') ->
  console w'
  = console w
    ++ (if 0 <? total
        then map (fun d => OutProgress d total)
                 (running_totals pending downloaded)
        else []).
Proof.
  induction pending as [| chunk rest IH]; intros downloaded w u w' H.
  - simpl in H. injection H as _ <-.
    destruct (0 <? total); simpl; rewrite app_nil_r; reflexivity.
  - destruct chunk as [| x chunk]; [exact (IH _ _ _ _ H) |].
    cbn [write_chunks running_totals] in *.
    inv_bind_as H u1 w1 H1. apply append_console in H1.
    inv_bind_as H u2 w2 H2. apply IH in H. rewrite H.
    destruct (0 <? total).
    + unfold print_progress in H2. injection H2 as _ <-.
      cbn [console emit map]. rewrite H1, <- app_assoc. reflexivity.
    + injection H2 as _ <-. rewrite H1. reflexivity.
Qed.

(** X16.  What a successful download prints: the opening line, then one
    progress line for every non-empty chunk received, carrying the number
    of bytes received so far, then the completion line.  The progress
    lines appear only when the server declares a positive size; without a
    [content-length] header, or with 0, none is printed. *)
Theorem progress_is_reported_per_chunk env url destination w w' :
  download_file env url destination w = (Ok true, w') ->
  exists u response,
    url = JStr u /\ requests_get env u = Done response /\
    console w'
    = console w
      ++ [Out ("Downloading from " +++ py_str env url +++ "...")]
      ++ progress_lines (declared_size response) (chunks response)
      ++ [Out (PyStr.nl +++ "Download complete!")].
Proof.
  intros H. unfold download_file, try_except in H.
  match type of H with
  | match ?body w with _ => _ end = _ =>
      destruct (body w) as [[b | [msg |]] wb] eqn:Hbody
  end.
  2: { unfold bind, print, ret in H. discriminate H. }
  2: discriminate H.
  injection H as -> ->.
  inv_bind_as Hbody u0 w0 H0. apply print_inv in H0. destruct H0 as [_ ->].
  inv_bind_as Hbody response w1 H1.
  destruct url as [| | | u | |]; try discriminate H1.
  cbn [http_get] in H1.
  destruct (requests_get env u) as [r |] eqn:Hget; [| discriminate H1].
  cbn [lift] in H1. injection H1 as <- <-.
  inv_bind_as Hbody u2 w2 H2.
  unfold raise_for_status in H2.
  destruct (status_error r); [discriminate H2 |]. injection H2 as _ <-.
  inv_bind_as Hbody total w3 H3.
  assert (Htotal : total = declared_size r /\
                   w3 = emit (Out ("Downloading from " +++ py_str env (JStr u)
                                   +++ "...")) w).
  { unfold total_size_of in H3. unfold declared_size.
    destruct (content_length r) as [[n | e] |]; try discriminate H3;
      injection H3 as <- <-; auto. }
  destruct Htotal as [-> ->].
  inv_bind_as Hbody u4 w4 H4. apply open_wb_console in H4.
  inv_bind_as Hbody u5 w5 H5. apply write_chunks_console in H5.
  destruct (stream_error r); [discriminate Hbody |].
  unfold bind, print, ret in Hbody. injection Hbody as <-.
  exists u, r. split; [reflexivity |]. split; [exact Hget |].
  cbn [console emit]. rewrite H5, H4. cbn [console emit].
  unfold progress_lines. rewrite <- !app_assoc. reflexivity.
Qed.

(** X16 on the sample: nine bytes are announced, and the two chunks of
    the Harmony archive are reported at two and nine bytes. *)
Lemma progress_is_reported_per_chunk_witness :
  let w := Sample.world [] [] in
  let url := JStr "https://dl.example/HarmonyMod.zip" in
  let destination := cwd Sample.env ++ ["HarmonyMod.zip"] in
  let w' := snd (download_file Sample.env url destination w) in
  download_file Sample.env url destination w = (Ok true, w') /\
  console w'
  = [Out "Downloading from https://dl.example/HarmonyMod.zip...";
     OutProgress 2 9; OutProgress 9 9;
     Out (PyStr.nl +++ "Download complete!")].
Proof.
  intros w url destination w'.
  assert (Hrun : download_file Sample.env url destination w = (Ok true, w'))
    by (vm_compute; reflexivity).
  split; [exact Hrun |].
  destruct (progress_is_reported_per_chunk Sample.env url destination w w' Hrun)
    as (u & response & Hu & Hget & Hconsole).
  injection Hu as <-. vm_compute in Hget. injection Hget as <-.
  rewrite Hconsole. vm_compute. reflexivity.
Defined.

(* ------------------------------------------------------------------ *)
(** ** A successful install touches one folder of [Mods] *)

Lemma apart_app_l p q x : FS.apart p q = true -> FS.apart (p ++ x) q = true.
Proof.
  intros H. rewrite <- (app_nil_r q). apply FSFacts.apart_app. exact H.
Qed.

(** Lines 189-204: apart from the scratch paths, placing the package
    changes nothing but the destination folder. *)
Lemma place_package_frame env pk rimworld w w' :
  place_package env pk rimworld w = (Ok true, w') ->
  exists name,
    first_folder (cwd env ++ [pk_temp pk]) (fs w) = Some name /\
    forall q,
      FS.apart ((rimworld ++ ["Mods"]) ++ [name]) q = true ->
      FS.apart (cwd env ++ [pk_temp pk]) q = true ->
      FS.apart (cwd env ++ [pk_zip pk]) q = true ->
      FS.lookup q (fs w') = FS.lookup q (fs w).
Proof.
  intros H. unfold place_package in H. unfold first_folder.
  set (mods := rimworld ++ ["Mods"]) in *.
  set (temp := cwd env ++ [pk_temp pk]) in *.
  set (zip := cwd env ++ [pk_zip pk]) in *.
  inv_bind_as H entries w0 Hiter.
  apply iterdir_inv in Hiter. destruct Hiter as [-> (es & Hes & ->)].
  rewrite Hes.
  unfold bind at 1 in H. rewrite keep_dirs_run, filter_map_fst in H.
  destruct (filter (fun kn => FS.is_dir (temp ++ [fst kn]) (fs w)) es)
    as [| [name sub] others] eqn:Hfilter; cbn [map] in H.
  { inv_bind_as H u1 w1 H1. inv_bind_as H u2 w2 H2. inv_bind_as H u3 w3 H3.
    discriminate H. }
  cbn [fst] in H. rewrite FSFacts.name_snoc in H.
  exists name. split; [reflexivity |]. intros q Hdest Htemp Hzip.
  set (src := temp ++ [name]) in *.
  set (dest := mods ++ [name]) in *.
  inv_bind_as H present wa Hpresent.
  unfold Os.exists_ in Hpresent. inversion Hpresent; subst present wa.
  clear Hpresent.
  inv_bind_as H u wb Hclear. destruct u.
  assert (Hb : FS.lookup q (fs wb) = FS.lookup q (fs w)).
  { destruct (FS.exists_ dest (fs w)).
    - inv_bind_as Hclear u0 w1 Hp. apply print_inv in Hp.
      destruct Hp as [_ ->]. apply rmtree_inv in Hclear. subst wb.
      cbn [fs set_fs emit]. apply FSFacts.lookup_remove_apart. exact Hdest.
    - inversion Hclear; subst wb. reflexivity. }
  inv_bind_as H u1 wc Hmove. destruct u1.
  apply move_inv in Hmove. destruct Hmove as (n & fs1 & Hn & Hput & ->).
  assert (Hc : FS.lookup q fs1 = FS.lookup q (fs wb)).
  { rewrite (FSFacts.lookup_put_apart _ q _ _ _) with (2 := Hput).
    - apply FSFacts.lookup_remove_apart. apply apart_app_l. exact Htemp.
    - unfold Os.real_dst. destruct (FS.is_dir dest (fs wb));
        [apply apart_app_l |]; exact Hdest. }
  apply (keeps_run q) in H; [| frame].
  cbn [fs set_fs] in H. congruence.
Qed.

Lemma extraction_frame env pk rimworld release_type w wz wx q :
  extracted_in env pk rimworld release_type w wz wx ->
  FS.is_prefix q (rimworld ++ ["Mods"]) = false ->
  FS.apart (cwd env ++ [pk_temp pk]) q = true ->
  FS.apart (cwd env ++ [pk_zip pk]) q = true ->
  FS.lookup q (fs wx) = FS.lookup q (fs w).
Proof.
  intros (w2 & url & w3 & H1 & H2 & _ & H3 & H4) Hmods Htemp Hzip.
  apply (keeps_run q _ _ _ _ (keeps_mkdir_exist_ok q _ Hmods)) in H1.
  apply (keeps_run q _ _ _ _
           (read_only_keeps q _ (read_only_get_latest env _ _))) in H2.
  apply (keeps_run q _ _ _ _ (keeps_download_file q env _ _ Hzip)) in H3.
  apply (keeps_run q _ _ _ _ (keeps_extract_zip q env _ _ Htemp)) in H4.
  cbn [fs say emit] in H1. congruence.
Qed.

Lemma installed_package_frame env pk rimworld release_type w w' :
  scratch_apart env pk rimworld = true ->
  install_package env pk rimworld release_type w = (Ok true, w') ->
  exists wz wx name,
    extracted_in env pk rimworld release_type w wz wx /\
    first_folder (cwd env ++ [pk_temp pk]) (fs wx) = Some name /\
    FS.is_dir ((rimworld ++ ["Mods"]) ++ [name]) (fs w') = true /\
    forall q,
      FS.is_prefix q (rimworld ++ ["Mods"]) = false ->
      FS.apart ((rimworld ++ ["Mods"]) ++ [name]) q = true ->
      FS.apart (cwd env ++ [pk_temp pk]) q = true ->
      FS.apart (cwd env ++ [pk_zip pk]) q = true ->
      FS.lookup q (fs w') = FS.lookup q (fs w).
Proof.
  intros Hapart H. unfold scratch_apart in Hapart.
  apply andb_true_iff in Hapart. destruct Hapart as [Htemp Hzip].
  destruct (install_package_success _ _ _ _ _ _ H) as (wz & wx & Hex & Hpl).
  destruct (place_package_frame _ _ _ _ _ Hpl) as (name & Hname & Hframe).
  destruct (place_package_success env pk rimworld wx w' Htemp Hzip Hpl)
    as (name' & content & Hname' & _ & Hdest & _).
  rewrite Hname in Hname'. injection Hname' as <-.
  exists wz, wx, name. split; [exact Hex |]. split; [exact Hname |]. split.
  - unfold FS.is_dir. rewrite Hdest. reflexivity.
  - intros q Hq0 Hq1 Hq2 Hq3. rewrite (Hframe q Hq1 Hq2 Hq3).
    exact (extraction_frame _ _ _ _ _ _ _ q Hex Hq0 Hq2 Hq3).
Qed.

(** X17.  A successful install changes one folder of [Mods] and nothing
    else: the folder picked in the extracted tree is a folder of [Mods]
    afterwards, and every path that is not in that folder, not one of
    the two scratch paths and not a directory above [Mods] leads to what
    it led to before.  The other mods, the game and the configuration
    are untouched. *)
Theorem successful_install_touches_one_folder env rimworld release_type w w' :
  (scratch_apart env harmony_package rimworld = true ->
   install_harmony_mod env rimworld w = (Ok true, w') ->
   exists wz wx name,
     extracted_in env harmony_package rimworld "stable" w wz wx /\
     first_folder (cwd env ++ ["temp_harmony"]) (fs wx) = Some name /\
     FS.is_dir ((rimworld ++ ["Mods"]) ++ [name]) (fs w') = true /\
     forall q,
       FS.is_prefix q (rimworld ++ ["Mods"]) = false ->
       FS.apart ((rimworld ++ ["Mods"]) ++ [name]) q = true ->
       FS.apart (cwd env ++ ["temp_harmony"]) q = true ->
       FS.apart (cwd env ++ ["HarmonyMod.zip"]) q = true ->
       FS.lookup q (fs w') = FS.lookup q (fs w)) /\
  (scratch_apart env access_package rimworld = true ->
   install_rimworld_access_mod env rimworld release_type w = (Ok true, w') ->
   exists wz wx name,
     extracted_in env access_package rimworld release_type w wz wx /\
     first_folder (cwd env ++ ["temp_access"]) (fs wx) = Some name /\
     FS.is_dir ((rimworld ++ ["Mods"]) ++ [name]) (fs w') = true /\
     forall q,
       FS.is_prefix q (rimworld ++ ["Mods"]) = false ->
       FS.apart ((rimworld ++ ["Mods"]) ++ [name]) q = true ->
       FS.apart (cwd env ++ ["temp_access"]) q = true ->
       FS.apart (cwd env ++ ["RimWorldAccess.zip"]) q = true ->
       FS.lookup q (fs w') = FS.lookup q (fs w)).
Proof.
  split; intros Hapart H.
  - rewrite install_harmony_is_package in H.
    exact (installed_package_frame env harmony_package _ _ _ _ Hapart H).
  - rewrite install_access_is_package in H.
    exact (installed_package_frame env access_package _ _ _ _ Hapart H).
Qed.

(** X17 on the sample: RimWorld Access is installed next to the older
    Harmony, whose file is still there. *)
Lemma successful_install_touches_one_folder_witness :
  let w := Sample.world [] [] in
  let w' := snd (install_rimworld_access_mod Sample.env Sample.game "stable" w) in
  let q := Sample.game ++ ["Mods"; "HarmonyMod"; "old.txt"] in
  scratch_apart Sample.env access_package Sample.game = true /\
  install_rimworld_access_mod Sample.env Sample.game "stable" w = (Ok true, w') /\
  FS.is_dir (Sample.game ++ ["Mods"; "RimWorldAccess"]) (fs w') = true /\
  FS.lookup q (fs w') = FS.lookup q (fs w).
Proof.
  intros w w' q.
  assert (Hrun : install_rimworld_access_mod Sample.env Sample.game "stable" w
                 = (Ok true, w')) by (vm_compute; reflexivity).
  split; [reflexivity |]. split; [exact Hrun |].
  destruct (proj2 (successful_install_touches_one_folder Sample.env Sample.game
                     "stable" w w') eq_refl Hrun)
    as (wz & wx & name & Hex & Hname & Hdir & Hframe).
  assert (Hn : name = "RimWorldAccess").
  { destruct Hex as (w2 & url & w3 & H1 & H2 & _ & H3 & H4).
    vm_compute in H1. injection H1 as <-.
    vm_compute in H2. injection H2 as <- <-.
    vm_compute in H3. injection H3 as <-.
    vm_compute in H4. injection H4 as <-.
    vm_compute in Hname. injection Hname as <-. reflexivity. }
  subst name. split; [exact Hdir |].
  apply Hframe; reflexivity.
Defined.

(* ------------------------------------------------------------------ *)
(** ** Two edges: no configuration file, no [Mods] directory to be had *)

(** X18.  A missing configuration file is not an error: without
    [ModsConfig.xml], [update_mods_config] prints its three lines of
    advice and returns [True]; it creates nothing, not even the
    configuration directory, and reads no input. *)
Theorem missing_config_counts_as_success env rimworld w :
  FS.exists_ (config_file env) (fs w) = false ->
  exists w',
    update_mods_config env rimworld w = (Ok true, w') /\
    fs w' = fs w /\ stdin w' = stdin w /\
    console w'
    = console w
      ++ [Out (PyStr.nl +++ " Updating ModsConfig.xml ");
          Out ("Warning: ModsConfig.xml not found at "
               +++ path_str (config_file env));
          Out "The file will be created when you first run RimWorld.";
          Out "Please run the game, and try again."].
Proof.
  intros Hc.
  set (w0 := say (PyStr.nl +++ " Updating ModsConfig.xml ") w).
  unfold update_mods_config, update_mods_config_with.
  rewrite (bind_ok _ _ w tt w0) by reflexivity.
  rewrite (bind_ok _ _ w0 false w0)
    by (unfold Os.exists_; cbn [fs w0 say emit]; rewrite Hc; reflexivity).
  cbn [negb]. eexists. split; [reflexivity |].
  split; [reflexivity |]. split; [reflexivity |].
  cbn [console emit w0 say]. rewrite <- !app_assoc. reflexivity.
Qed.

(** X18 on a disk without the configuration directory. *)
Lemma missing_config_counts_as_success_witness :
  let w := {| fs := Dir [("C:", Dir [])]; stdin := []; console := [] |} in
  FS.exists_ (config_file Sample.env) (fs w) = false /\
  fst (update_mods_config Sample.env Sample.game w) = Ok true /\
  fs (snd (update_mods_config Sample.env Sample.game w)) = fs w.
Proof.
  intros w. split; [reflexivity |].
  destruct (missing_config_counts_as_success Sample.env Sample.game w eq_refl)
    as (w' & Hrun & Hfs & _).
  rewrite Hrun. split; [reflexivity | exact Hfs].
Defined.

Lemma put_missing_parent c n : forall p f,
  FS.lookup p f = None -> FS.put (p ++ [c]) n f = None.
Proof.
  induction p as [| a p IH]; intros f H; [discriminate |].
  destruct f as [| es]; [reflexivity |].
  cbn [FS.lookup] in H. change ((a :: p) ++ [c]) with (a :: (p ++ [c])).
  cbn [FS.put].
  destruct (p ++ [c]) as [| x y] eqn:E.
  { destruct p; discriminate E. }
  destruct (FS.entry a es) as [sub |]; [| reflexivity].
  rewrite (IH sub H). reflexivity.
Qed.

Lemma package_raises_without_mods env pk rimworld release_type w :
  FS.exists_ rimworld (fs w) = false \/
  (exists data, FS.lookup (rimworld ++ ["Mods"]) (fs w) = Some (File data)) ->
  exists e,
    install_package env pk rimworld release_type w
    = (Raise (Exception e), say (pk_title pk) w).
Proof.
  intros H. unfold install_package.
  rewrite (bind_ok _ _ w tt (say (pk_title pk) w)) by reflexivity.
  assert (Hmk : exists e,
             Os.mkdir_exist_ok (rimworld ++ ["Mods"]) (say (pk_title pk) w)
             = (Raise (Exception e), say (pk_title pk) w)).
  { unfold Os.mkdir_exist_ok, Os.mkdir. cbn [fs say emit].
    destruct H as [H | [data H]].
    - unfold FS.exists_ in H.
      destruct (FS.lookup rimworld (fs w)) as [n |] eqn:Hr; [discriminate |].
      rewrite FSFacts.lookup_app, Hr. unfold Os.commit. cbn [fs say emit].
      rewrite (put_missing_parent "Mods" (Dir []) rimworld (fs w) Hr).
      eexists. reflexivity.
    - rewrite H. eexists. reflexivity. }
  destruct Hmk as [e Hmk]. exists e.
  rewrite (bind_raise _ _ _ _ _ Hmk). reflexivity.
Qed.

(** X19.  The install functions do not always answer with a flag: when
    the [Mods] directory cannot be made, because the game directory is
    gone or because [Mods] is a file, they raise, before any request is
    sent and with no file changed; only the heading has been printed. *)
Theorem install_raises_when_mods_cannot_be_made env rimworld release_type w :
  FS.exists_ rimworld (fs w) = false \/
  (exists data, FS.lookup (rimworld ++ ["Mods"]) (fs w) = Some (File data)) ->
  exists e1 e2,
    install_harmony_mod env rimworld w
    = (Raise (Exception e1), say (PyStr.nl +++ " Installing Harmony Mod") w) /\
    install_rimworld_access_mod env rimworld release_type w
    = (Raise (Exception e2), say (PyStr.nl +++ " Installing RimWorld Access ") w).
Proof.
  intros H.
  destruct (package_raises_without_mods env harmony_package rimworld "stable"
              w H) as [e1 H1].
  destruct (package_raises_without_mods env access_package rimworld
              release_type w H) as [e2 H2].
  exists e1, e2. split; assumption.
Qed.

(** X19 on the sample, with a game directory that does not exist. *)
Lemma install_raises_when_mods_cannot_be_made_witness :
  let w := Sample.world [] [] in
  FS.exists_ ["C:"; "Nowhere"] (fs w) = false /\
  fst (install_harmony_mod Sample.env ["C:"; "Nowhere"] w)
  = Raise (Exception "No such file or directory") /\
  fs (snd (install_harmony_mod Sample.env ["C:"; "Nowhere"] w)) = fs w.
Proof.
  intros w. split; [reflexivity |].
  destruct (install_raises_when_mods_cannot_be_made Sample.env ["C:"; "Nowhere"]
              "stable" w (or_introl eq_refl)) as (e1 & e2 & H1 & _).
  rewrite H1. split; [| reflexivity].
  vm_compute in H1. injection H1 as <-. reflexivity.
Defined.
